(** * A shallow embedding of the Assembly Voting JS client

    The development follows the TypeScript sources of the client:
    - [lib/av_client/aion_crypto/util] (hex validation),
    - [lib/av_client/election_config.ts] (configuration validation),
    - [lib/av_client/submit_votes.ts] (signing, submission, receipt check),
    - [lib/av_client.ts] (the voter session and its lifecycle operations),
    - the helpers of the decryption test ([prepareCombinedCryptograms],
      [dummyCommitmentOpening]),
    - [test/test_helpers.ts] (deterministic random words, the file names
      of recorded replies),
    - the first client of [lib/av_client.ts], which authenticates with
      election codes and keeps the answer in a storage.

    Modules of the client that are used but whose code is not at hand
    ([cvr_validation], [encrypt_votes], [decrypt_contest_selections], the
    cryptographic library) are either collaborators of the effect monad or
    modelled from the specification; each such definition says so.

    The first half of the file holds the definitions, the second half the
    lemmas and theorems about them.

    JavaScript strings that are only compared or concatenated are modelled
    as [string]; the hex validator, which inspects code units and the
    length, works on lists of UTF-16 code units. An object used as a map is
    the list of its entries in enumeration order. *)

From Stdlib Require Import List Bool Arith ZArith NArith Lia String Ascii.
From Stdlib Require Import DecimalString.
Import ListNotations.

Set Warnings "-register-all".

(* ================================================================== *)
(** * Regular expressions over code units *)
(* ================================================================== *)

Module Regex.

(** A code unit of a JavaScript string. *)
Definition code_unit := N.

(** The fragment of the regular-expression syntax the client uses:
    character classes given by inclusive ranges, sequencing,
    alternation and iteration. *)
Inductive regex : Type :=
| RNone : regex
| REps : regex
| RClass : list (N * N) -> regex
| RSeq : regex -> regex -> regex
| RAlt : regex -> regex -> regex
| RStar : regex -> regex.

(** [r+] is [r r*]. *)
Definition RPlus (r : regex) : regex := RSeq r (RStar r).

Definition in_range (c : code_unit) (rg : N * N) : bool :=
  (fst rg <=? c)%N && (c <=? snd rg)%N.

Definition in_class (ranges : list (N * N)) (c : code_unit) : bool :=
  existsb (in_range c) ranges.

Fixpoint nullable (r : regex) : bool :=
  match r with
  | RNone => false
  | REps => true
  | RClass _ => false
  | RSeq r1 r2 => nullable r1 && nullable r2
  | RAlt r1 r2 => nullable r1 || nullable r2
  | RStar _ => true
  end.

Fixpoint deriv (c : code_unit) (r : regex) : regex :=
  match r with
  | RNone => RNone
  | REps => RNone
  | RClass ranges => if in_class ranges c then REps else RNone
  | RSeq r1 r2 =>
      if nullable r1
      then RAlt (RSeq (deriv c r1) r2) (deriv c r2)
      else RSeq (deriv c r1) r2
  | RAlt r1 r2 => RAlt (deriv c r1) (deriv c r2)
  | RStar r1 => RSeq (deriv c r1) (RStar r1)
  end.

(** [matches r s]: the anchored pattern [^r$] matches [s]. Without the
    [m] flag, [^] and [$] only match at the two ends of the input. *)
Fixpoint matches (r : regex) (s : list code_unit) : bool :=
  match s with
  | [] => nullable r
  | c :: s' => matches (deriv c r) s'
  end.

(** The language of a regular expression. *)
Inductive lang : regex -> list code_unit -> Prop :=
| LEps : lang REps []
| LClass : forall ranges c, in_class ranges c = true -> lang (RClass ranges) [c]
| LSeq : forall r1 r2 s1 s2, lang r1 s1 -> lang r2 s2 -> lang (RSeq r1 r2) (s1 ++ s2)
| LAltL : forall r1 r2 s, lang r1 s -> lang (RAlt r1 r2) s
| LAltR : forall r1 r2 s, lang r2 s -> lang (RAlt r1 r2) s
| LStarNil : forall r, lang (RStar r) []
| LStarCons : forall r c s1 s2,
    lang r (c :: s1) -> lang (RStar r) s2 -> lang (RStar r) (c :: s1 ++ s2).

End Regex.

(* ================================================================== *)
(** * Hex validation ([aion_crypto/util]) *)
(* ================================================================== *)

Module Util.
Import Regex.

(** The class [[0-9A-Fa-f]]. *)
Definition hexRanges : list (N * N) :=
  [(48, 57); (65, 70); (97, 102)]%N.

Definition isHexDigit (c : code_unit) : bool := in_class hexRanges c.

(** The pattern [/^[0-9A-Fa-f]+$/]. *)
Definition hexPattern : regex := RPlus (RClass hexRanges).

(** [isValidHexString]: odd length is refused, otherwise the pattern
    decides. *)
Definition isValidHexString (test : list code_unit) : bool :=
  if negb (Nat.eqb (Nat.modulo (List.length test) 2) 0)
  then false
  else matches hexPattern test.

(** A code unit in [0-9], [A-F] or [a-f]. *)
Definition HexDigit (c : code_unit) : Prop :=
  (48 <= c <= 57 \/ 65 <= c <= 70 \/ 97 <= c <= 102)%N.

(** Code units of an ASCII literal, for examples. *)
Fixpoint units (s : string) : list code_unit :=
  match s with
  | EmptyString => []
  | String a s' => N_of_ascii a :: units s'
  end.

End Util.

(* ================================================================== *)
(** * JavaScript values, errors and effects *)
(* ================================================================== *)

Module Js.
Local Open Scope string_scope.

(** What a [throw] or a rejected promise carries. *)
Inductive exn : Type :=
| InvalidStateError (msg : string)
| CorruptCvrError (msg : string)
| InvalidConfigError (msg : string)
| TypeError                       (* property read on, or call of, [undefined] *)
| PlainError (msg : string)       (* [new Error(msg)] *)
| Rejection (reason : string)     (* [Promise.reject(reason)], a bare string *)
| CollaboratorError (name msg : string). (* raised inside a collaborator *)

Inductive result (A : Type) : Type :=
| Ok (a : A)
| Fail (e : exn).
Arguments Ok {A} a.
Arguments Fail {A} e.

(** Truthiness of an optional string: [undefined] and the empty string
    are falsy. *)
Definition truthy_string (o : option string) : bool :=
  match o with
  | Some s => negb (String.eqb s EmptyString)
  | None => false
  end.

(** Truthiness of an optional object or array: only [undefined] is
    falsy. *)
Definition truthy_object {A : Type} (o : option A) : bool :=
  match o with
  | Some _ => true
  | None => false
  end.

(** [Number.prototype.toString] on an integer. *)
Definition number_toString (z : Z) : string :=
  NilZero.string_of_int (Z.to_int z).

(** A plain object used as a map: its own enumerable string keys in
    enumeration order, each with its value. *)
Definition obj (V : Type) : Type := list (string * V).

Definition keys {V : Type} (o : obj V) : list string := map fst o.

Fixpoint get {V : Type} (o : obj V) (k : string) : option V :=
  match o with
  | [] => None
  | (k', v) :: o' => if String.eqb k' k then Some v else get o' k
  end.

(** [Array.prototype.join]. *)
Fixpoint join (sep : string) (l : list string) : string :=
  match l with
  | [] => EmptyString
  | [x] => x
  | x :: l' => x ++ sep ++ join sep l'
  end.

Definition newline : string := String (ascii_of_nat 10) EmptyString.

(** [o[k] = v]: an existing key keeps its place, a new key goes last. *)
Fixpoint setProp {V : Type} (o : obj V) (k : string) (v : V) : obj V :=
  match o with
  | [] => [(k, v)]
  | (k', v') :: o' =>
      if String.eqb k' k then (k, v) :: o' else (k', v') :: setProp o' k v
  end.

(** [Object.fromEntries]. *)
Definition fromEntries {V : Type} (entries : list (string * V)) : obj V :=
  fold_left (fun o kv => setProp o (fst kv) (snd kv)) entries [].

(** Sequencing of results: the first failure is the outcome. *)
Definition andThen {A B : Type} (r : result A) (f : A -> result B) : result B :=
  match r with
  | Ok a => f a
  | Fail e => Fail e
  end.

Definition orThrow {A : Type} (o : option A) (e : exn) : result A :=
  match o with
  | Some a => Ok a
  | None => Fail e
  end.

(** [Array.prototype.map] with a callback that may throw. *)
Fixpoint traverse {A B : Type} (f : A -> result B) (l : list A) : result (list B) :=
  match l with
  | [] => Ok []
  | a :: l' =>
      andThen (f a) (fun b => andThen (traverse f l') (fun bs => Ok (b :: bs)))
  end.

(** The value of a result, [d] for a failure. *)
Definition valueOr {A : Type} (d : A) (r : result A) : A :=
  match r with
  | Ok a => a
  | Fail _ => d
  end.

Declare Scope result_scope.
Delimit Scope result_scope with result.
Notation "'let*' x ':=' r 'in' k" := (andThen r (fun x => k))
  (at level 61, x name, r at next level, right associativity) : result_scope.

End Js.

(* ================================================================== *)
(** * JSON serialisation *)
(* ================================================================== *)

Module Json.
Local Open Scope string_scope.

Inductive json : Type :=
| JString (s : string)
| JNumber (z : Z)
| JObject (fields : list (string * json)).

Definition hexDigit (n : nat) : ascii :=
  match n with
  | 0 => "0" | 1 => "1" | 2 => "2" | 3 => "3" | 4 => "4"
  | 5 => "5" | 6 => "6" | 7 => "7" | 8 => "8" | 9 => "9"
  | 10 => "a" | 11 => "b" | 12 => "c" | 13 => "d" | 14 => "e"
  | _ => "f"
  end%char.

(** The escape of one character inside a JSON string literal. *)
Definition escapeChar (a : ascii) : string :=
  let n := nat_of_ascii a in
  if Nat.eqb n 34 then String "\"%char (String a EmptyString)
  else if Nat.eqb n 92 then String "\"%char (String a EmptyString)
  else if Nat.eqb n 8 then "\b"
  else if Nat.eqb n 12 then "\f"
  else if Nat.eqb n 10 then "\n"
  else if Nat.eqb n 13 then "\r"
  else if Nat.eqb n 9 then "\t"
  else if Nat.ltb n 32 then
    "\u00" ++ String (hexDigit (n / 16)) (String (hexDigit (n mod 16)) EmptyString)
  else String a EmptyString.

Fixpoint escape (s : string) : string :=
  match s with
  | EmptyString => EmptyString
  | String a s' => escapeChar a ++ escape s'
  end.

Definition dquote : string := String (ascii_of_nat 34) EmptyString.

Definition quote (s : string) : string := dquote ++ escape s ++ dquote.

(** [JSON.stringify] without indentation. *)
Fixpoint stringify (j : json) : string :=
  match j with
  | JString s => quote s
  | JNumber z => Js.number_toString z
  | JObject fields =>
      let fix members (l : list (string * json)) : list string :=
        match l with
        | [] => []
        | (k, v) :: l' => (quote k ++ ":" ++ stringify v) :: members l'
        end in
      "{" ++ Js.join "," (members fields) ++ "}"
  end.

End Json.

(* ================================================================== *)
(** * Data types of the client ([types], [election_config.ts]) *)
(* ================================================================== *)

Module KeyPair.
Record t : Type := { privateKey : string; publicKey : string }.
End KeyPair.

Module EmptyCryptogram.
Record t : Type := { empty_cryptogram : string }.
End EmptyCryptogram.

(** An envelope as [encrypt] returns it; [submit_votes.ts] calls the same
    shape [EncryptedVote]. *)
Module Envelope.
Record t : Type := { cryptogram : string; randomness : string; proof : string }.
End Envelope.

Module CryptogramWithProof.
Record t : Type := { cryptogram : string; proof : string }.
End CryptogramWithProof.

Module BallotOption.
(** Modelled from the spec: the declaration of a ballot's options is not
    part of the sources; a cast-vote-record selects an option by its
    reference. *)
Record t : Type := { reference : string }.
End BallotOption.

Module Ballot.
Record t : Type := {
  id : Z;
  vote_encoding_type : Z;
  options : list BallotOption.t
}.
End Ballot.

Module Election.
Record t : Type := { id : Z }.
End Election.

Module Service.
Record t : Type := {
  url : option string;
  election_context_uuid : option string;
  public_key : option string
}.
End Service.

Module Services.
Record t : Type := {
  voter_authorizer : option Service.t;
  otp_provider : option Service.t
}.
End Services.

Module AffidavitConfig.
Record t : Type := { curve : string; encryptionKey : string }.
End AffidavitConfig.

Module ElectionConfig.
(** The fields a response may lack ([services] and below, [affidavit])
    are optional: [validateElectionConfig] reads them with [?.]. *)
Record t : Type := {
  app_url : string;
  encryptionKey : string;
  signingPublicKey : string;
  election : Election.t;
  ballots : list Ballot.t;
  availableLocales : list string;
  currentLocale : string;
  affidavit : option AffidavitConfig.t;
  services : option Services.t
}.

Definition with_affidavit (a : AffidavitConfig.t) (c : t) : t :=
  {| app_url := app_url c; encryptionKey := encryptionKey c;
     signingPublicKey := signingPublicKey c; election := election c;
     ballots := ballots c; availableLocales := availableLocales c;
     currentLocale := currentLocale c; affidavit := Some a;
     services := services c |}.
End ElectionConfig.

Definition CastVoteRecord : Type := Js.obj string.

(** Responses of the collaborators. *)
Module BoardHashData.
Record t : Type := {
  currentBoardHash : option string;
  currentTime : option string
}.
End BoardHashData.

Module AcknowledgedBoard.
Record t : Type := { currentBoardHash : string; currentTime : string }.
End AcknowledgedBoard.

Module SubmitData.
Record t : Type := {
  error : option string;          (* [data.error.description] *)
  previousBoardHash : string;
  boardHash : string;
  registeredAt : string;
  serverSignature : string;
  voteSubmissionId : Z
}.
End SubmitData.

Module Receipt.
Record t : Type := {
  previousBoardHash : string;
  boardHash : string;
  registeredAt : string;
  serverSignature : string;
  voteSubmissionId : Z
}.
End Receipt.

Module AuthorizationData.
Record t : Type := { registrationToken : string; publicKeyToken : string }.
End AuthorizationData.

Module RegisterVoterResponse.
Record t : Type := {
  voterIdentifier : string;
  emptyCryptograms : Js.obj EmptyCryptogram.t;
  contestIds : list Z
}.
End RegisterVoterResponse.

Module AuthenticationResponse.
Record t : Type := {
  voterIdentifier : string;
  keyPair : KeyPair.t;
  emptyCryptograms : Js.obj EmptyCryptogram.t
}.
End AuthenticationResponse.

(* ================================================================== *)
(** * Collaborators and the effect monad *)
(* ================================================================== *)

Module Effects.
Import Js.

(** Every call that leaves the client object: requests to the bulletin
    board, the voter authorization coordinator and the OTP provider, and
    calls into the cryptographic library that draw randomness or may
    throw. *)
Inductive event : Type :=
| GetElectionConfig
| CreateSession (url : option string) (opaqueVoterId email : string)
| RequestOTPAuthorization (url : option string) (code email : string)
| RequestPublicKeyAuthorization
    (url : option string) (sessionId : option string) (token publicKey : string)
| RegisterVoter (keyPair : KeyPair.t) (encryptionKey registrationToken publicKeyToken : string)
| Authenticate (codes : list string) (electionId : Z) (encryptionKey : string)
| GetBoardHash
| SubmitVotes (contentHash signature : string)
    (cryptogramsWithProofs : obj CryptogramWithProof.t)
| RandomKeyPair
| Encrypt (cvr : CastVoteRecord) (emptyCryptograms : obj string)
    (contestEncodingTypes : obj Z) (encryptionKey : string)
| GenerateTestCode
| GenerateSchnorrSignature (hash privateKey : string).

(** The events that are requests over the network. *)
Definition is_network (e : event) : bool :=
  match e with
  | GetElectionConfig | CreateSession _ _ _ | RequestOTPAuthorization _ _ _
  | RequestPublicKeyAuthorization _ _ _ _ | RegisterVoter _ _ _ _
  | Authenticate _ _ _ | GetBoardHash | SubmitVotes _ _ _ => true
  | RandomKeyPair | Encrypt _ _ _ _ | GenerateTestCode
  | GenerateSchnorrSignature _ _ => false
  end.

Definition history : Type := list event.

(** The collaborators. Each answer may depend on everything that
    happened before (servers are stateful, randomness is fresh). *)
Record Env : Type := {
  (* bulletin board *)
  bb_getElectionConfig : history -> result ElectionConfig.t;
  bb_getBoardHash : history -> result BoardHashData.t;
  bb_submitVotes :
    history -> string -> string -> obj CryptogramWithProof.t -> result SubmitData.t;
  bb_registerVoter :
    history -> KeyPair.t -> string -> string -> string -> result RegisterVoterResponse.t;
  bb_authenticate :
    history -> list string -> Z -> string -> result AuthenticationResponse.t;
  (* voter authorization coordinator and OTP provider *)
  vac_createSession : history -> option string -> string -> string -> result (option string);
  vac_requestPublicKeyAuthorization :
    history -> option string -> option string -> string -> string -> result AuthorizationData.t;
  otp_requestOTPAuthorization : history -> option string -> string -> string -> result string;
  (* cryptographic library *)
  hashString : string -> string;
  generateSchnorrSignature : history -> string -> string -> result string;
  verifySchnorrSignature : string -> string -> string -> bool;
  randomKeyPair : history -> KeyPair.t;
  encrypt :
    history -> CastVoteRecord -> obj string -> obj Z -> string -> result (obj Envelope.t);
  fingerprint : obj string -> string;
  generateTestCode : history -> string
}.

(** A computation over a state [St]: it may read and update the state,
    append events to the trace, and end in a value or an exception. *)
Definition Comp (St A : Type) : Type :=
  St -> history -> result A * St * history.

Definition ret {St A : Type} (a : A) : Comp St A :=
  fun s tr => (Ok a, s, tr).

Definition bind {St A B : Type} (m : Comp St A) (f : A -> Comp St B) : Comp St B :=
  fun s tr =>
    match m s tr with
    | (Ok a, s', tr') => f a s' tr'
    | (Fail e, s', tr') => (Fail e, s', tr')
    end.

Definition throw {St A : Type} (e : exn) : Comp St A :=
  fun s tr => (Fail e, s, tr).

Definition read {St : Type} : Comp St St :=
  fun s tr => (Ok s, s, tr).

Definition update {St : Type} (f : St -> St) : Comp St unit :=
  fun s tr => (Ok tt, f s, tr).

(** A call to a collaborator: the event is recorded, the answer is the
    collaborator's. *)
Definition perform {St A : Type} (ev : event) (answer : history -> result A) : Comp St A :=
  fun s tr => (answer tr, s, tr ++ [ev]).

(** Reading a property of a possibly undefined object. *)
Definition prop {St A : Type} (o : option A) : Comp St A :=
  match o with
  | Some a => ret a
  | None => throw TypeError
  end.

Fixpoint mapM {St A B : Type} (f : A -> Comp St B) (l : list A) : Comp St (list B) :=
  match l with
  | [] => ret []
  | a :: l' => bind (f a) (fun b => bind (mapM f l') (fun bs => ret (b :: bs)))
  end.

Definition outcome {St A : Type} (r : result A * St * history) : result A := fst (fst r).
Definition final {St A : Type} (r : result A * St * history) : St := snd (fst r).
Definition trace {St A : Type} (r : result A * St * history) : history := snd r.

(** [m] never changes the state. *)
Definition stateless {St A : Type} (m : Comp St A) : Prop :=
  forall s tr, final (m s tr) = s.

(** [m] never fails. *)
Definition unfailing {St A : Type} (m : Comp St A) : Prop :=
  forall s tr, exists a, outcome (m s tr) = Ok a.

(** A failing run of [m] leaves the state as it was. *)
Definition atomic {St A : Type} (m : Comp St A) : Prop :=
  forall s tr e, outcome (m s tr) = Fail e -> final (m s tr) = s.

Declare Scope comp_scope.
Delimit Scope comp_scope with comp.
Notation "x <- m ;; k" := (bind m (fun x => k))
  (at level 100, m at next level, right associativity) : comp_scope.
Notation "m ;;; k" := (bind m (fun _ => k))
  (at level 100, right associativity) : comp_scope.

End Effects.

(* ================================================================== *)
(** * Election configuration ([election_config.ts]) *)
(* ================================================================== *)

Module ElectionConfigOps.
Import Js Effects.
Local Open Scope string_scope.
Local Open Scope comp_scope.

Section WithEnv.
Variable env : Env.
Context {St : Type}.

Definition fetchElectionConfig : Comp St ElectionConfig.t :=
  configData <- perform GetElectionConfig (bb_getElectionConfig env) ;;
  let pubKey := "03e9858b6e48eb93d8f27aa76b60806298c4c7dd94077ad6c3ff97c44937888647" in
  ret (ElectionConfig.with_affidavit
         {| AffidavitConfig.curve := "k256";
            AffidavitConfig.encryptionKey := pubKey |}
         configData).
End WithEnv.

(** [x?.length > 0]: false when [x] is undefined. *)
Definition lengthPositive (o : option string) : bool :=
  match o with
  | Some s => Nat.ltb 0 (String.length s)
  | None => false
  end.

Definition service_field (sel : Services.t -> option Service.t)
    (field : Service.t -> option string) (config : ElectionConfig.t) : bool :=
  match ElectionConfig.services config with
  | Some svcs =>
      match sel svcs with
      | Some svc => lengthPositive (field svc)
      | None => false
      end
  | None => false
  end.

Definition containsOTPProviderURL := service_field Services.otp_provider Service.url.
Definition containsOTPProviderContextId :=
  service_field Services.otp_provider Service.election_context_uuid.
Definition containsOTPProviderPublicKey :=
  service_field Services.otp_provider Service.public_key.
Definition containsVoterAuthorizerURL :=
  service_field Services.voter_authorizer Service.url.
Definition containsVoterAuthorizerContextId :=
  service_field Services.voter_authorizer Service.election_context_uuid.
Definition containsVoterAuthorizerPublicKey :=
  service_field Services.voter_authorizer Service.public_key.

Definition pushUnless (ok : bool) (msg : string) (errors : list string) : list string :=
  if ok then errors else errors ++ [msg].

Definition configErrors (config : ElectionConfig.t) : list string :=
  let errors := [] in
  let errors := pushUnless (containsOTPProviderURL config)
    "Configuration is missing OTP Provider URL" errors in
  let errors := pushUnless (containsOTPProviderContextId config)
    "Configuration is missing OTP Provider election context uuid" errors in
  let errors := pushUnless (containsOTPProviderPublicKey config)
    "Configuration is missing OTP Provider public key" errors in
  let errors := pushUnless (containsVoterAuthorizerURL config)
    "Configuration is missing Voter Authorizer URL" errors in
  let errors := pushUnless (containsVoterAuthorizerContextId config)
    "Configuration is missing Voter Authorizer election context uuid" errors in
  let errors := pushUnless (containsVoterAuthorizerPublicKey config)
    "Configuration is missing Voter Authorizer public key" errors in
  errors.

Definition validateElectionConfig {St : Type} (config : ElectionConfig.t) : Comp St unit :=
  let errors := configErrors config in
  if Nat.ltb 0 (List.length errors)
  then throw (InvalidConfigError
                ("Received invalid election configuration. Errors: "
                 ++ join ("," ++ newline) errors))
  else ret tt.

End ElectionConfigOps.

(* ================================================================== *)
(** * Submission and receipt verification ([submit_votes.ts]) *)
(* ================================================================== *)

Module SubmitVotes.
Import Js Json Effects.
Local Open Scope string_scope.
Local Open Scope comp_scope.

(** [voterIdentifier] is declared a string; the session field the caller
    passes may still be [undefined], hence the option. *)
Record SignAndSubmitArguments : Type := {
  voterIdentifier : option string;
  electionId : Z;
  voteEncryptions : option (obj Envelope.t);
  privateKey : string;
  signatureKey : string;
  affidavit : string
}.

(** The entries a [for ... in] loop visits; the loop body does not run
    on [undefined]. *)
Definition forIn {V : Type} (o : option (obj V)) : obj V :=
  match o with
  | Some entries => entries
  | None => []
  end.

Definition votesOf (ve : option (obj Envelope.t)) : obj string :=
  map (fun kv => (fst kv, Envelope.cryptogram (snd kv))) (forIn ve).

Definition cryptogramsWithProofsOf (ve : option (obj Envelope.t))
  : obj CryptogramWithProof.t :=
  map (fun kv => (fst kv,
                  {| CryptogramWithProof.cryptogram := Envelope.cryptogram (snd kv);
                     CryptogramWithProof.proof := Envelope.proof (snd kv) |}))
      (forIn ve).

(** A member whose value is [undefined] is left out by
    [JSON.stringify]. *)
Definition member (k : string) (v : option json) : list (string * json) :=
  match v with
  | Some j => [(k, j)]
  | None => []
  end.

(** The object that is serialised, hashed and signed. *)
Definition contentOf (ack : AcknowledgedBoard.t) (electionId : Z)
    (voterIdentifier : option string) (votes : obj string) : json :=
  JObject
    ([ ("acknowledged_at", JString (AcknowledgedBoard.currentTime ack));
       ("acknowledged_board_hash", JString (AcknowledgedBoard.currentBoardHash ack));
       ("election_id", JNumber electionId) ]
     ++ member "voter_identifier" (option_map JString voterIdentifier)
     ++ [ ("votes", JObject (map (fun kv => (fst kv, JString (snd kv))) votes)) ])%list.

Definition boardHashObject (contentHash : string) (receipt : Receipt.t) : json :=
  JObject
    [ ("content_hash", JString contentHash);
      ("previous_board_hash", JString (Receipt.previousBoardHash receipt));
      ("registered_at", JString (Receipt.registeredAt receipt)) ].

Definition receiptHashObject (receipt : Receipt.t) (voterSignature : string) : json :=
  JObject
    [ ("board_hash", JString (Receipt.boardHash receipt));
      ("signature", JString voterSignature) ].

Section WithEnv.
Variable env : Env.
Context {St : Type}.

Definition acknowledge : Comp St AcknowledgedBoard.t :=
  data <- perform GetBoardHash (bb_getBoardHash env) ;;
  if negb (truthy_string (BoardHashData.currentBoardHash data))
     || negb (truthy_string (BoardHashData.currentTime data))
  then throw (Rejection "Could not get latest board hash")
  else
    match BoardHashData.currentBoardHash data, BoardHashData.currentTime data with
    | Some h, Some t =>
        ret {| AcknowledgedBoard.currentBoardHash := h;
               AcknowledgedBoard.currentTime := t |}
    | _, _ => throw (Rejection "Could not get latest board hash")
    end.

Definition sign (contentHash privateKey : string) : Comp St string :=
  perform (GenerateSchnorrSignature contentHash privateKey)
          (fun h => generateSchnorrSignature env h contentHash privateKey).

Definition receiptOf (data : SubmitData.t) : Receipt.t :=
  {| Receipt.previousBoardHash := SubmitData.previousBoardHash data;
     Receipt.boardHash := SubmitData.boardHash data;
     Receipt.registeredAt := SubmitData.registeredAt data;
     Receipt.serverSignature := SubmitData.serverSignature data;
     Receipt.voteSubmissionId := SubmitData.voteSubmissionId data |}.

Definition submit (contentHash voterSignature : string)
    (cryptogramsWithProofs : obj CryptogramWithProof.t) : Comp St Receipt.t :=
  data <- perform (SubmitVotes contentHash voterSignature cryptogramsWithProofs)
            (fun h => bb_submitVotes env h contentHash voterSignature
                        cryptogramsWithProofs) ;;
  match SubmitData.error data with
  | Some description => throw (Rejection description)
  | None => ret (receiptOf data)
  end.

(** The board hash recomputed from the receipt. *)
Definition computedBoardHash (contentHash : string) (receipt : Receipt.t) : string :=
  let boardHashString := stringify (boardHashObject contentHash receipt) in
  hashString env boardHashString.

(** The hash the server is expected to have signed. *)
Definition receiptHash (receipt : Receipt.t) (voterSignature : string) : string :=
  let receiptHashString := stringify (receiptHashObject receipt voterSignature) in
  hashString env receiptHashString.

Definition verifyReceipt (contentHash voterSignature : string)
    (receipt : Receipt.t) (signatureKey : string) : Comp St unit :=
  (* verify board hash computation *)
  if negb (String.eqb (computedBoardHash contentHash receipt) (Receipt.boardHash receipt))
  then throw (Rejection "Invalid vote receipt: corrupt board hash")
  else
    (* verify server signature *)
    if negb (verifySchnorrSignature env (Receipt.serverSignature receipt)
               (receiptHash receipt voterSignature) signatureKey)
    then throw (Rejection "Invalid vote receipt: corrupt server signature")
    else ret tt.

Definition signAndSubmitVotes (a : SignAndSubmitArguments) : Comp St Receipt.t :=
  acknowledgeResponse <- acknowledge ;;
  let votes := votesOf (voteEncryptions a) in
  let cryptogramsWithProofs := cryptogramsWithProofsOf (voteEncryptions a) in
  let content :=
    contentOf acknowledgeResponse (electionId a) (voterIdentifier a) votes in
  let contentString := stringify content in
  let contentHash := hashString env contentString in
  voterSignature <- sign contentHash (privateKey a) ;;
  receipt <- submit contentHash voterSignature cryptogramsWithProofs ;;
  (verifyReceipt contentHash voterSignature receipt (signatureKey a) ;;;
   ret receipt).

End WithEnv.

End SubmitVotes.

(* ================================================================== *)
(** * Validation of a cast-vote-record *)
(* ================================================================== *)

Module CvrValidation.
Import Js.

(** The three answers [":okay"], [":invalid_contest"] and
    [":invalid_option"]. *)
Inductive verdict : Type := Okay | InvalidContest | InvalidOption.

Definition findContest (contests : list Ballot.t) (contestId : string) : option Ballot.t :=
  find (fun b => String.eqb (number_toString (Ballot.id b)) contestId) contests.

Definition isConfiguredContest (contests : list Ballot.t) (contestId : string) : bool :=
  match findContest contests contestId with
  | Some _ => true
  | None => false
  end.

Definition isConfiguredOption (contests : list Ballot.t) (entry : string * string) : bool :=
  match findContest contests (fst entry) with
  | Some contest =>
      existsb (fun o => String.eqb (BallotOption.reference o) (snd entry))
              (Ballot.options contest)
  | None => false
  end.

(** Modelled from the spec: [validateCvr] of [cvr_validation] is not part
    of the sources. Every key of the record must be the id of a configured
    contest, else the contest is invalid; then every value must be an
    option of its contest, else the option is invalid. *)
Definition validateCvr (cvr : CastVoteRecord) (contests : list Ballot.t) : verdict :=
  if negb (forallb (isConfiguredContest contests) (keys cvr)) then InvalidContest
  else if negb (forallb (isConfiguredOption contests) cvr) then InvalidOption
  else Okay.

End CvrValidation.

(* ================================================================== *)
(** * The voter session ([av_client.ts]) *)
(* ================================================================== *)

Module AVClient.
Import Js Effects CvrValidation.
Local Open Scope string_scope.
Local Open Scope comp_scope.

(** The private fields of the client object; a field a method has not
    assigned yet is [undefined]. *)
Record Session : Type := {
  authorizationSessionId : option string;
  email : option string;
  identityConfirmationToken : option string;
  electionConfig : option ElectionConfig.t;
  emptyCryptograms : option (obj EmptyCryptogram.t);
  keyPair : option KeyPair.t;
  testCode : option string;
  voteEncryptions : option (obj Envelope.t);
  voterIdentifier : option string;
  contestIds : option (list Z)
}.

(** The state the constructor leaves. *)
Definition fresh : Session :=
  {| authorizationSessionId := None; email := None;
     identityConfirmationToken := None; electionConfig := None;
     emptyCryptograms := None; keyPair := None; testCode := None;
     voteEncryptions := None; voterIdentifier := None; contestIds := None |}.

Definition set_authorizationSessionId (v : option string) (s : Session) : Session :=
  {| authorizationSessionId := v; email := email s;
     identityConfirmationToken := identityConfirmationToken s;
     electionConfig := electionConfig s; emptyCryptograms := emptyCryptograms s;
     keyPair := keyPair s; testCode := testCode s;
     voteEncryptions := voteEncryptions s; voterIdentifier := voterIdentifier s;
     contestIds := contestIds s |}.

Definition set_email (v : option string) (s : Session) : Session :=
  {| authorizationSessionId := authorizationSessionId s; email := v;
     identityConfirmationToken := identityConfirmationToken s;
     electionConfig := electionConfig s; emptyCryptograms := emptyCryptograms s;
     keyPair := keyPair s; testCode := testCode s;
     voteEncryptions := voteEncryptions s; voterIdentifier := voterIdentifier s;
     contestIds := contestIds s |}.

Definition set_identityConfirmationToken (v : option string) (s : Session) : Session :=
  {| authorizationSessionId := authorizationSessionId s; email := email s;
     identityConfirmationToken := v;
     electionConfig := electionConfig s; emptyCryptograms := emptyCryptograms s;
     keyPair := keyPair s; testCode := testCode s;
     voteEncryptions := voteEncryptions s; voterIdentifier := voterIdentifier s;
     contestIds := contestIds s |}.

Definition set_electionConfig (v : option ElectionConfig.t) (s : Session) : Session :=
  {| authorizationSessionId := authorizationSessionId s; email := email s;
     identityConfirmationToken := identityConfirmationToken s;
     electionConfig := v; emptyCryptograms := emptyCryptograms s;
     keyPair := keyPair s; testCode := testCode s;
     voteEncryptions := voteEncryptions s; voterIdentifier := voterIdentifier s;
     contestIds := contestIds s |}.

Definition set_emptyCryptograms (v : option (obj EmptyCryptogram.t)) (s : Session)
  : Session :=
  {| authorizationSessionId := authorizationSessionId s; email := email s;
     identityConfirmationToken := identityConfirmationToken s;
     electionConfig := electionConfig s; emptyCryptograms := v;
     keyPair := keyPair s; testCode := testCode s;
     voteEncryptions := voteEncryptions s; voterIdentifier := voterIdentifier s;
     contestIds := contestIds s |}.

Definition set_keyPair (v : option KeyPair.t) (s : Session) : Session :=
  {| authorizationSessionId := authorizationSessionId s; email := email s;
     identityConfirmationToken := identityConfirmationToken s;
     electionConfig := electionConfig s; emptyCryptograms := emptyCryptograms s;
     keyPair := v; testCode := testCode s;
     voteEncryptions := voteEncryptions s; voterIdentifier := voterIdentifier s;
     contestIds := contestIds s |}.

Definition set_testCode (v : option string) (s : Session) : Session :=
  {| authorizationSessionId := authorizationSessionId s; email := email s;
     identityConfirmationToken := identityConfirmationToken s;
     electionConfig := electionConfig s; emptyCryptograms := emptyCryptograms s;
     keyPair := keyPair s; testCode := v;
     voteEncryptions := voteEncryptions s; voterIdentifier := voterIdentifier s;
     contestIds := contestIds s |}.

Definition set_voteEncryptions (v : option (obj Envelope.t)) (s : Session) : Session :=
  {| authorizationSessionId := authorizationSessionId s; email := email s;
     identityConfirmationToken := identityConfirmationToken s;
     electionConfig := electionConfig s; emptyCryptograms := emptyCryptograms s;
     keyPair := keyPair s; testCode := testCode s;
     voteEncryptions := v; voterIdentifier := voterIdentifier s;
     contestIds := contestIds s |}.

Definition set_voterIdentifier (v : option string) (s : Session) : Session :=
  {| authorizationSessionId := authorizationSessionId s; email := email s;
     identityConfirmationToken := identityConfirmationToken s;
     electionConfig := electionConfig s; emptyCryptograms := emptyCryptograms s;
     keyPair := keyPair s; testCode := testCode s;
     voteEncryptions := voteEncryptions s; voterIdentifier := v;
     contestIds := contestIds s |}.

Definition set_contestIds (v : option (list Z)) (s : Session) : Session :=
  {| authorizationSessionId := authorizationSessionId s; email := email s;
     identityConfirmationToken := identityConfirmationToken s;
     electionConfig := electionConfig s; emptyCryptograms := emptyCryptograms s;
     keyPair := keyPair s; testCode := testCode s;
     voteEncryptions := voteEncryptions s; voterIdentifier := voterIdentifier s;
     contestIds := v |}.

Definition M (A : Type) : Type := Comp Session A.

Definition noConfigMessage : string :=
  "No configuration loaded. Did you call initialize()?".

Definition getElectionConfig : M ElectionConfig.t :=
  s <- read ;;
  match electionConfig s with
  | None => throw (InvalidStateError noConfigMessage)
  | Some config => ret config
  end.

Definition electionId : M Z :=
  config <- getElectionConfig ;;
  ret (Election.id (ElectionConfig.election config)).

Definition electionEncryptionKey : M string :=
  config <- getElectionConfig ;;
  ret (ElectionConfig.encryptionKey config).

Definition electionSigningPublicKey : M string :=
  config <- getElectionConfig ;;
  ret (ElectionConfig.signingPublicKey config).

Definition affidavitConfig : M (option AffidavitConfig.t) :=
  config <- getElectionConfig ;;
  ret (ElectionConfig.affidavit config).

Definition privateKey : M string :=
  s <- read ;;
  kp <- prop (keyPair s) ;;
  ret (KeyPair.privateKey kp).

(** [getElectionConfig().services.<which>.url] *)
Definition serviceUrl (which : Services.t -> option Service.t) : M (option string) :=
  config <- getElectionConfig ;;
  services <- prop (ElectionConfig.services config) ;;
  service <- prop (which services) ;;
  ret (Service.url service).

(** Each own key of [envelopes] with the cryptogram stored under it
    ([envelopes[contestId]] is the value of the entry of [contestId]). *)
Definition extractCryptograms (envelopes : obj Envelope.t) : obj string :=
  fromEntries
    (map (fun contestId_envelope =>
            (fst contestId_envelope, Envelope.cryptogram (snd contestId_envelope)))
         envelopes).

Section Operations.
Variable env : Env.

Definition initialize (electionConfig : option ElectionConfig.t) : M unit :=
  config <- match electionConfig with
            | None => ElectionConfigOps.fetchElectionConfig env
            | Some c => ret c
            end ;;
  (ElectionConfigOps.validateElectionConfig config ;;;
   update (set_electionConfig (Some config))).

Definition authenticateWithCodes (codes : list string) : M unit :=
  eid <- electionId ;;
  key <- electionEncryptionKey ;;
  authenticationResponse <-
    perform (Authenticate codes eid key)
            (fun h => bb_authenticate env h codes eid key) ;;
  (update (set_voterIdentifier
             (Some (AuthenticationResponse.voterIdentifier authenticationResponse))) ;;;
   update (set_keyPair (Some (AuthenticationResponse.keyPair authenticationResponse))) ;;;
   update (set_emptyCryptograms
             (Some (AuthenticationResponse.emptyCryptograms authenticationResponse)))).

Definition requestAccessCode (opaqueVoterId email : string) : M unit :=
  coordinatorURL <- serviceUrl Services.voter_authorizer ;;
  sessionId <-
    perform (CreateSession coordinatorURL opaqueVoterId email)
            (fun h => vac_createSession env h coordinatorURL opaqueVoterId email) ;;
  (update (set_authorizationSessionId sessionId) ;;;
   update (set_email (Some email))).

Definition validateAccessCode (code : string) : M unit :=
  s <- read ;;
  if negb (truthy_string (email s))
  then throw (InvalidStateError
                "Cannot validate access code. Access code was not requested.")
  else
    providerURL <- serviceUrl Services.otp_provider ;;
    let email := match email s with Some e => e | None => "" end in
    token <-
      perform (RequestOTPAuthorization providerURL code email)
              (fun h => otp_requestOTPAuthorization env h providerURL code email) ;;
    update (set_identityConfirmationToken (Some token)).

Definition registerVoter : M unit :=
  s <- read ;;
  if negb (truthy_string (identityConfirmationToken s))
  then throw (InvalidStateError
    "Cannot register voter without identity confirmation. User has not validated access code.")
  else
    kp <- perform RandomKeyPair (fun h => Ok (randomKeyPair env h)) ;;
    (update (set_keyPair (Some kp)) ;;;
     coordinatorURL <- serviceUrl Services.voter_authorizer ;;
     let sessionId := authorizationSessionId s in
     let token := match identityConfirmationToken s with Some t => t | None => "" end in
     authorizationResponse <-
       perform (RequestPublicKeyAuthorization coordinatorURL sessionId token
                  (KeyPair.publicKey kp))
               (fun h => vac_requestPublicKeyAuthorization env h coordinatorURL
                           sessionId token (KeyPair.publicKey kp)) ;;
     let registrationToken := AuthorizationData.registrationToken authorizationResponse in
     let publicKeyToken := AuthorizationData.publicKeyToken authorizationResponse in
     config <- getElectionConfig ;;
     let encryptionKey := ElectionConfig.encryptionKey config in
     registerVoterResponse <-
       perform (RegisterVoter kp encryptionKey registrationToken publicKeyToken)
               (fun h => bb_registerVoter env h kp encryptionKey
                           registrationToken publicKeyToken) ;;
     (update (set_voterIdentifier
                (Some (RegisterVoterResponse.voterIdentifier registerVoterResponse))) ;;;
      update (set_emptyCryptograms
                (Some (RegisterVoterResponse.emptyCryptograms registerVoterResponse))) ;;;
      update (set_contestIds
                (Some (RegisterVoterResponse.contestIds registerVoterResponse))))).

(** [this.emptyCryptograms[contestId].empty_cryptogram] *)
Definition emptyCryptogramOf (s : Session) (contestId : string) : M (string * string) :=
  all <- prop (emptyCryptograms s) ;;
  entry <- prop (get all contestId) ;;
  ret (contestId, EmptyCryptogram.empty_cryptogram entry).

(** [contests.find(b => b.id.toString() == contestId)!.vote_encoding_type] *)
Definition encodingTypeOf (contests : list Ballot.t) (contestId : string) : M (string * Z) :=
  contest <- prop (findContest contests contestId) ;;
  ret (contestId, Ballot.vote_encoding_type contest).

Definition constructBallotCryptograms (cvr : CastVoteRecord) : M string :=
  s <- read ;;
  if negb (truthy_string (voterIdentifier s)
           || truthy_object (emptyCryptograms s)
           || truthy_object (contestIds s))
  then throw (InvalidStateError
    "Cannot construct ballot cryptograms. Voter registration not completed successfully")
  else
    config <- getElectionConfig ;;
    let contests := ElectionConfig.ballots config in
    match validateCvr cvr contests with
    | InvalidContest => throw (CorruptCvrError "Corrupt CVR: Contains invalid contest")
    | InvalidOption => throw (CorruptCvrError "Corrupt CVR: Contains invalid option")
    | Okay =>
        emptyCryptograms <- mapM (emptyCryptogramOf s) (keys cvr) ;;
        let emptyCryptograms := fromEntries emptyCryptograms in
        contestEncodingTypes <- mapM (encodingTypeOf contests) (keys cvr) ;;
        let contestEncodingTypes := fromEntries contestEncodingTypes in
        key <- electionEncryptionKey ;;
        envelopes <-
          perform (Encrypt cvr emptyCryptograms contestEncodingTypes key)
                  (fun h => encrypt env h cvr emptyCryptograms contestEncodingTypes key) ;;
        let trackingCode := fingerprint env (extractCryptograms envelopes) in
        (update (set_voteEncryptions (Some envelopes)) ;;;
         ret trackingCode)
    end.

Definition generateTestCode : M unit :=
  code <- perform GenerateTestCode (fun h => Ok (generateTestCode env h)) ;;
  update (set_testCode (Some code)).

Definition spoilBallotCryptograms : M unit :=
  throw (PlainError "Not implemented yet").

(** [votesSubmitter] is a [SubmitVotes] over the bulletin board. The
    class has the methods [signAndSubmitVotes], [submit], [acknowledge],
    [sign] and [verifyReceipt]; the call
    [votesSubmitter.encryptAffidavit(affidavit, affidavitConfig)] that
    follows the reads is a call of [undefined]: it throws, and the call of
    [signAndSubmitVotes] after it is not reached. *)
Definition submitBallotCryptograms (affidavit : string) : M Receipt.t :=
  s <- read ;;
  if negb (truthy_string (voterIdentifier s) || truthy_object (voteEncryptions s))
  then throw (InvalidStateError
    "Cannot submit cryptograms. Voter identity unknown or no open envelopes")
  else
    electionId <- electionId ;;
    voterPrivateKey <- privateKey ;;
    electionSigningPublicKey <- electionSigningPublicKey ;;
    affidavitConfig <- affidavitConfig ;;
    let votesSubmitter := env in
    throw TypeError.

Definition purgeData : M unit := ret tt.

(** The public operations, as data, so that a sequence of calls can be
    run. *)
Inductive operation : Type :=
| OpInitialize (electionConfig : option ElectionConfig.t)
| OpAuthenticateWithCodes (codes : list string)
| OpRequestAccessCode (opaqueVoterId email : string)
| OpValidateAccessCode (code : string)
| OpRegisterVoter
| OpConstructBallotCryptograms (cvr : CastVoteRecord)
| OpGenerateTestCode
| OpSpoilBallotCryptograms
| OpSubmitBallotCryptograms (affidavit : string)
| OpPurgeData.

(** What a call resolves to. *)
Inductive answer : Type :=
| Undefined
| TrackingCode (code : string)
| VoteReceipt (receipt : Receipt.t).

Definition call (op : operation) : M answer :=
  match op with
  | OpInitialize c => initialize c ;;; ret Undefined
  | OpAuthenticateWithCodes codes => authenticateWithCodes codes ;;; ret Undefined
  | OpRequestAccessCode v e => requestAccessCode v e ;;; ret Undefined
  | OpValidateAccessCode c => validateAccessCode c ;;; ret Undefined
  | OpRegisterVoter => registerVoter ;;; ret Undefined
  | OpConstructBallotCryptograms cvr =>
      code <- constructBallotCryptograms cvr ;; ret (TrackingCode code)
  | OpGenerateTestCode => generateTestCode ;;; ret Undefined
  | OpSpoilBallotCryptograms => spoilBallotCryptograms ;;; ret Undefined
  | OpSubmitBallotCryptograms a =>
      receipt <- submitBallotCryptograms a ;; ret (VoteReceipt receipt)
  | OpPurgeData => purgeData ;;; ret Undefined
  end.

(** A caller that makes the calls one after the other and goes on
    after a failed one; the answers are collected in order. *)
Fixpoint calls (ops : list operation) (s : Session) (tr : history)
  : list (result answer) * Session * history :=
  match ops with
  | [] => ([], s, tr)
  | op :: ops' =>
      match call op s tr with
      | (r, s', tr') =>
          match calls ops' s' tr' with
          | (rs, s'', tr'') => (r :: rs, s'', tr'')
          end
      end
  end.

End Operations.

End AVClient.

(* ================================================================== *)
(** * A small election to run the client on *)
(* ================================================================== *)

Module Demo.
Import Js Json Effects.
Local Open Scope string_scope.

Definition service (name : string) : Service.t :=
  {| Service.url := Some ("http://localhost/" ++ name);
     Service.election_context_uuid := Some "uuid";
     Service.public_key := Some "key" |}.

Definition ballot (id : Z) (options : list string) : Ballot.t :=
  {| Ballot.id := id; Ballot.vote_encoding_type := 0;
     Ballot.options := map (fun r => {| BallotOption.reference := r |}) options |}.

Definition config : ElectionConfig.t :=
  {| ElectionConfig.app_url := "http://localhost:3000/test/app";
     ElectionConfig.encryptionKey := "election-key";
     ElectionConfig.signingPublicKey := "board-key";
     ElectionConfig.election := {| Election.id := 1 |};
     ElectionConfig.ballots :=
       [ballot 1 ["option1"; "option2"]; ballot 2 ["optiona"; "optionb"]];
     ElectionConfig.availableLocales := ["en"];
     ElectionConfig.currentLocale := "en";
     ElectionConfig.affidavit := None;
     ElectionConfig.services :=
       Some {| Services.voter_authorizer := Some (service "voter_authorizer");
               Services.otp_provider := Some (service "otp_provider") |} |}.

Definition hash (s : string) : string := "H(" ++ s ++ ")".

(** A toy signature scheme in which the public key equals the private
    key. *)
Definition signature (hash key : string) : string := "S[" ++ key ++ "](" ++ hash ++ ")".

Definition boardTime : string := "2020-03-01T10:00:00.000+01:00".

Definition networkDown {A : Type} : result A :=
  Fail (CollaboratorError "NetworkError" "Network request failed").

(** An honest bulletin board that chains the submission onto ["b0"] and
    signs the receipt. *)
Definition submitVotesAnswer (contentHash voterSignature : string) : SubmitData.t :=
  let boardHash :=
    hash (stringify (JObject [ ("content_hash", JString contentHash);
                               ("previous_board_hash", JString "b0");
                               ("registered_at", JString boardTime) ])) in
  let receiptHash :=
    hash (stringify (JObject [ ("board_hash", JString boardHash);
                               ("signature", JString voterSignature) ])) in
  {| SubmitData.error := None;
     SubmitData.previousBoardHash := "b0";
     SubmitData.boardHash := boardHash;
     SubmitData.registeredAt := boardTime;
     SubmitData.serverSignature := signature receiptHash "board-key";
     SubmitData.voteSubmissionId := 6 |}.

(** The collaborators; with [online = false] every request over the
    network fails. *)
Definition env (online : bool) : Env :=
  let net {A : Type} (a : A) : result A := if online then Ok a else networkDown in
  {| bb_getElectionConfig := fun _ => net config;
     bb_getBoardHash := fun _ =>
       net {| BoardHashData.currentBoardHash := Some "b0";
              BoardHashData.currentTime := Some boardTime |};
     bb_submitVotes := fun _ contentHash voterSignature _ =>
       net (submitVotesAnswer contentHash voterSignature);
     bb_registerVoter := fun _ _ _ _ _ =>
       net {| RegisterVoterResponse.voterIdentifier := "voter-1";
              RegisterVoterResponse.emptyCryptograms :=
                [ ("1", {| EmptyCryptogram.empty_cryptogram := "e1" |});
                  ("2", {| EmptyCryptogram.empty_cryptogram := "e2" |}) ];
              RegisterVoterResponse.contestIds := [1; 2]%Z |};
     bb_authenticate := fun _ _ _ _ =>
       net {| AuthenticationResponse.voterIdentifier := "voter-1";
              AuthenticationResponse.keyPair :=
                {| KeyPair.privateKey := "k0"; KeyPair.publicKey := "k0" |};
              AuthenticationResponse.emptyCryptograms :=
                [ ("1", {| EmptyCryptogram.empty_cryptogram := "e1" |});
                  ("2", {| EmptyCryptogram.empty_cryptogram := "e2" |}) ] |};
     vac_createSession := fun _ _ _ _ => net (Some "session-1");
     vac_requestPublicKeyAuthorization := fun _ _ _ _ _ =>
       net {| AuthorizationData.registrationToken := "registration-token";
              AuthorizationData.publicKeyToken := "public-key-token" |};
     otp_requestOTPAuthorization := fun _ _ _ _ => net "confirmation-token";
     hashString := hash;
     generateSchnorrSignature := fun _ h key => Ok (signature h key);
     verifySchnorrSignature := fun sig h key => String.eqb sig (signature h key);
     randomKeyPair := fun _ =>
       {| KeyPair.privateKey := "k1"; KeyPair.publicKey := "k1" |};
     encrypt := fun _ cvr _ _ _ =>
       Ok (map (fun kv =>
                  (fst kv,
                   {| Envelope.cryptogram := "c(" ++ snd kv ++ ")";
                      Envelope.randomness := "r(" ++ fst kv ++ ")";
                      Envelope.proof := "p(" ++ fst kv ++ ")" |})) cvr);
     fingerprint := fun cryptograms => hash (join "," (map snd cryptograms));
     generateTestCode := fun _ => "test-code" |}.

Definition cvr : CastVoteRecord := [("1", "option1"); ("2", "optiona")].

(** The cryptograms of [cvr] under other randomizers and proofs. *)
Definition reencrypted : obj Envelope.t :=
  [ ("1", {| Envelope.cryptogram := "c(option1)"; Envelope.randomness := "other-r1";
             Envelope.proof := "other-p1" |});
    ("2", {| Envelope.cryptogram := "c(optiona)"; Envelope.randomness := "other-r2";
             Envelope.proof := "other-p2" |}) ].

(** The session after [initialize], [requestAccessCode],
    [validateAccessCode] and [registerVoter] all succeeded. *)
Definition registered : AVClient.Session :=
  snd (fst (AVClient.calls (env true)
    [ AVClient.OpInitialize None;
      AVClient.OpRequestAccessCode "voter123" "voter@foo.bar";
      AVClient.OpValidateAccessCode "1234";
      AVClient.OpRegisterVoter ] AVClient.fresh [])).

(** The session after the access code was validated. *)
Definition validated : AVClient.Session :=
  snd (fst (AVClient.calls (env true)
    [ AVClient.OpInitialize None;
      AVClient.OpRequestAccessCode "voter123" "voter@foo.bar";
      AVClient.OpValidateAccessCode "1234" ] AVClient.fresh [])).


Definition envelopes : obj Envelope.t :=
  [ ("1", {| Envelope.cryptogram := "c1"; Envelope.randomness := "r1";
             Envelope.proof := "p1" |});
    ("2", {| Envelope.cryptogram := "c2"; Envelope.randomness := "r2";
             Envelope.proof := "p2" |}) ].

Definition submission : SubmitVotes.SignAndSubmitArguments :=
  {| SubmitVotes.voterIdentifier := Some "voter-1";
     SubmitVotes.electionId := 1;
     SubmitVotes.voteEncryptions := Some envelopes;
     SubmitVotes.privateKey := "k1";
     SubmitVotes.signatureKey := "board-key";
     SubmitVotes.affidavit := "enc(affidavit)" |}.

End Demo.

(* ================================================================== *)
(** * The curve and its encodings *)
(* ================================================================== *)

Module Curve.

(** Modelled from the spec: the elliptic-curve and big-number primitives
    ([aion_crypto], [sjcl]) are external to the sources. The class lists
    the operations the decryption path uses and the laws the protocol
    relies on: the points form a commutative group on which scalars act
    modulo the group order; points and scalars have a hex wire form that
    reads back; a block of [blockSize] bytes is embedded into a point and
    read back from it. *)
Class t : Type := {
  point : Type;
  padd : point -> point -> point;
  pneg : point -> point;
  pzero : point;
  pmul : Z -> point -> point;
  generator : point;
  order : Z;
  pointToHex : point -> string;
  pointFromHex : string -> option point;
  bignumToHex : Z -> string;
  bignumFromHex : string -> option Z;
  blockSize : nat;
  bytesToPoint : list Z -> point;
  pointToBytes : point -> list Z;
  padd_assoc : forall a b c, padd a (padd b c) = padd (padd a b) c;
  padd_comm : forall a b, padd a b = padd b a;
  padd_zero : forall a, padd a pzero = a;
  padd_neg : forall a, padd a (pneg a) = pzero;
  pmul_add : forall a b P, pmul ((a + b) mod order) P = padd (pmul a P) (pmul b P);
  pointHex_valid : forall P, Util.isValidHexString (Util.units (pointToHex P)) = true;
  pointHex_roundtrip : forall P, pointFromHex (pointToHex P) = Some P;
  bignumHex_roundtrip :
    forall z, (0 <= z < order)%Z -> bignumFromHex (bignumToHex z) = Some z;
  block_roundtrip :
    forall bs, List.length bs = blockSize ->
               Forall (fun b => 0 <= b < 256)%Z bs ->
               pointToBytes (bytesToPoint bs) = bs
}.

End Curve.

(* ================================================================== *)
(** * ElGamal cryptograms on points *)
(* ================================================================== *)

Module ElGamalPointCryptogram.
Import Js Curve.
Local Open Scope string_scope.

Section WithCurve.
Context {curve : Curve.t}.

(** Modelled from the spec: the class [ElGamalPointCryptogram] of
    [aion_crypto] is not part of the sources. A cryptogram is a pair of
    points [(g^r, m + pk^r)]; its wire form is the two hex encodings
    joined by a comma; two cryptograms are added component by
    component. *)
Record cryptogram : Type := {
  randomness_point : point;
  ciphertext_point : point
}.

Definition toString (c : cryptogram) : string :=
  pointToHex (randomness_point c) ++ "," ++ pointToHex (ciphertext_point c).

(** The text before and after the first comma. *)
Fixpoint splitAtComma (s : string) : option (string * string) :=
  match s with
  | EmptyString => None
  | String c s' =>
      if Ascii.eqb c ","%char then Some (EmptyString, s')
      else match splitAtComma s' with
           | Some (a, b) => Some (String c a, b)
           | None => None
           end
  end.

Definition fromString (s : string) : result cryptogram :=
  match splitAtComma s with
  | Some (a, b) =>
      match pointFromHex a, pointFromHex b with
      | Some r, Some c => Ok {| randomness_point := r; ciphertext_point := c |}
      | _, _ => Fail (PlainError "Invalid point encoding")
      end
  | None => Fail (PlainError "Invalid cryptogram encoding")
  end.

Definition homomorphicallyAddCryptogram (c other : cryptogram) : cryptogram :=
  {| randomness_point := padd (randomness_point c) (randomness_point other);
     ciphertext_point := padd (ciphertext_point c) (ciphertext_point other) |}.

(** Modelled from the spec: ElGamal encryption of the point [m] under the
    key [pk] with the randomizer [r]. *)
Definition encryptPoint (pk m : point) (r : Z) : cryptogram :=
  {| randomness_point := pmul r generator;
     ciphertext_point := padd m (pmul r pk) |}.

(** Modelled from the spec: the empty cryptogram, an encryption of the
    group identity. *)
Definition emptyCryptogram (pk : point) (r : Z) : cryptogram :=
  encryptPoint pk pzero r.

(** Modelled from the spec: opening a cryptogram with the randomizer it
    was made with, [m = c - r * pk]. *)
Definition openWithRandomizer (pk : point) (c : cryptogram) (r : Z) : point :=
  padd (ciphertext_point c) (pneg (pmul r pk)).

End WithCurve.

End ElGamalPointCryptogram.

(* ================================================================== *)
(** * Text and numbers as bytes *)
(* ================================================================== *)

Module Bytes.
Local Open Scope Z_scope.

(** Modelled from the spec: the text encoder and decoder are platform
    primitives. A text is the list of its Unicode scalar values; UTF-8
    writes a scalar value on one to four bytes. *)
Definition utf8EncodeChar (c : Z) : list Z :=
  if c <? 128 then [c]
  else if c <? 2048 then [192 + c / 64; 128 + c mod 64]
  else if c <? 65536 then [224 + c / 4096; 128 + (c / 64) mod 64; 128 + c mod 64]
  else [240 + c / 262144; 128 + (c / 4096) mod 64; 128 + (c / 64) mod 64; 128 + c mod 64].

Definition utf8Encode (text : list Z) : list Z := flat_map utf8EncodeChar text.

Definition isContinuation (b : Z) : bool := (128 <=? b) && (b <? 192).

(** Modelled from the spec: the decoder reads back what [utf8Encode]
    writes and gives up on anything that is not a sequence of complete
    characters. *)
Fixpoint utf8Decode (bs : list Z) : option (list Z) :=
  match bs with
  | [] => Some []
  | b0 :: r0 =>
      if (0 <=? b0) && (b0 <? 128) then option_map (cons b0) (utf8Decode r0)
      else if (192 <=? b0) && (b0 <? 224) then
        match r0 with
        | b1 :: r1 =>
            if isContinuation b1
            then option_map (cons ((b0 - 192) * 64 + (b1 - 128))) (utf8Decode r1)
            else None
        | _ => None
        end
      else if (224 <=? b0) && (b0 <? 240) then
        match r0 with
        | b1 :: b2 :: r2 =>
            if isContinuation b1 && isContinuation b2
            then option_map
                   (cons ((b0 - 224) * 4096 + (b1 - 128) * 64 + (b2 - 128)))
                   (utf8Decode r2)
            else None
        | _ => None
        end
      else if (240 <=? b0) && (b0 <? 248) then
        match r0 with
        | b1 :: b2 :: b3 :: r3 =>
            if isContinuation b1 && isContinuation b2 && isContinuation b3
            then option_map
                   (cons ((b0 - 240) * 262144 + (b1 - 128) * 4096
                          + (b2 - 128) * 64 + (b3 - 128)))
                   (utf8Decode r3)
            else None
        | _ => None
        end
      else None
  end.

(** A Unicode scalar value: a code point that is not a surrogate. *)
Definition isScalarValue (c : Z) : Prop :=
  0 <= c < 55296 \/ 57344 <= c < 1114112.

(** The [n] low bytes of [z], least significant first. *)
Fixpoint lowBytes (n : nat) (z : Z) : list Z :=
  match n with
  | O => []
  | S n' => z mod 256 :: lowBytes n' (z / 256)
  end.

(** A number on [n] bytes, most significant first. *)
Definition numberToBytes (n : nat) (z : Z) : list Z := rev (lowBytes n z).

Definition bytesToNumber (bs : list Z) : Z :=
  fold_left (fun acc b => acc * 256 + b) bs 0.

Fixpoint dropZeros (bs : list Z) : list Z :=
  match bs with
  | [] => []
  | b :: bs' => if b =? 0 then dropZeros bs' else bs
  end.

(** The bytes without the zero bytes at their end. *)
Definition stripTrailingZeros (bs : list Z) : list Z := rev (dropZeros (rev bs)).

(** [count] consecutive blocks of [size] bytes. *)
Fixpoint chunks (count size : nat) (bs : list Z) : list (list Z) :=
  match count with
  | O => []
  | S count' => firstn size bs :: chunks count' size (skipn size bs)
  end.

End Bytes.

(* ================================================================== *)
(** * Contest configuration and selections (decryption side) *)
(* ================================================================== *)

Module WriteIn.
Record t : Type := { maxSize : nat; encoding : string }.
End WriteIn.

Module ContestOption.
Record t : Type := {
  reference : string;
  code : Z;
  writeIn : option WriteIn.t
}.
End ContestOption.

Module VoteEncoding.
Record t : Type := { codeSize : nat; maxSize : nat; cryptogramCount : nat }.
End VoteEncoding.

Module MarkingType.
Record t : Type := {
  minMarks : Z;
  maxMarks : Z;
  blankSubmission : string;
  encoding : VoteEncoding.t
}.
End MarkingType.

Module ContestContent.
Record t : Type := {
  reference : string;
  markingType : MarkingType.t;
  options : list ContestOption.t
}.
End ContestContent.

(** The bulletin-board item of a contest; of its fields the decryption
    only reads [content]. *)
Module ContestConfig.
Record t : Type := { content : ContestContent.t }.

Definition encoding (c : t) : VoteEncoding.t :=
  MarkingType.encoding (ContestContent.markingType (content c)).
Definition options (c : t) : list ContestOption.t := ContestContent.options (content c).
End ContestConfig.

Module ContestEnvelope.
Record t : Type := {
  reference : string;
  cryptograms : list string;
  randomizers : list string
}.
End ContestEnvelope.

Module CommitmentOpening.
Record t : Type := {
  commitmentRandomness : string;
  randomizers : Js.obj (list string)
}.
End CommitmentOpening.

Module OptionSelection.
Record t : Type := { reference : string; text : option (list Z) }.
End OptionSelection.

Module ContestSelection.
Record t : Type := {
  reference : string;
  optionSelections : list OptionSelection.t
}.
End ContestSelection.

(* ================================================================== *)
(** * Helpers of the decryption test *)
(* ================================================================== *)

Module DecryptHelpers.
Import Js Curve ElGamalPointCryptogram.
Local Open Scope string_scope.
Local Open Scope result_scope.

Definition dummyCommitmentOpening (contestEnvelopes : list ContestEnvelope.t)
  : CommitmentOpening.t :=
  let entries :=
    map (fun ce => (ContestEnvelope.reference ce, ContestEnvelope.randomizers ce))
        contestEnvelopes in
  {| CommitmentOpening.commitmentRandomness := "";
     CommitmentOpening.randomizers := fromEntries entries |}.

Section WithCurve.
Context {curve : Curve.t}.

(** The second cryptogram is read from an array by index and may be
    [undefined]. *)
Definition homomorphicallyAddCryptograms (cryptogram1 : string)
    (cryptogram2 : option string) : result string :=
  let* point1 := fromString cryptogram1 in
  let* point2 := andThen (orThrow cryptogram2 TypeError) fromString in
  Ok (toString (homomorphicallyAddCryptogram point1 point2)).

(** The callback of [voterCryptograms[reference].map], slot by slot;
    [board] is [boardCryptograms[reference]] from the current index on. *)
Fixpoint combineSlots (voter : list string) (board : option (list string))
  : result (list string) :=
  match voter with
  | [] => Ok []
  | voterCryptogram :: voter' =>
      let* slots := orThrow board TypeError in
      let* combined := homomorphicallyAddCryptograms voterCryptogram (hd_error slots) in
      let* rest := combineSlots voter' (Some (tl slots)) in
      Ok (combined :: rest)
  end.

Definition prepareCombinedCryptograms (voterEnvelopes boardEnvelopes : list ContestEnvelope.t)
  : result (obj (list string)) :=
  let voterCryptograms :=
    fromEntries (map (fun ce => (ContestEnvelope.reference ce,
                                 ContestEnvelope.cryptograms ce)) voterEnvelopes) in
  let boardCryptograms :=
    fromEntries (map (fun ce => (ContestEnvelope.reference ce,
                                 ContestEnvelope.cryptograms ce)) boardEnvelopes) in
  let* entries :=
    traverse (fun reference =>
                let* voter := orThrow (get voterCryptograms reference) TypeError in
                let* combinedCryptograms :=
                  combineSlots voter (get boardCryptograms reference) in
                Ok (reference, combinedCryptograms))
             (keys voterCryptograms) in
  Ok (fromEntries entries).

End WithCurve.

End DecryptHelpers.

(* ================================================================== *)
(** * Encoding, encrypting and decrypting a contest selection *)
(* ================================================================== *)

Module ContestCodec.
Import Js Bytes.
Local Open Scope string_scope.
Local Open Scope result_scope.

Definition findByReference (options : list ContestOption.t) (reference : string)
  : option ContestOption.t :=
  find (fun o => String.eqb (ContestOption.reference o) reference) options.

Definition findByCode (options : list ContestOption.t) (code : Z)
  : option ContestOption.t :=
  find (fun o => Z.eqb (ContestOption.code o) code) options.

(** Modelled from the spec: text is written and read in the encoding the
    write-in rule declares; [utf8] is the one encoding in use. *)
Definition encodeText (encoding : string) (text : list Z) : result (list Z) :=
  if String.eqb encoding "utf8" then Ok (utf8Encode text)
  else Fail (PlainError "Unsupported text encoding").

Definition decodeText (encoding : string) (bytes : list Z) : result (list Z) :=
  if String.eqb encoding "utf8"
  then orThrow (utf8Decode bytes) (PlainError "Malformed write-in text")
  else Fail (PlainError "Unsupported text encoding").

(** Modelled from the spec: the write-in bytes of a selection. Text is
    only accepted for an option that declares a write-in, and must fit the
    size that rule gives. *)
Definition writeInBytes (chosen : ContestOption.t) (text : option (list Z))
  : result (list Z) :=
  match ContestOption.writeIn chosen, text with
  | None, None => Ok []
  | Some rule, Some t =>
      let* bytes := encodeText (WriteIn.encoding rule) t in
      if Nat.leb (List.length bytes) (WriteIn.maxSize rule) then Ok bytes
      else Fail (PlainError "Write-in text too long")
  | _, _ => Fail (PlainError "Write-in text does not match the option")
  end.

(** Modelled from the spec: the encoding step of [encrypt_votes], which
    is not part of the sources. The selection becomes the option code on
    [codeSize] bytes followed by the bytes of the write-in text; the
    content may take [maxSize] bytes and is padded with zero bytes to
    [cryptogramCount] blocks of [blockSize] bytes. *)
Definition encodeSelection (blockSize : nat) (config : ContestConfig.t)
    (selection : OptionSelection.t) : result (list (list Z)) :=
  let encoding := ContestConfig.encoding config in
  let* chosen :=
    orThrow (findByReference (ContestConfig.options config)
                             (OptionSelection.reference selection))
            (CorruptCvrError "Corrupt CVR: Contains invalid option") in
  let* textBytes := writeInBytes chosen (OptionSelection.text selection) in
  let content :=
    (numberToBytes (VoteEncoding.codeSize encoding) (ContestOption.code chosen)
     ++ textBytes)%list in
  let total := (VoteEncoding.cryptogramCount encoding * blockSize)%nat in
  if Nat.leb (List.length content) (VoteEncoding.maxSize encoding)
     && Nat.leb (VoteEncoding.maxSize encoding) total
  then Ok (chunks (VoteEncoding.cryptogramCount encoding) blockSize
                  (content ++ repeat 0%Z (total - List.length content))%list)
  else Fail (PlainError "Selection does not fit the contest encoding").

(** Modelled from the spec: the re-assembly step of
    [decrypt_contest_selections], which is not part of the sources. The
    first [codeSize] bytes name the option by its code; when that option
    declares a write-in, the bytes after the code, up to [maxSize] and
    without the padding, are its text. *)
Definition decodeSelection (config : ContestConfig.t) (bytes : list Z)
  : result OptionSelection.t :=
  let encoding := ContestConfig.encoding config in
  let content := firstn (VoteEncoding.maxSize encoding) bytes in
  let code := bytesToNumber (firstn (VoteEncoding.codeSize encoding) content) in
  let* chosen :=
    orThrow (findByCode (ContestConfig.options config) code)
            (PlainError "Decrypted blocks do not name a configured option") in
  match ContestOption.writeIn chosen with
  | None =>
      Ok {| OptionSelection.reference := ContestOption.reference chosen;
            OptionSelection.text := None |}
  | Some rule =>
      let trailing := skipn (VoteEncoding.codeSize encoding) content in
      let* text := decodeText (WriteIn.encoding rule) (stripTrailingZeros trailing) in
      Ok {| OptionSelection.reference := ContestOption.reference chosen;
            OptionSelection.text := Some text |}
  end.

(** Modelled from the spec: a selection that is valid for a contest names
    one of its options, whose code is unambiguous and fits [codeSize]
    bytes; it carries text exactly when that option declares a write-in,
    the text is made of scalar values other than NUL and fits the
    write-in's size in the declared encoding; and the contest's encoding
    rule has room for the content. *)
Definition validSelection (blockSize : nat) (config : ContestConfig.t)
    (selection : OptionSelection.t) : Prop :=
  let encoding := ContestConfig.encoding config in
  exists chosen,
    findByReference (ContestConfig.options config)
                    (OptionSelection.reference selection) = Some chosen /\
    findByCode (ContestConfig.options config) (ContestOption.code chosen) = Some chosen /\
    (0 <= ContestOption.code chosen < 256 ^ Z.of_nat (VoteEncoding.codeSize encoding))%Z /\
    match ContestOption.writeIn chosen, OptionSelection.text selection with
    | None, None =>
        (VoteEncoding.codeSize encoding <= VoteEncoding.maxSize encoding)%nat
    | Some rule, Some text =>
        WriteIn.encoding rule = "utf8" /\
        Forall (fun c => isScalarValue c /\ c <> 0%Z) text /\
        (List.length (utf8Encode text) <= WriteIn.maxSize rule)%nat /\
        (VoteEncoding.codeSize encoding + List.length (utf8Encode text)
         <= VoteEncoding.maxSize encoding)%nat
    | _, _ => False
    end /\
    (VoteEncoding.maxSize encoding
     <= VoteEncoding.cryptogramCount encoding * blockSize)%nat.

End ContestCodec.

Module VoteCryptography.
Import Js Bytes Curve ElGamalPointCryptogram ContestCodec.
Local Open Scope string_scope.
Local Open Scope result_scope.

Section WithCurve.
Context {curve : Curve.t}.

(** Modelled from the spec: one cryptogram per block, each made with its
    own randomizer; blocks without a randomizer are an error. *)
Fixpoint encryptBlocks (pk : point) (blocks : list (list Z)) (randomizers : list Z)
  : result (list string) :=
  match blocks with
  | [] => Ok []
  | block :: blocks' =>
      let* r := orThrow (hd_error randomizers) (PlainError "Missing randomizer") in
      let* rest := encryptBlocks pk blocks' (tl randomizers) in
      Ok (toString (encryptPoint pk (bytesToPoint block) r) :: rest)
  end.

(** Modelled from the spec: the voter's envelope of one contest (the
    encryption engine of [encrypt_votes] is not part of the sources). *)
Definition encryptContestSelection (contestConfigs : obj ContestConfig.t) (pk : point)
    (contestReference : string) (selection : OptionSelection.t) (randomizers : list Z)
  : result ContestEnvelope.t :=
  let* config :=
    orThrow (get contestConfigs contestReference)
            (CorruptCvrError "Corrupt CVR: Contains invalid contest") in
  let* blocks := encodeSelection blockSize config selection in
  let* cryptograms := encryptBlocks pk blocks randomizers in
  Ok {| ContestEnvelope.reference := contestReference;
        ContestEnvelope.cryptograms := cryptograms;
        ContestEnvelope.randomizers := map bignumToHex randomizers |}.

(** Modelled from the spec: the voter's envelopes for a whole record;
    [randomizers] holds, per contest, the randomizers drawn for its
    slots. *)
Definition encryptContestSelections (contestConfigs : obj ContestConfig.t) (pk : point)
    (cvr : obj OptionSelection.t) (randomizers : obj (list Z))
  : result (list ContestEnvelope.t) :=
  traverse
    (fun entry =>
       let* rs := orThrow (get randomizers (fst entry)) (PlainError "Missing randomizer") in
       encryptContestSelection contestConfigs pk (fst entry) (snd entry) rs)
    cvr.

(** Modelled from the spec: the board's share of one contest, an empty
    cryptogram per slot. *)
Definition emptyEnvelope (pk : point) (contestReference : string) (randomizers : list Z)
  : ContestEnvelope.t :=
  {| ContestEnvelope.reference := contestReference;
     ContestEnvelope.cryptograms :=
       map (fun r => toString (emptyCryptogram pk r)) randomizers;
     ContestEnvelope.randomizers := map bignumToHex randomizers |}.

Definition emptyEnvelopes (pk : point) (contestReferences : list string)
    (randomizers : obj (list Z)) : result (list ContestEnvelope.t) :=
  traverse
    (fun contestReference =>
       let* rs := orThrow (get randomizers contestReference)
                          (PlainError "Missing randomizer") in
       Ok (emptyEnvelope pk contestReference rs))
    contestReferences.

(** Modelled from the spec: one slot is opened with the sum of the two
    parties' randomizers and the encryption key, and read back as a block
    of bytes. *)
Definition decryptBlock (pk : point) (cryptogram : string)
    (boardRandomizer voterRandomizer : option string) : result (list Z) :=
  let* c := fromString cryptogram in
  let* board := orThrow (option_map bignumFromHex boardRandomizer) TypeError in
  let* rb := orThrow board (PlainError "Invalid randomizer") in
  let* voter := orThrow (option_map bignumFromHex voterRandomizer) TypeError in
  let* rv := orThrow voter (PlainError "Invalid randomizer") in
  let randomizer := ((rv + rb) mod order)%Z in
  Ok (pointToBytes (openWithRandomizer pk c randomizer)).

Fixpoint decryptBlocks (pk : point) (cryptograms : list string)
    (boardRandomizers voterRandomizers : list string) : result (list (list Z)) :=
  match cryptograms with
  | [] => Ok []
  | cryptogram :: cryptograms' =>
      let* block := decryptBlock pk cryptogram (hd_error boardRandomizers)
                                 (hd_error voterRandomizers) in
      let* rest := decryptBlocks pk cryptograms' (tl boardRandomizers)
                                 (tl voterRandomizers) in
      Ok (block :: rest)
  end.

(** Modelled from the spec: [decryptContestSelections] of
    [decrypt_contest_selections], which is not part of the sources (only
    its test is). Per contest of [cryptograms]: every slot is decrypted
    with the two openings' randomizers, the blocks are joined and decoded
    by the contest's encoding rule. *)
Definition decryptContestSelections (contestConfigs : obj ContestConfig.t)
    (encryptionKey : string) (cryptograms : obj (list string))
    (boardCommitmentOpening voterCommitmentOpening : CommitmentOpening.t)
  : result (list ContestSelection.t) :=
  let* pk := orThrow (pointFromHex encryptionKey) (PlainError "Invalid point encoding") in
  traverse
    (fun entry =>
       let contestReference := fst entry in
       let* config := orThrow (get contestConfigs contestReference) TypeError in
       let* boardRandomizers :=
         orThrow (get (CommitmentOpening.randomizers boardCommitmentOpening)
                      contestReference) TypeError in
       let* voterRandomizers :=
         orThrow (get (CommitmentOpening.randomizers voterCommitmentOpening)
                      contestReference) TypeError in
       let* blocks := decryptBlocks pk (snd entry) boardRandomizers voterRandomizers in
       let* selection := decodeSelection config (List.concat blocks) in
       Ok {| ContestSelection.reference := contestReference;
             ContestSelection.optionSelections := [selection] |})
    cryptograms.

(** Randomizers for every slot of a contest, each a scalar below the
    group order. *)
Definition validRandomizers (config : ContestConfig.t) (randomizers : list Z) : Prop :=
  List.length randomizers = VoteEncoding.cryptogramCount (ContestConfig.encoding config) /\
  Forall (fun r => 0 <= r < order)%Z randomizers.

(** Modelled from the spec: a cast-vote-record that is valid for the
    contest configurations, with randomizers of both parties for each of
    its contests. *)
Definition validRecord (contestConfigs : obj ContestConfig.t) (cvr : obj OptionSelection.t)
    (voterRandomizers boardRandomizers : obj (list Z)) : Prop :=
  NoDup (keys cvr) /\
  forall contestReference selection,
    In (contestReference, selection) cvr ->
    exists config voter board,
      get contestConfigs contestReference = Some config /\
      validSelection blockSize config selection /\
      get voterRandomizers contestReference = Some voter /\
      get boardRandomizers contestReference = Some board /\
      validRandomizers config voter /\
      validRandomizers config board.

End WithCurve.

End VoteCryptography.

(* ================================================================== *)
(** * A small group to run the decryption on *)
(* ================================================================== *)

Module ToyCurve.
Local Open Scope string_scope.

(** The bytes under bitwise exclusive or: a commutative group in which
    every element is its own inverse, so the scalars act modulo two. A
    block is a single byte. *)
Definition xor (a b : ascii) : ascii :=
  match a, b with
  | Ascii a0 a1 a2 a3 a4 a5 a6 a7, Ascii b0 b1 b2 b3 b4 b5 b6 b7 =>
      Ascii (xorb a0 b0) (xorb a1 b1) (xorb a2 b2) (xorb a3 b3)
            (xorb a4 b4) (xorb a5 b5) (xorb a6 b6) (xorb a7 b7)
  end.

Definition scale (k : Z) (p : ascii) : ascii := if Z.odd k then p else zero.

Definition hexValue (c : ascii) : option nat :=
  let n := nat_of_ascii c in
  if Nat.leb 48 n && Nat.leb n 57 then Some (n - 48)
  else if Nat.leb 97 n && Nat.leb n 102 then Some (n - 87)
  else if Nat.leb 65 n && Nat.leb n 70 then Some (n - 55)
  else None.

Definition toHex (p : ascii) : string :=
  let n := nat_of_ascii p in
  String (Json.hexDigit (n / 16)) (String (Json.hexDigit (n mod 16)) EmptyString).

Definition fromHex (s : string) : option ascii :=
  match s with
  | String h (String l EmptyString) =>
      match hexValue h, hexValue l with
      | Some a, Some b => Some (ascii_of_nat (a * 16 + b))
      | _, _ => None
      end
  | _ => None
  end.

Definition scalarToHex (z : Z) : string := if Z.odd z then "01" else "00".

Definition scalarFromHex (s : string) : option Z :=
  if String.eqb s "00" then Some 0%Z
  else if String.eqb s "01" then Some 1%Z
  else None.

Definition blockToPoint (bs : list Z) : ascii :=
  match bs with
  | [b] => ascii_of_N (Z.to_N b)
  | _ => zero
  end.

Definition pointToBlock (p : ascii) : list Z := [Z.of_N (N_of_ascii p)].

(** A contest with one write-in option, four slots of one byte. *)
Definition contest : ContestConfig.t :=
  {| ContestConfig.content :=
       {| ContestContent.reference := "big-contest";
          ContestContent.markingType :=
            {| MarkingType.minMarks := 1; MarkingType.maxMarks := 1;
               MarkingType.blankSubmission := "disabled";
               MarkingType.encoding :=
                 {| VoteEncoding.codeSize := 1; VoteEncoding.maxSize := 4;
                    VoteEncoding.cryptogramCount := 4 |} |};
          ContestContent.options :=
            [ {| ContestOption.reference := "option-1"; ContestOption.code := 1;
                 ContestOption.writeIn :=
                   Some {| WriteIn.maxSize := 3; WriteIn.encoding := "utf8" |} |} ] |} |}.

Definition contestConfigs : Js.obj ContestConfig.t := [("big-contest", contest)].

(** The record selects the write-in option with the text [hi]. *)
Definition cvr : Js.obj OptionSelection.t :=
  [ ("big-contest",
     {| OptionSelection.reference := "option-1";
        OptionSelection.text := Some [104; 105]%Z |}) ].

Definition voterRandomizers : Js.obj (list Z) := [("big-contest", [1; 0; 1; 1]%Z)].
Definition boardRandomizers : Js.obj (list Z) := [("big-contest", [0; 1; 1; 0]%Z)].

Definition encryptionKey : string := "6b".

Definition expectedSelections : list ContestSelection.t :=
  [ {| ContestSelection.reference := "big-contest";
       ContestSelection.optionSelections :=
         [ {| OptionSelection.reference := "option-1";
              OptionSelection.text := Some [104; 105]%Z |} ] |} ].

End ToyCurve.

(* ================================================================== *)
(** * Helpers of the tests ([test/test_helpers.ts]) *)
(* ================================================================== *)

Module TestHelpers.






Local Open Scope string_scope.

(** The character's code unit lies in [lo..hi]. The strings of this
    module hold code units below 256. *)
Definition between (lo hi : nat) (c : ascii) : bool :=
  Nat.leb lo (nat_of_ascii c) && Nat.leb (nat_of_ascii c) hi.

(** The class [[\w-]]: a letter, a digit, an underscore or a dash. *)
Definition isWordOrDash (c : ascii) : bool :=
  between 48 57 c || between 65 90 c || between 97 122 c
  || Ascii.eqb c "_" || Ascii.eqb c "-".

(** [replace(/^\//g, '')] *)
Definition removeLeadingSlash (s : string) : string :=
  match s with
  | String c s' => if Ascii.eqb c "/" then s' else s
  | EmptyString => s
  end.

(** [replace(/=/g, "-")] *)
Fixpoint replaceEquals (s : string) : string :=
  match s with
  | EmptyString => EmptyString
  | String c s' => String (if Ascii.eqb c "=" then "-"%char else c) (replaceEquals s')
  end.

(** [replace(/[^\w-]+/g, "_")]: each maximal run of characters outside
    the class becomes one underscore; [inRun] tells that the character
    before belonged to such a run. *)
Fixpoint replaceRuns (inRun : bool) (s : string) : string :=
  match s with
  | EmptyString => EmptyString
  | String c s' =>
      if isWordOrDash c then String c (replaceRuns false s')
      else if inRun then replaceRuns true s'
      else String "_" (replaceRuns true s')
  end.

(** [toLowerCase] on one code unit below 256: the letters [A-Z] and the
    capital letters of Latin-1 ([U+00C0] to [U+00DE] without the
    multiplication sign) move up by 32. *)
Definition toLowerChar (c : ascii) : ascii :=
  if between 65 90 c || (between 192 222 c && negb (Nat.eqb (nat_of_ascii c) 215))
  then ascii_of_nat (nat_of_ascii c + 32)
  else c.

Fixpoint toLowerCase (s : string) : string :=
  match s with
  | EmptyString => EmptyString
  | String c s' => String (toLowerChar c) (toLowerCase s')
  end.

Definition urlPathForFilename (url : string) : string :=
  toLowerCase (replaceRuns false (replaceEquals (removeLeadingSlash url))).

(** [dirname] is the directory of the module ([__dirname]). *)
Definition filenameFromRequest (dirname httpMethod url : string) : string :=
  let extension := "json" in
  let targetDir := dirname ++ "/replies/otp_flow/" in
  let httpMethodForFilename := toLowerCase httpMethod in
  let filename :=
    httpMethodForFilename ++ "_" ++ urlPathForFilename url ++ "." ++ extension in
  let absolutePath := targetDir ++ filename in
  absolutePath.

End TestHelpers.

(** The characters a file name part is made of: lower-case letters,
    digits, the underscore and the dash. *)
Module FileNameChars.
Import TestHelpers.

Definition safeChar (c : ascii) : bool :=
  between 97 122 c || between 48 57 c || Ascii.eqb c "_" || Ascii.eqb c "-".

Fixpoint allChars (p : ascii -> bool) (s : string) : bool :=
  match s with
  | EmptyString => true
  | String c s' => p c && allChars p s'
  end.

End FileNameChars.

(* ================================================================== *)
(** * The first client: election codes and a storage ([av_client.ts]) *)
(* ================================================================== *)

(** The storage of the tests ([StorageAdapter]): an object [db] read and
    written by key. The keys are own properties; the names that
    [Object.prototype] defines are not used as keys. *)
Module StorageAdapter.
Import Js.

Definition t (V : Type) : Type := obj V.

Definition create {V : Type} : t V := [].

Definition get {V : Type} (db : t V) (key : string) : option V := Js.get db key.

Definition set {V : Type} (db : t V) (key : string) (value : V) : t V :=
  setProp db key value.

End StorageAdapter.

Module LegacyClient.
Import Js.
Local Open Scope string_scope.

(** A value of type [any]: what the backend answers is not typed. An
    array counts as the object of its indices. *)
Inductive any : Type :=
| Undefined
| Null
| Boolean (b : bool)
| Number (z : Z)
| Text (s : string)
| Object (fields : list (string * any)).

(** [v[k]], for a key that is no property of a primitive value: reading
    a property of [undefined] or [null] throws, a property an object
    does not have is [undefined]. *)
Definition member (v : any) (k : string) : result any :=
  match v with
  | Undefined | Null => Fail TypeError
  | Object fields =>
      Ok (match Js.get fields k with
          | Some x => x
          | None => Undefined
          end)
  | Boolean _ | Number _ | Text _ => Ok Undefined
  end.

(** [Object.entries(v).length] *)
Definition entriesLength (v : any) : result nat :=
  match v with
  | Undefined | Null => Fail TypeError
  | Object fields => Ok (List.length fields)
  | Text s => Ok (String.length s)
  | Boolean _ | Number _ => Ok 0
  end.

(** The requests of the first client. *)
Inductive request : Type :=
| GetConfig
| AuthenticateCodes (codes : list string) (electionId encryptionKey : any).

(** [BackendElectionConfig.get] and [AuthenticateWithCodes.authenticate];
    an answer may depend on the requests made before. *)
Record Backend : Type := {
  backend_get : list request -> result any;
  backend_authenticate : list request -> list string -> any -> any -> result any
}.

Record Client : Type := {
  storage : StorageAdapter.t any;
  electionConfig : any
}.

Definition constructor (storage : StorageAdapter.t any) : Client :=
  {| storage := storage; electionConfig := Object [] |}.

Definition Run (A : Type) : Type := result A * Client * list request.

Section Operations.
Variable backend : Backend.

Definition updateElectionConfig (c : Client) (tr : list request) : Run unit :=
  match entriesLength (electionConfig c) with
  | Fail e => (Fail e, c, tr)
  | Ok n =>
      if Nat.eqb n 0 then
        match backend_get backend tr with
        | Ok config =>
            (Ok tt, {| storage := storage c; electionConfig := config |},
             (tr ++ [GetConfig])%list)
        | Fail e => (Fail e, c, (tr ++ [GetConfig])%list)
        end
      else (Ok tt, c, tr)
  end.

Definition electionId (c : Client) : result any :=
  andThen (member (electionConfig c) "election") (fun election => member election "id").

Definition electionEncryptionKey (c : Client) : result any :=
  member (electionConfig c) "encryptionKey".

(** [this.storage.set(key, authenticationResponse[key])] *)
Definition store (key : string) (authenticationResponse : any) (c : Client)
  : result Client :=
  andThen (member authenticationResponse key)
    (fun value =>
       Ok {| storage := StorageAdapter.set (storage c) key value;
             electionConfig := electionConfig c |}).

Definition authenticateWithCodes (codes : list string) (c : Client)
    (tr : list request) : Run string :=
  match updateElectionConfig c tr with
  | (Fail e, c1, tr1) => (Fail e, c1, tr1)
  | (Ok _, c1, tr1) =>
      match electionId c1 with
      | Fail e => (Fail e, c1, tr1)
      | Ok id =>
          match electionEncryptionKey c1 with
          | Fail e => (Fail e, c1, tr1)
          | Ok key =>
              let tr2 := (tr1 ++ [AuthenticateCodes codes id key])%list in
              match backend_authenticate backend tr1 codes id key with
              | Fail e => (Fail e, c1, tr2)
              | Ok authenticationResponse =>
                  match store "precinctId" authenticationResponse c1 with
                  | Fail e => (Fail e, c1, tr2)
                  | Ok c2 =>
                      match store "keyPair" authenticationResponse c2 with
                      | Fail e => (Fail e, c2, tr2)
                      | Ok c3 =>
                          match store "emptyCryptograms" authenticationResponse c3 with
                          | Fail e => (Fail e, c3, tr2)
                          | Ok c4 => (Ok "Success", c4, tr2)
                          end
                      end
                  end
              end
          end
      end
  end.

End Operations.

End LegacyClient.

(* ================================================================== *)
(** * Notions used to state the properties of the session *)
(* ================================================================== *)

Module Lifecycle.
Import Js Effects CvrValidation AVClient.
Local Open Scope string_scope.

(** A string-valued field that is there and not empty. *)
Definition present (o : option string) : Prop := exists x, o = Some x /\ x <> "".

(** The tests that open [constructBallotCryptograms] and
    [submitBallotCryptograms]. *)
Definition mayConstruct (s : Session) : bool :=
  truthy_string (voterIdentifier s) || truthy_object (emptyCryptograms s)
  || truthy_object (contestIds s).

Definition maySubmit (s : Session) : bool :=
  truthy_string (voterIdentifier s) || truthy_object (voteEncryptions s).

(** The assignments the operations make, each with what the operation
    has checked before it assigns. *)
Inductive transition (s : Session) : Session -> Prop :=
| Configured (config : ElectionConfig.t) :
    ElectionConfigOps.configErrors config = [] ->
    transition s (set_electionConfig (Some config) s)
| Authenticated (r : AuthenticationResponse.t) :
    electionConfig s <> None ->
    transition s
      (set_emptyCryptograms (Some (AuthenticationResponse.emptyCryptograms r))
         (set_keyPair (Some (AuthenticationResponse.keyPair r))
            (set_voterIdentifier (Some (AuthenticationResponse.voterIdentifier r)) s)))
| AccessCodeRequested (sessionId : option string) (address : string) :
    electionConfig s <> None ->
    transition s (set_email (Some address) (set_authorizationSessionId sessionId s))
| AccessCodeValidated (token : string) :
    truthy_string (email s) = true ->
    electionConfig s <> None ->
    transition s (set_identityConfirmationToken (Some token) s)
| KeyPairGenerated (kp : KeyPair.t) :
    truthy_string (identityConfirmationToken s) = true ->
    transition s (set_keyPair (Some kp) s)
| VoterRegistered (kp : KeyPair.t) (r : RegisterVoterResponse.t) :
    truthy_string (identityConfirmationToken s) = true ->
    electionConfig s <> None ->
    transition s
      (set_contestIds (Some (RegisterVoterResponse.contestIds r))
         (set_emptyCryptograms (Some (RegisterVoterResponse.emptyCryptograms r))
            (set_voterIdentifier (Some (RegisterVoterResponse.voterIdentifier r))
               (set_keyPair (Some kp) s))))
| BallotEncrypted (envelopes : obj Envelope.t) :
    mayConstruct s = true ->
    electionConfig s <> None ->
    transition s (set_voteEncryptions (Some envelopes) s)
| TestCodeGenerated (code : string) :
    transition s (set_testCode (Some code) s).

(** The order in which the fields of a session get recorded. *)
Definition ordered (s : Session) : Prop :=
  (authorizationSessionId s <> None -> electionConfig s <> None) /\
  (email s <> None -> electionConfig s <> None) /\
  (identityConfirmationToken s <> None -> email s <> None) /\
  (keyPair s <> None -> electionConfig s <> None) /\
  (voterIdentifier s <> None -> keyPair s <> None) /\
  (emptyCryptograms s <> None <-> voterIdentifier s <> None) /\
  (contestIds s <> None ->
     identityConfirmationToken s <> None /\ voterIdentifier s <> None) /\
  (voteEncryptions s <> None -> voterIdentifier s <> None).

(** The session after the calls [ops] on a new client. *)
Definition sessionAfter (env : Env) (ops : list operation) : Session :=
  snd (fst (calls env ops fresh [])).

(** [emptyCryptogramOf] and [encodingTypeOf] as functions of the
    session: they leave it as it is and call no collaborator. *)
Definition emptyCryptogramEntry (s : Session) (contestId : string)
  : result (string * string) :=
  andThen (orThrow (emptyCryptograms s) TypeError)
    (fun all =>
       andThen (orThrow (get all contestId) TypeError)
         (fun entry => Ok (contestId, EmptyCryptogram.empty_cryptogram entry))).

Definition encodingTypeEntry (contests : list Ballot.t) (contestId : string)
  : result (string * Z) :=
  andThen (orThrow (findContest contests contestId) TypeError)
    (fun contest => Ok (contestId, Ballot.vote_encoding_type contest)).

End Lifecycle.

(* ================================================================== *)
(** * Collaborators that misbehave, to run the client against *)
(* ================================================================== *)

Module Scenarios.
Import Js Effects.
Local Open Scope string_scope.

(** [env] with another answer of the board to the request for its
    hash. *)
Definition withBoardHash (answer : result BoardHashData.t) (env : Env) : Env :=
  {| bb_getElectionConfig := bb_getElectionConfig env;
     bb_getBoardHash := fun _ => answer;
     bb_submitVotes := bb_submitVotes env;
     bb_registerVoter := bb_registerVoter env;
     bb_authenticate := bb_authenticate env;
     vac_createSession := vac_createSession env;
     vac_requestPublicKeyAuthorization := vac_requestPublicKeyAuthorization env;
     otp_requestOTPAuthorization := otp_requestOTPAuthorization env;
     hashString := hashString env;
     generateSchnorrSignature := generateSchnorrSignature env;
     verifySchnorrSignature := verifySchnorrSignature env;
     randomKeyPair := randomKeyPair env;
     encrypt := encrypt env;
     fingerprint := fingerprint env;
     generateTestCode := generateTestCode env |}.

(** [env] with another answer of the board to a submission. *)
Definition withSubmitAnswer (answer : result SubmitData.t) (env : Env) : Env :=
  {| bb_getElectionConfig := bb_getElectionConfig env;
     bb_getBoardHash := bb_getBoardHash env;
     bb_submitVotes := fun _ _ _ _ => answer;
     bb_registerVoter := bb_registerVoter env;
     bb_authenticate := bb_authenticate env;
     vac_createSession := vac_createSession env;
     vac_requestPublicKeyAuthorization := vac_requestPublicKeyAuthorization env;
     otp_requestOTPAuthorization := otp_requestOTPAuthorization env;
     hashString := hashString env;
     generateSchnorrSignature := generateSchnorrSignature env;
     verifySchnorrSignature := verifySchnorrSignature env;
     randomKeyPair := randomKeyPair env;
     encrypt := encrypt env;
     fingerprint := fingerprint env;
     generateTestCode := generateTestCode env |}.

(** A board that has no hash yet. *)
Definition boardWithoutHash : result BoardHashData.t :=
  Ok {| BoardHashData.currentBoardHash := Some "";
        BoardHashData.currentTime := Some Demo.boardTime |}.

(** A board that refuses the submission. *)
Definition refusal : result SubmitData.t :=
  Ok {| SubmitData.error := Some "Ballot ids do not correspond.";
        SubmitData.previousBoardHash := "";
        SubmitData.boardHash := "";
        SubmitData.registeredAt := "";
        SubmitData.serverSignature := "";
        SubmitData.voteSubmissionId := 0 |}.

End Scenarios.

(* ================================================================== *)
(** * Facts about the matcher *)
(* ================================================================== *)

Module RegexFacts.
Import Regex.

Lemma nullable_lang (r : regex) : nullable r = true <-> lang r [].
Proof.
  induction r; simpl; split; intro H.
  - discriminate.
  - inversion H.
  - constructor.
  - reflexivity.
  - discriminate.
  - inversion H.
  - apply andb_true_iff in H as [H1 H2].
    change (@nil code_unit) with (@nil code_unit ++ []).
    constructor; [apply IHr1 | apply IHr2]; assumption.
  - inversion H; subst.
    match goal with E : _ ++ _ = [] |- _ => apply app_eq_nil in E as [-> ->] end.
    apply andb_true_iff; split; [apply IHr1 | apply IHr2]; assumption.
  - apply orb_true_iff in H as [H | H];
      [apply LAltL, IHr1 | apply LAltR, IHr2]; assumption.
  - apply orb_true_iff. inversion H; subst;
      [left; apply IHr1 | right; apply IHr2]; assumption.
  - constructor.
  - reflexivity.
Qed.

Lemma deriv_sound (r : regex) :
  forall c s, lang (deriv c r) s -> lang r (c :: s).
Proof.
  induction r; intros c s H; simpl in H.
  - inversion H.
  - inversion H.
  - destruct (in_class l c) eqn:E; inversion H; subst.
    constructor; assumption.
  - destruct (nullable r1) eqn:N1.
    + inversion H as [| | | ? ? ? HL | ? ? ? HR | | ]; subst.
      * inversion HL; subst.
        change (c :: s1 ++ s2) with ((c :: s1) ++ s2).
        constructor; [apply IHr1 | ]; assumption.
      * change (c :: s) with ([] ++ c :: s).
        constructor; [apply nullable_lang; assumption | apply IHr2; assumption].
    + inversion H; subst.
      change (c :: s1 ++ s2) with ((c :: s1) ++ s2).
      constructor; [apply IHr1 | ]; assumption.
  - inversion H; subst; [apply LAltL, IHr1 | apply LAltR, IHr2]; assumption.
  - inversion H; subst.
    constructor; [apply IHr | ]; assumption.
Qed.

Lemma deriv_complete (r : regex) :
  forall s', lang r s' -> forall c s, s' = c :: s -> lang (deriv c r) s.
Proof.
  intros s' H. induction H; intros c0 s0 E; simpl.
  - discriminate.
  - injection E as -> <-. rewrite H. constructor.
  - destruct s1 as [| a s1].
    + simpl in E. subst s2.
      assert (N1 : nullable r1 = true) by (apply nullable_lang; assumption).
      rewrite N1. apply LAltR. apply IHlang2. reflexivity.
    + simpl in E. injection E as -> <-.
      destruct (nullable r1).
      * apply LAltL. constructor; [apply IHlang1; reflexivity | assumption].
      * constructor; [apply IHlang1; reflexivity | assumption].
  - apply LAltL. apply IHlang. assumption.
  - apply LAltR. apply IHlang. assumption.
  - discriminate.
  - injection E as -> <-.
    constructor; [apply IHlang1; reflexivity | assumption].
Qed.

(** The derivative matcher decides the language. *)
Lemma matches_lang (s : list code_unit) :
  forall r, matches r s = true <-> lang r s.
Proof.
  induction s as [| c s IH]; intro r; simpl.
  - apply nullable_lang.
  - rewrite IH. split.
    + apply deriv_sound.
    + intro H. eapply deriv_complete; [exact H | reflexivity].
Qed.

Lemma lang_star_class (ranges : list (N * N)) (s : list code_unit) :
  lang (RStar (RClass ranges)) s <-> Forall (fun c => in_class ranges c = true) s.
Proof.
  split.
  - intro H. remember (RStar (RClass ranges)) as r eqn:Er.
    induction H; try discriminate.
    + constructor.
    + injection Er as ->.
      inversion H; subst. simpl.
      constructor; [assumption | apply IHlang2; reflexivity].
  - induction 1 as [| c s Hc _ IH].
    + constructor.
    + change (c :: s) with (c :: [] ++ s).
      constructor; [constructor; assumption | assumption].
Qed.

Lemma lang_plus_class (ranges : list (N * N)) (s : list code_unit) :
  lang (RPlus (RClass ranges)) s <->
  s <> [] /\ Forall (fun c => in_class ranges c = true) s.
Proof.
  unfold RPlus. split.
  - intro H. inversion H as [| | ? ? s1 s2 L1 L2 | | | | ]; subst.
    inversion L1; subst. simpl. split; [discriminate | ].
    constructor; [assumption | apply lang_star_class; assumption].
  - intros [Hne Hall]. destruct s as [| c s]; [congruence | ].
    inversion Hall; subst.
    change (c :: s) with ([c] ++ s).
    constructor; [constructor; assumption | apply lang_star_class; assumption].
Qed.

End RegexFacts.

(* ================================================================== *)
(** * The hex validator *)
(* ================================================================== *)

Module UtilSpec.
Import Regex Util RegexFacts.

Lemma isHexDigit_spec (c : code_unit) : isHexDigit c = true <-> HexDigit c.
Proof.
  unfold isHexDigit, HexDigit, in_class, hexRanges, in_range; simpl.
  rewrite !orb_true_iff, !andb_true_iff, !N.leb_le.
  intuition (try discriminate; auto).
Qed.

Lemma mod2_Even (n : nat) : Nat.eqb (n mod 2) 0 = true <-> Nat.Even n.
Proof.
  rewrite Nat.eqb_eq.
  pose proof (Nat.div_mod_eq n 2) as D.
  pose proof (Nat.mod_upper_bound n 2 ltac:(discriminate)) as U.
  split.
  - intro E. exists (n / 2). lia.
  - intros [m Hm]. lia.
Qed.

Lemma hexPattern_spec (s : list code_unit) :
  matches hexPattern s = true <-> s <> [] /\ Forall HexDigit s.
Proof.
  unfold hexPattern. rewrite matches_lang, lang_plus_class.
  split; intros [Hne Hall]; split; try assumption;
    eapply Forall_impl; try exact Hall; intros c Hc; apply isHexDigit_spec; exact Hc.
Qed.

(** C9, as stated, fails on the empty string: it has even length and
    only hex characters (it has none), yet [isValidHexString] refuses it,
    because the pattern asks for at least one character. *)
Lemma isValidHexString_empty_refused :
  ~ (isValidHexString [] = true <->
     Nat.Even (List.length (@nil code_unit)) /\ Forall HexDigit []).
Proof.
  intros [_ H].
  assert (E : isValidHexString [] = true).
  { apply H. split; [exists 0; reflexivity | constructor]. }
  discriminate E.
Qed.

(** C9, amended: [isValidHexString] accepts exactly the non-empty strings
    of even length whose code units are all in [0-9A-Fa-f]. *)
Theorem isValidHexString_spec (s : list code_unit) :
  isValidHexString s = true <->
  s <> [] /\ Nat.Even (List.length s) /\ Forall HexDigit s.
Proof.
  unfold isValidHexString.
  destruct (Nat.eqb (List.length s mod 2) 0) eqn:E; simpl.
  - rewrite hexPattern_spec. apply mod2_Even in E. tauto.
  - split; [discriminate | ].
    intros (_ & Hev & _). apply mod2_Even in Hev. congruence.
Qed.

Example isValidHexString_accepts :
  isValidHexString (units "03e9858B") = true.
Proof. reflexivity. Qed.

Example isValidHexString_refuses_odd :
  isValidHexString (units "abc") = false.
Proof. reflexivity. Qed.

Example isValidHexString_refuses_other :
  isValidHexString (units "0g") = false.
Proof. reflexivity. Qed.

End UtilSpec.

(* ================================================================== *)
(** * Laws of the effect monad *)
(* ================================================================== *)

Module EffectsFacts.
Import Js Effects.

Section Laws.
Context {St A B : Type}.

Lemma bind_ok (m : Comp St A) (f : A -> Comp St B) s tr a s' tr' :
  m s tr = (Ok a, s', tr') -> bind m f s tr = f a s' tr'.
Proof. intro H. unfold bind. rewrite H. reflexivity. Qed.

Lemma bind_fail (m : Comp St A) (f : A -> Comp St B) s tr e s' tr' :
  m s tr = (Fail e, s', tr') -> bind m f s tr = (Fail e, s', tr').
Proof. intro H. unfold bind. rewrite H. reflexivity. Qed.

(** A failing [bind] fails in its first part or, after that one
    returned, in its second. *)
Lemma bind_fail_inv (m : Comp St A) (f : A -> Comp St B) s tr e s'' tr'' :
  bind m f s tr = (Fail e, s'', tr'') ->
  m s tr = (Fail e, s'', tr'') \/
  exists a s' tr', m s tr = (Ok a, s', tr') /\ f a s' tr' = (Fail e, s'', tr'').
Proof.
  unfold bind. destruct (m s tr) as [[[a | e'] s'] tr']; intro H.
  - right. exists a, s', tr'. split; [reflexivity | exact H].
  - left. injection H as -> -> ->. reflexivity.
Qed.

Lemma bind_ok_inv (m : Comp St A) (f : A -> Comp St B) s tr b s'' tr'' :
  bind m f s tr = (Ok b, s'', tr'') ->
  exists a s' tr', m s tr = (Ok a, s', tr') /\ f a s' tr' = (Ok b, s'', tr'').
Proof.
  unfold bind. destruct (m s tr) as [[[a | e'] s'] tr']; intro H.
  - exists a, s', tr'. split; [reflexivity | exact H].
  - discriminate H.
Qed.
End Laws.

Section Preservation.
Context {St A B : Type}.

Lemma stateless_atomic (m : Comp St A) : stateless m -> atomic m.
Proof. intros H s tr e _. apply H. Qed.

Lemma unfailing_atomic (m : Comp St A) : unfailing m -> atomic m.
Proof.
  intros H s tr e Hf. destruct (H s tr) as [a Ha]. congruence.
Qed.

Lemma stateless_bind (m : Comp St A) (f : A -> Comp St B) :
  stateless m -> (forall a, stateless (f a)) -> stateless (bind m f).
Proof.
  intros Hm Hf s tr. unfold bind. specialize (Hm s tr).
  destruct (m s tr) as [[[a | e] s1] tr1]; unfold final in *; simpl in *; subst s1.
  - apply Hf.
  - reflexivity.
Qed.

Lemma atomic_bind (m : Comp St A) (f : A -> Comp St B) :
  stateless m -> (forall a, atomic (f a)) -> atomic (bind m f).
Proof.
  intros Hm Hf s tr e. unfold bind. specialize (Hm s tr).
  destruct (m s tr) as [[[a | e'] s1] tr1]; unfold final in *; simpl in *; subst s1.
  - apply Hf.
  - reflexivity.
Qed.

Lemma atomic_bind_unfailing (m : Comp St A) (f : A -> Comp St B) :
  atomic m -> (forall a, unfailing (f a)) -> atomic (bind m f).
Proof.
  intros Hm Hf s tr e. unfold bind. specialize (Hm s tr).
  destruct (m s tr) as [[[a | e'] s1] tr1]; unfold final, outcome in *; simpl in *.
  - intro H. destruct (Hf a s1 tr1) as [b Hb]. unfold outcome in Hb. congruence.
  - intros _. apply (Hm e'). reflexivity.
Qed.

Lemma unfailing_bind (m : Comp St A) (f : A -> Comp St B) :
  unfailing m -> (forall a, unfailing (f a)) -> unfailing (bind m f).
Proof.
  intros Hm Hf s tr. unfold bind. destruct (Hm s tr) as [a Ha].
  destruct (m s tr) as [[[a' | e] s1] tr1]; unfold outcome in *; simpl in *.
  - apply Hf.
  - discriminate Ha.
Qed.

Lemma stateless_ret (a : A) : stateless (@ret St A a).
Proof. intros s tr. reflexivity. Qed.

Lemma unfailing_ret (a : A) : unfailing (@ret St A a).
Proof. intros s tr. exists a. reflexivity. Qed.

Lemma stateless_throw (e : exn) : stateless (@throw St A e).
Proof. intros s tr. reflexivity. Qed.

Lemma stateless_perform (ev : event) (answer : history -> result A) :
  stateless (@perform St A ev answer).
Proof. intros s tr. reflexivity. Qed.

Lemma stateless_prop (o : option A) : stateless (@prop St A o).
Proof. destruct o; intros s tr; reflexivity. Qed.

End Preservation.

Lemma stateless_mapM {St A B : Type} (f : A -> Comp St B) (l : list A) :
  (forall a, stateless (f a)) -> stateless (mapM f l).
Proof.
  intro Hf. induction l as [| a l IH]; simpl.
  - intros s tr. reflexivity.
  - apply stateless_bind; [apply Hf | intro b].
    apply stateless_bind; [exact IH | intro bs]. intros s tr. reflexivity.
Qed.

Lemma stateless_read {St : Type} : stateless (@read St).
Proof. intros s tr. reflexivity. Qed.

Lemma unfailing_update {St : Type} (f : St -> St) : unfailing (update f).
Proof. intros s tr. exists tt. reflexivity. Qed.

(** Goals [stateless m] for a computation built from the primitives. *)
Ltac stateless_steps :=
  repeat first
    [ progress cbv beta zeta
    | apply stateless_ret | apply stateless_throw | apply stateless_perform
    | apply stateless_prop | apply stateless_read
    | apply stateless_mapM; intro
    | apply stateless_bind; [ | intro ]
    | match goal with
      | |- stateless (if ?b then _ else _) => destruct b
      | |- stateless (match ?x with _ => _ end) => destruct x
      end ].

Lemma bind_read {St B : Type} (f : St -> Comp St B) (s : St) (tr : history) :
  bind read f s tr = f s s tr.
Proof. reflexivity. Qed.

Lemma bind_update {St B : Type} (u : St -> St) (f : unit -> Comp St B)
    (s : St) (tr : history) :
  bind (update u) f s tr = f tt (u s) tr.
Proof. reflexivity. Qed.

Lemma bind_perform_ok {St A B : Type} (ev : event) (g : history -> A)
    (f : A -> Comp St B) (s : St) (tr : history) :
  bind (perform ev (fun h => Ok (g h))) f s tr = f (g tr) s (tr ++ [ev])%list.
Proof. reflexivity. Qed.

Lemma perform_eq {St A : Type} (ev : event) (answer : history -> result A)
    (s : St) (tr : history) :
  perform ev answer s tr = (answer tr, s, (tr ++ [ev])%list).
Proof. reflexivity. Qed.

Lemma surjective_run {St A : Type} (r : result A * St * history) :
  r = (outcome r, final r, trace r).
Proof. destruct r as [[o s] t]. reflexivity. Qed.

End EffectsFacts.

(* ================================================================== *)
(** * Submission: what is signed and how the receipt is checked *)
(* ================================================================== *)

Module SubmitVotesSpec.
Import Js Json Effects EffectsFacts SubmitVotes.
Local Open Scope string_scope.

Section Facts.
Variable env : Env.
Context {St : Type}.

Lemma verifyReceipt_pure (contentHash voterSignature : string)
    (receipt : Receipt.t) (signatureKey : string) (s : St) (tr : history) :
  final (verifyReceipt env contentHash voterSignature receipt signatureKey s tr) = s /\
  trace (verifyReceipt env contentHash voterSignature receipt signatureKey s tr) = tr.
Proof.
  unfold verifyReceipt.
  destruct (negb (String.eqb _ _)); [split; reflexivity | ].
  destruct (negb (verifySchnorrSignature _ _ _ _)); split; reflexivity.
Qed.

Lemma sign_trace (contentHash privateKey : string) (s : St) (tr : history) :
  final (sign env contentHash privateKey s tr) = s /\
  trace (sign env contentHash privateKey s tr) =
    (tr ++ [GenerateSchnorrSignature contentHash privateKey])%list.
Proof. split; reflexivity. Qed.

(** The run of [signAndSubmitVotes] once the three steps before the
    verification are known. *)
Lemma signAndSubmitVotes_steps (a : SignAndSubmitArguments)
    (s s1 s2 s3 : St) (tr tr1 tr2 tr3 : history)
    (ack : AcknowledgedBoard.t) (voterSignature : string) (receipt : Receipt.t) :
  let contentHash :=
    hashString env (stringify (contentOf ack (electionId a) (voterIdentifier a)
                                         (votesOf (voteEncryptions a)))) in
  acknowledge env s tr = (Ok ack, s1, tr1) ->
  sign env contentHash (privateKey a) s1 tr1 = (Ok voterSignature, s2, tr2) ->
  submit env contentHash voterSignature
         (cryptogramsWithProofsOf (voteEncryptions a)) s2 tr2 = (Ok receipt, s3, tr3) ->
  signAndSubmitVotes env a s tr =
    match verifyReceipt env contentHash voterSignature receipt (signatureKey a) s3 tr3 with
    | (Ok _, s4, tr4) => (Ok receipt, s4, tr4)
    | (Fail e, s4, tr4) => (Fail e, s4, tr4)
    end.
Proof.
  intros contentHash Hack Hsign Hsubmit.
  unfold signAndSubmitVotes, bind.
  rewrite Hack. fold contentHash. rewrite Hsign, Hsubmit.
  destruct (verifyReceipt _ _ _ _ _ _ _) as [[[u | e] s4] tr4]; reflexivity.
Qed.

(** C3. Once the board has answered the submission with a receipt:
    a recomputed board hash that differs from the reported one makes
    the call fail with the corrupt-board-hash rejection; otherwise a
    server signature that does not verify over the recomputed receipt
    hash under the election's signing key makes it fail with the
    corrupt-server-signature rejection; the receipt is returned exactly
    when both checks pass. *)
Theorem receipt_returned_only_if_verified (a : SignAndSubmitArguments)
    (s s1 s2 s3 : St) (tr tr1 tr2 tr3 : history)
    (ack : AcknowledgedBoard.t) (voterSignature : string) (receipt : Receipt.t) :
  let contentHash :=
    hashString env (stringify (contentOf ack (electionId a) (voterIdentifier a)
                                         (votesOf (voteEncryptions a)))) in
  let boardHashOk :=
    String.eqb (hashString env (stringify (JObject
        [ ("content_hash", JString contentHash);
          ("previous_board_hash", JString (Receipt.previousBoardHash receipt));
          ("registered_at", JString (Receipt.registeredAt receipt)) ])))
      (Receipt.boardHash receipt) in
  let signatureOk :=
    verifySchnorrSignature env (Receipt.serverSignature receipt)
      (hashString env (stringify (JObject
        [ ("board_hash", JString (Receipt.boardHash receipt));
          ("signature", JString voterSignature) ])))
      (signatureKey a) in
  acknowledge env s tr = (Ok ack, s1, tr1) ->
  sign env contentHash (privateKey a) s1 tr1 = (Ok voterSignature, s2, tr2) ->
  submit env contentHash voterSignature
         (cryptogramsWithProofsOf (voteEncryptions a)) s2 tr2 = (Ok receipt, s3, tr3) ->
  (boardHashOk = false ->
     signAndSubmitVotes env a s tr =
       (Fail (Rejection "Invalid vote receipt: corrupt board hash"), s3, tr3)) /\
  (boardHashOk = true -> signatureOk = false ->
     signAndSubmitVotes env a s tr =
       (Fail (Rejection "Invalid vote receipt: corrupt server signature"), s3, tr3)) /\
  (boardHashOk = true -> signatureOk = true ->
     signAndSubmitVotes env a s tr = (Ok receipt, s3, tr3)) /\
  (forall r, outcome (signAndSubmitVotes env a s tr) = Ok r ->
     r = receipt /\ boardHashOk = true /\ signatureOk = true).
Proof.
  intros contentHash boardHashOk signatureOk Hack Hsign Hsubmit.
  rewrite (signAndSubmitVotes_steps a _ _ _ _ _ _ _ _ _ _ _ Hack Hsign Hsubmit).
  fold contentHash. unfold verifyReceipt, computedBoardHash, receiptHash,
    boardHashObject, receiptHashObject.
  fold boardHashOk. fold signatureOk.
  destruct boardHashOk, signatureOk; simpl;
    (split; [ | split; [ | split ] ]);
    try discriminate; try reflexivity;
    try (intros; discriminate);
    intros r Hr; unfold outcome in Hr; simpl in Hr;
    try discriminate Hr.
  injection Hr as <-. repeat split.
Qed.

Lemma signAndSubmitVotes_stateless (a : SignAndSubmitArguments) :
  stateless (signAndSubmitVotes env a (St := St)).
Proof.
  unfold signAndSubmitVotes, acknowledge, sign, submit.
  stateless_steps.
  intros s tr. apply verifyReceipt_pure.
Qed.

(** Submitting and checking the receipt makes one request. *)
Lemma submit_then_verify_trace (contentHash voterSignature signatureKey : string)
    (cryptogramsWithProofs : obj CryptogramWithProof.t) (s : St) (tr : history) :
  trace (bind (submit env contentHash voterSignature cryptogramsWithProofs)
              (fun receipt =>
                 bind (verifyReceipt env contentHash voterSignature receipt signatureKey)
                      (fun _ => ret receipt)) s tr) =
    (tr ++ [SubmitVotes contentHash voterSignature cryptogramsWithProofs])%list.
Proof.
  unfold submit, bind at 1 2. rewrite perform_eq.
  destruct (bb_submitVotes env tr _ _ _) as [data | e]; [ | reflexivity].
  destruct (SubmitData.error data) as [description | ]; [reflexivity | ].
  unfold ret at 1, bind.
  pose proof (verifyReceipt_pure contentHash voterSignature (receiptOf data) signatureKey s
                (tr ++ [SubmitVotes contentHash voterSignature cryptogramsWithProofs])%list)
    as [_ Ht].
  destruct (verifyReceipt env _ _ _ _ _ _) as [[[u | e] s4] tr4]; exact Ht.
Qed.

(** C7. The object that is serialised, hashed and signed has exactly
    the members [acknowledged_at], [acknowledged_board_hash],
    [election_id], [voter_identifier] and [votes]; [votes] maps each
    contest id to the cryptogram of its envelope and to nothing else.
    The signature is requested over the hash of that serialisation with
    the voter's private key, and the proofs only travel in the request
    to the board, next to the content hash and the signature. *)
Theorem signed_content_is_votes_without_proofs (a : SignAndSubmitArguments)
    (s s1 : St) (tr tr1 : history) (ack : AcknowledgedBoard.t) (vid : string) :
  let content :=
    JObject
      [ ("acknowledged_at", JString (AcknowledgedBoard.currentTime ack));
        ("acknowledged_board_hash", JString (AcknowledgedBoard.currentBoardHash ack));
        ("election_id", JNumber (electionId a));
        ("voter_identifier", JString vid);
        ("votes",
         JObject (map (fun kv => (fst kv, JString (Envelope.cryptogram (snd kv))))
                      (forIn (voteEncryptions a)))) ] in
  let contentHash := hashString env (stringify content) in
  let cryptogramsWithProofs :=
    map (fun kv =>
           (fst kv,
            {| CryptogramWithProof.cryptogram := Envelope.cryptogram (snd kv);
               CryptogramWithProof.proof := Envelope.proof (snd kv) |}))
        (forIn (voteEncryptions a)) in
  acknowledge env s tr = (Ok ack, s1, tr1) ->
  voterIdentifier a = Some vid ->
  (exists rest,
     trace (signAndSubmitVotes env a s tr) =
       (tr1 ++ GenerateSchnorrSignature contentHash (privateKey a) :: rest)%list) /\
  (forall voterSignature,
     generateSchnorrSignature env tr1 contentHash (privateKey a) = Ok voterSignature ->
     trace (signAndSubmitVotes env a s tr) =
       (tr1 ++ [ GenerateSchnorrSignature contentHash (privateKey a);
                 SubmitVotes contentHash voterSignature cryptogramsWithProofs ])%list).
Proof.
  intros content contentHash cryptogramsWithProofs Hack Hvid.
  assert (Econtent :
    contentOf ack (electionId a) (voterIdentifier a) (votesOf (voteEncryptions a))
    = content).
  { unfold contentOf, content, votesOf. rewrite Hvid, map_map. reflexivity. }
  unfold signAndSubmitVotes. rewrite (bind_ok _ _ _ _ _ _ _ Hack), Econtent.
  fold contentHash.
  change (cryptogramsWithProofsOf (voteEncryptions a)) with cryptogramsWithProofs.
  clearbody contentHash cryptogramsWithProofs. clear Econtent content.
  destruct (generateSchnorrSignature env tr1 contentHash (privateKey a))
    as [sig | e] eqn:Hsig.
  - assert (Hsign : sign env contentHash (privateKey a) s1 tr1 =
                    (Ok sig, s1, (tr1 ++ [GenerateSchnorrSignature contentHash (privateKey a)])%list)).
    { unfold sign. rewrite perform_eq, Hsig. reflexivity. }
    rewrite (bind_ok _ _ _ _ _ _ _ Hsign), submit_then_verify_trace, <- app_assoc.
    split.
    + eexists. reflexivity.
    + intros v Hv. injection Hv as <-. reflexivity.
  - assert (Hsign : sign env contentHash (privateKey a) s1 tr1 =
                    (Fail e, s1, (tr1 ++ [GenerateSchnorrSignature contentHash (privateKey a)])%list)).
    { unfold sign. rewrite perform_eq, Hsig. reflexivity. }
    rewrite (bind_fail _ _ _ _ _ _ _ Hsign). split.
    + exists []. reflexivity.
    + intros v Hv. discriminate Hv.
Qed.

End Facts.

Lemma receipt_returned_only_if_verified_witness :
  exists receipt tr,
    signAndSubmitVotes (Demo.env true) Demo.submission tt [] = (Ok receipt, tt, tr) /\
    Receipt.previousBoardHash receipt = "b0".
Proof.
  pose (ack := {| AcknowledgedBoard.currentBoardHash := "b0";
                  AcknowledgedBoard.currentTime := Demo.boardTime |}).
  pose (contentHash :=
          Demo.hash (stringify (contentOf ack 1 (Some "voter-1")
                                          (votesOf (Some Demo.envelopes))))).
  pose (sig := Demo.signature contentHash "k1").
  pose (receipt := receiptOf (Demo.submitVotesAnswer contentHash sig)).
  pose (tr1 := [GetBoardHash]).
  pose (tr2 := (tr1 ++ [GenerateSchnorrSignature contentHash "k1"])%list).
  pose (tr3 := (tr2 ++ [SubmitVotes contentHash sig
                          (cryptogramsWithProofsOf (Some Demo.envelopes))])%list).
  exists receipt, tr3. split; [ | reflexivity].
  apply (receipt_returned_only_if_verified (Demo.env true) Demo.submission
           tt tt tt tt [] tr1 tr2 tr3 ack sig receipt);
    vm_compute; reflexivity.
Defined.

Lemma signed_content_is_votes_without_proofs_witness :
  exists contentHash voterSignature,
    trace (signAndSubmitVotes (Demo.env true) Demo.submission tt []) =
      [ GetBoardHash;
        GenerateSchnorrSignature contentHash "k1";
        SubmitVotes contentHash voterSignature
          [ ("1", {| CryptogramWithProof.cryptogram := "c1";
                     CryptogramWithProof.proof := "p1" |});
            ("2", {| CryptogramWithProof.cryptogram := "c2";
                     CryptogramWithProof.proof := "p2" |}) ] ].
Proof.
  pose (ack := {| AcknowledgedBoard.currentBoardHash := "b0";
                  AcknowledgedBoard.currentTime := Demo.boardTime |}).
  destruct (signed_content_is_votes_without_proofs (Demo.env true) Demo.submission
              tt tt [] [GetBoardHash] ack "voter-1" eq_refl eq_refl) as [_ H].
  eexists. eexists. apply H. reflexivity.
Defined.

End SubmitVotesSpec.

(* ================================================================== *)
(** * The session: guards and the configuration *)
(* ================================================================== *)

Module AVClientSpec.
Import Js Json Effects EffectsFacts CvrValidation AVClient.
Local Open Scope string_scope.

Lemma getElectionConfig_none (s : Session) (tr : history) :
  electionConfig s = None ->
  getElectionConfig s tr = (Fail (InvalidStateError noConfigMessage), s, tr).
Proof. intro H. unfold getElectionConfig, bind, read. rewrite H. reflexivity. Qed.

Lemma getElectionConfig_some (s : Session) (tr : history) (config : ElectionConfig.t) :
  electionConfig s = Some config ->
  getElectionConfig s tr = (Ok config, s, tr).
Proof. intro H. unfold getElectionConfig, bind, read. rewrite H. reflexivity. Qed.

Lemma serviceUrl_none (which : Services.t -> option Service.t) (s : Session) (tr : history) :
  electionConfig s = None ->
  serviceUrl which s tr = (Fail (InvalidStateError noConfigMessage), s, tr).
Proof.
  intro H. unfold serviceUrl.
  rewrite (bind_fail _ _ _ _ _ _ _ (getElectionConfig_none s tr H)). reflexivity.
Qed.

Section Facts.
Variable env : Env.

(** C10, as stated, fails on a client that was never initialised:
    [constructBallotCryptograms] reports the missing registration, not
    the missing configuration. *)
Lemma construct_before_initialize_reports_registration :
  outcome (constructBallotCryptograms (Demo.env true) Demo.cvr fresh []) =
    Fail (InvalidStateError
      "Cannot construct ballot cryptograms. Voter registration not completed successfully")
  /\ outcome (constructBallotCryptograms (Demo.env true) Demo.cvr fresh []) <>
    Fail (InvalidStateError "No configuration loaded. Did you call initialize()?").
Proof. split; [reflexivity | discriminate]. Qed.

(** C10, amended. In every state without a configuration:
    [requestAccessCode] throws the no-configuration error; so do
    [validateAccessCode] once an email is recorded, [registerVoter] once
    a confirmation token is recorded, [constructBallotCryptograms] once
    one of voter identifier, empty cryptograms and contest ids is
    recorded, and [submitBallotCryptograms] once a voter identifier or
    envelopes are recorded; before that each throws its own
    invalid-state error. No request is sent in any of these cases. *)
Theorem no_configuration_loaded (s : Session) (tr : history) :
  electionConfig s = None ->
  (forall opaqueVoterId email,
     requestAccessCode env opaqueVoterId email s tr =
       (Fail (InvalidStateError "No configuration loaded. Did you call initialize()?"),
        s, tr)) /\
  (forall code,
     validateAccessCode env code s tr =
       (Fail (InvalidStateError
                (if truthy_string (email s)
                 then "No configuration loaded. Did you call initialize()?"
                 else "Cannot validate access code. Access code was not requested.")),
        s, tr)) /\
  (outcome (registerVoter env s tr) =
     Fail (InvalidStateError
             (if truthy_string (identityConfirmationToken s)
              then "No configuration loaded. Did you call initialize()?"
              else "Cannot register voter without identity confirmation. User has not validated access code."))
   /\ existsb is_network (skipn (List.length tr) (trace (registerVoter env s tr))) = false) /\
  (forall cvr,
     constructBallotCryptograms env cvr s tr =
       (Fail (InvalidStateError
                (if truthy_string (voterIdentifier s)
                    || truthy_object (emptyCryptograms s)
                    || truthy_object (contestIds s)
                 then "No configuration loaded. Did you call initialize()?"
                 else "Cannot construct ballot cryptograms. Voter registration not completed successfully")),
        s, tr)) /\
  (forall affidavit,
     submitBallotCryptograms env affidavit s tr =
       (Fail (InvalidStateError
                (if truthy_string (voterIdentifier s) || truthy_object (voteEncryptions s)
                 then "No configuration loaded. Did you call initialize()?"
                 else "Cannot submit cryptograms. Voter identity unknown or no open envelopes")),
        s, tr)).
Proof.
  intro Hcfg. repeat split.
  - intros v e. unfold requestAccessCode.
    rewrite (bind_fail _ _ _ _ _ _ _ (serviceUrl_none _ s tr Hcfg)). reflexivity.
  - intro code. unfold validateAccessCode, bind at 1, read.
    destruct (truthy_string (email s)); simpl; [ | reflexivity].
    rewrite (bind_fail _ _ _ _ _ _ _ (serviceUrl_none _ s tr Hcfg)). reflexivity.
  - unfold registerVoter, bind at 1, read.
    destruct (truthy_string (identityConfirmationToken s)); simpl; [ | reflexivity].
    unfold bind at 1. rewrite perform_eq. unfold bind at 1, update at 1.
    assert (Hcfg' : electionConfig (set_keyPair (Some (randomKeyPair env tr)) s) = None)
      by exact Hcfg.
    rewrite (bind_fail _ _ _ _ _ _ _ (serviceUrl_none _ _ _ Hcfg')). reflexivity.
  - unfold registerVoter, bind at 1, read.
    destruct (truthy_string (identityConfirmationToken s)); simpl.
    + unfold bind at 1. rewrite perform_eq. unfold bind at 1, update at 1.
      assert (Hcfg' : electionConfig (set_keyPair (Some (randomKeyPair env tr)) s) = None)
        by exact Hcfg.
      rewrite (bind_fail _ _ _ _ _ _ _ (serviceUrl_none _ _ _ Hcfg')).
      unfold trace. simpl. rewrite skipn_app, skipn_all, Nat.sub_diag. reflexivity.
    + unfold throw, trace. simpl. rewrite skipn_all. reflexivity.
  - intro cvr. unfold constructBallotCryptograms, bind at 1, read.
    destruct (truthy_string (voterIdentifier s) || truthy_object (emptyCryptograms s)
              || truthy_object (contestIds s)); simpl; [ | reflexivity].
    rewrite (bind_fail _ _ _ _ _ _ _ (getElectionConfig_none s tr Hcfg)). reflexivity.
  - intro affidavit. unfold submitBallotCryptograms, bind at 1, read.
    destruct (truthy_string (voterIdentifier s) || truthy_object (voteEncryptions s));
      simpl; [ | reflexivity].
    unfold AVClient.electionId.
    rewrite (bind_fail _ _ _ _ _ _ _
               (bind_fail _ _ _ _ _ _ _ (getElectionConfig_none s tr Hcfg))).
    reflexivity.
Qed.

(** C5 at work: whatever the session, [spoilBallotCryptograms] throws
    [Error('Not implemented yet')]; it sends nothing and leaves the
    session as it was. *)
Theorem spoilBallotCryptograms_not_implemented (s : Session) (tr : history) :
  spoilBallotCryptograms s tr = (Fail (PlainError "Not implemented yet"), s, tr).
Proof. reflexivity. Qed.

(** The guards of the four guarded operations, when every prerequisite
    field is absent. *)
Lemma guards_on_fresh_session (tr : history) :
  validateAccessCode env "1234" fresh tr =
    (Fail (InvalidStateError
             "Cannot validate access code. Access code was not requested."), fresh, tr) /\
  registerVoter env fresh tr =
    (Fail (InvalidStateError
             "Cannot register voter without identity confirmation. User has not validated access code."),
     fresh, tr) /\
  (forall cvr, constructBallotCryptograms env cvr fresh tr =
    (Fail (InvalidStateError
             "Cannot construct ballot cryptograms. Voter registration not completed successfully"),
     fresh, tr)) /\
  (forall affidavit, submitBallotCryptograms env affidavit fresh tr =
    (Fail (InvalidStateError
             "Cannot submit cryptograms. Voter identity unknown or no open envelopes"),
     fresh, tr)).
Proof. repeat split. Qed.

End Facts.

(** ** Failed calls and the session *)

Lemma getElectionConfig_stateless : stateless getElectionConfig.
Proof. unfold getElectionConfig. stateless_steps. Qed.

Lemma serviceUrl_stateless (which : Services.t -> option Service.t) :
  stateless (serviceUrl which).
Proof.
  unfold serviceUrl.
  apply stateless_bind; [apply getElectionConfig_stateless | intro].
  stateless_steps.
Qed.

Ltac session_steps :=
  repeat first
    [ progress cbv beta zeta
    | apply getElectionConfig_stateless | apply serviceUrl_stateless
    | apply SubmitVotesSpec.signAndSubmitVotes_stateless
    | apply stateless_ret | apply stateless_throw | apply stateless_perform
    | apply stateless_prop | apply stateless_read
    | apply stateless_mapM; intro
    | apply stateless_bind; [ | intro ]
    | match goal with
      | |- stateless (if ?b then _ else _) => destruct b
      | |- stateless (match ?x with _ => _ end) => destruct x
      end ].

Ltac unfailing_steps :=
  repeat first
    [ apply unfailing_update | apply unfailing_ret
    | apply unfailing_bind; [ | intro ] ].

Ltac atomic_steps :=
  repeat first
    [ progress cbv beta zeta
    | solve [ apply stateless_atomic; session_steps ]
    | solve [ apply unfailing_atomic; unfailing_steps ]
    | apply atomic_bind; [ solve [session_steps] | intro ]
    | match goal with
      | |- atomic (if ?b then _ else _) => destruct b
      | |- atomic (match ?x with _ => _ end) => destruct x
      end ].

Section Atomicity.
Variable env : Env.

Lemma initialize_atomic (c : option ElectionConfig.t) : atomic (initialize env c).
Proof.
  unfold initialize, ElectionConfigOps.fetchElectionConfig,
    ElectionConfigOps.validateElectionConfig.
  atomic_steps.
Qed.

Lemma authenticateWithCodes_atomic (codes : list string) :
  atomic (authenticateWithCodes env codes).
Proof.
  unfold authenticateWithCodes, AVClient.electionId, electionEncryptionKey.
  atomic_steps.
Qed.

Lemma requestAccessCode_atomic (v e : string) : atomic (requestAccessCode env v e).
Proof. unfold requestAccessCode. atomic_steps. Qed.

Lemma validateAccessCode_atomic (code : string) : atomic (validateAccessCode env code).
Proof. unfold validateAccessCode. atomic_steps. Qed.

Lemma constructBallotCryptograms_atomic (cvr : CastVoteRecord) :
  atomic (constructBallotCryptograms env cvr).
Proof.
  unfold constructBallotCryptograms, emptyCryptogramOf, encodingTypeOf,
    electionEncryptionKey.
  atomic_steps.
Qed.

Lemma generateTestCode_atomic : atomic (generateTestCode env).
Proof. unfold generateTestCode. atomic_steps. Qed.

Lemma submitBallotCryptograms_stateless (affidavit : string) :
  stateless (submitBallotCryptograms env affidavit).
Proof.
  unfold submitBallotCryptograms, AVClient.electionId, privateKey,
    electionSigningPublicKey, affidavitConfig.
  session_steps.
Qed.

(** The part of [registerVoter] that follows the storing of the key
    pair. *)
Lemma registerVoter_cases (s : Session) (tr : history) (e : exn) :
  outcome (registerVoter env s tr) = Fail e ->
  final (registerVoter env s tr) = s \/
  final (registerVoter env s tr) = set_keyPair (Some (randomKeyPair env tr)) s.
Proof.
  unfold registerVoter. rewrite !bind_read.
  destruct (negb (truthy_string (identityConfirmationToken s))).
  - intros _. left. reflexivity.
  - rewrite !bind_perform_ok, !bind_update.
    generalize (tr ++ [RandomKeyPair])%list. intros tr1 H. right.
    match type of H with
    | outcome (?m ?s1 tr1) = _ =>
        assert (A : atomic m); [ | exact (A s1 tr1 e H)]
    end.
    atomic_steps.
Qed.

End Atomicity.

Lemma then_ret_fail {A B : Type} (m : M A) (b : A -> B) (s : Session) (tr : history)
    (e : exn) :
  outcome (bind m (fun a => ret (b a)) s tr) = Fail e ->
  outcome (m s tr) = Fail e /\
  final (bind m (fun a => ret (b a)) s tr) = final (m s tr).
Proof.
  unfold bind. destruct (m s tr) as [[[a | e'] s1] tr1]; unfold outcome, final; simpl.
  - discriminate.
  - intro H. injection H as ->. split; reflexivity.
Qed.

(** C6, as stated, fails for [registerVoter]: with the network down the
    call fails, and the session holds a key pair it did not hold
    before. *)
Lemma registerVoter_failure_replaces_key_pair :
  outcome (registerVoter (Demo.env false) Demo.validated []) =
    Fail (CollaboratorError "NetworkError" "Network request failed") /\
  keyPair Demo.validated = None /\
  keyPair (final (registerVoter (Demo.env false) Demo.validated [])) =
    Some {| KeyPair.privateKey := "k1"; KeyPair.publicKey := "k1" |} /\
  final (registerVoter (Demo.env false) Demo.validated []) <> Demo.validated.
Proof.
  split; [reflexivity | split; [reflexivity | split; [reflexivity | ]]].
  intro H. apply (f_equal keyPair) in H. discriminate H.
Qed.

(** C6, amended. A call that fails leaves every field of the session as
    it was, with one exception: [registerVoter] stores the key pair it
    generated before its first request, so after a failed [registerVoter]
    the key pair may be the new one (and nothing else differs). *)
Theorem failed_call_keeps_session (env : Env) (op : operation)
    (s : Session) (tr : history) (e : exn) :
  outcome (call env op s tr) = Fail e ->
  final (call env op s tr) = s \/
  (op = OpRegisterVoter /\
   final (call env op s tr) = set_keyPair (Some (randomKeyPair env tr)) s).
Proof.
  assert (K : forall (A : Type) (m : M A) (b : A -> answer),
             atomic m ->
             outcome (bind m (fun a => ret (b a)) s tr) = Fail e ->
             final (bind m (fun a => ret (b a)) s tr) = s).
  { intros A m b Hm H. apply then_ret_fail in H as [H ->]. exact (Hm s tr e H). }
  destruct op; unfold call; intro H.
  - left. apply (K _ _ (fun _ => Undefined) (initialize_atomic env _) H).
  - left. apply (K _ _ (fun _ => Undefined) (authenticateWithCodes_atomic env _) H).
  - left. apply (K _ _ (fun _ => Undefined) (requestAccessCode_atomic env _ _) H).
  - left. apply (K _ _ (fun _ => Undefined) (validateAccessCode_atomic env _) H).
  - apply (then_ret_fail (registerVoter env) (fun _ => Undefined)) in H as [H ->].
    destruct (registerVoter_cases env s tr e H) as [E | E];
      [left; exact E | right; split; [reflexivity | exact E]].
  - left. apply (K _ _ TrackingCode (constructBallotCryptograms_atomic env _) H).
  - left. apply (K _ _ (fun _ => Undefined) (generateTestCode_atomic env) H).
  - left. reflexivity.
  - left. apply (K _ _ VoteReceipt
                   (stateless_atomic _ (submitBallotCryptograms_stateless env _)) H).
  - left. reflexivity.
Qed.

Lemma failed_call_keeps_session_witness :
  final (call (Demo.env false) (OpValidateAccessCode "1234") Demo.validated []) =
    Demo.validated /\
  final (call (Demo.env false) OpRegisterVoter Demo.validated []) =
    set_keyPair (Some {| KeyPair.privateKey := "k1"; KeyPair.publicKey := "k1" |})
                Demo.validated.
Proof.
  split.
  - destruct (failed_call_keeps_session (Demo.env false) (OpValidateAccessCode "1234")
                Demo.validated []
                (CollaboratorError "NetworkError" "Network request failed") eq_refl)
      as [H | [H _]]; [exact H | discriminate H].
  - destruct (failed_call_keeps_session (Demo.env false) OpRegisterVoter
                Demo.validated []
                (CollaboratorError "NetworkError" "Network request failed") eq_refl)
      as [H | [_ H]]; [ | exact H].
    apply (f_equal keyPair) in H. discriminate H.
Defined.

(** ** Validation of the cast-vote-record *)

Lemma isConfiguredContest_false (contests : list Ballot.t) (contestId : string) :
  (forall b, In b contests -> number_toString (Ballot.id b) <> contestId) ->
  isConfiguredContest contests contestId = false.
Proof.
  intro H. unfold isConfiguredContest, findContest.
  destruct (find _ contests) as [b | ] eqn:F; [ | reflexivity].
  apply find_some in F as [Hin Heq]. apply String.eqb_eq in Heq.
  exfalso. exact (H b Hin Heq).
Qed.

Lemma isConfiguredContest_true (contests : list Ballot.t) (contestId : string) :
  (exists b, In b contests /\ number_toString (Ballot.id b) = contestId) ->
  isConfiguredContest contests contestId = true.
Proof.
  intros [b [Hin Heq]]. unfold isConfiguredContest, findContest.
  destruct (find _ contests) as [b' | ] eqn:F; [reflexivity | ].
  pose proof (find_none _ _ F b Hin) as N. simpl in N.
  apply String.eqb_neq in N. contradiction.
Qed.

Lemma validateCvr_invalid_contest (cvr : CastVoteRecord) (contests : list Ballot.t) :
  (exists contestId,
      In contestId (keys cvr) /\
      forall b, In b contests -> number_toString (Ballot.id b) <> contestId) ->
  validateCvr cvr contests = InvalidContest.
Proof.
  intros [contestId [Hin Hnone]]. unfold validateCvr.
  destruct (forallb (isConfiguredContest contests) (keys cvr)) eqn:F; [ | reflexivity].
  rewrite forallb_forall in F. specialize (F contestId Hin).
  rewrite (isConfiguredContest_false contests contestId Hnone) in F. discriminate F.
Qed.

Lemma validateCvr_invalid_option (cvr : CastVoteRecord) (contests : list Ballot.t) :
  (forall contestId, In contestId (keys cvr) ->
     exists b, In b contests /\ number_toString (Ballot.id b) = contestId) ->
  (exists contestId option contest,
      In (contestId, option) cvr /\
      findContest contests contestId = Some contest /\
      forall o, In o (Ballot.options contest) -> BallotOption.reference o <> option) ->
  validateCvr cvr contests = InvalidOption.
Proof.
  intros Hall (contestId & option & contest & Hin & Hfind & Hnone). unfold validateCvr.
  assert (F : forallb (isConfiguredContest contests) (keys cvr) = true).
  { apply forallb_forall. intros k Hk. apply isConfiguredContest_true, Hall, Hk. }
  rewrite F. simpl.
  destruct (forallb (isConfiguredOption contests) cvr) eqn:G; [ | reflexivity].
  rewrite forallb_forall in G. specialize (G _ Hin).
  unfold isConfiguredOption in G. simpl in G. rewrite Hfind in G.
  apply existsb_exists in G as [o [Ho Heq]]. apply String.eqb_eq in Heq.
  exfalso. exact (Hnone o Ho Heq).
Qed.

(** C4. Once registration was recorded and a configuration is loaded, a
    cast-vote-record with a contest id that no configured contest has is
    refused with [CorruptCvrError('Corrupt CVR: Contains invalid contest')];
    one whose contest ids are all configured but that selects, in some
    contest, an option the contest does not have is refused with
    [CorruptCvrError('Corrupt CVR: Contains invalid option')]. In both
    cases nothing was encrypted, nothing was sent and the session is as
    before. *)
Theorem corrupt_cvr_refused_locally (env : Env) (cvr : CastVoteRecord)
    (s : Session) (tr : history) (config : ElectionConfig.t) :
  truthy_string (voterIdentifier s) || truthy_object (emptyCryptograms s)
    || truthy_object (contestIds s) = true ->
  electionConfig s = Some config ->
  ((exists contestId,
       In contestId (keys cvr) /\
       forall b, In b (ElectionConfig.ballots config) ->
                 number_toString (Ballot.id b) <> contestId) ->
   constructBallotCryptograms env cvr s tr =
     (Fail (CorruptCvrError "Corrupt CVR: Contains invalid contest"), s, tr)) /\
  ((forall contestId, In contestId (keys cvr) ->
       exists b, In b (ElectionConfig.ballots config) /\
                 number_toString (Ballot.id b) = contestId) ->
   (exists contestId option contest,
       In (contestId, option) cvr /\
       findContest (ElectionConfig.ballots config) contestId = Some contest /\
       forall o, In o (Ballot.options contest) -> BallotOption.reference o <> option) ->
   constructBallotCryptograms env cvr s tr =
     (Fail (CorruptCvrError "Corrupt CVR: Contains invalid option"), s, tr)).
Proof.
  intros Hguard Hcfg.
  assert (E : forall v, validateCvr cvr (ElectionConfig.ballots config) = v ->
              v <> Okay ->
              constructBallotCryptograms env cvr s tr =
                (Fail (CorruptCvrError
                         match v with
                         | InvalidOption => "Corrupt CVR: Contains invalid option"
                         | _ => "Corrupt CVR: Contains invalid contest"
                         end), s, tr)).
  { intros v Hv Hne.
    unfold constructBallotCryptograms, bind at 1, read. cbv beta iota.
    rewrite Hguard. cbn [negb]. cbv iota.
    rewrite (bind_ok _ _ _ _ _ _ _ (getElectionConfig_some s tr config Hcfg)), Hv.
    destruct v; [contradiction | reflexivity | reflexivity]. }
  split.
  - intro H. apply (E InvalidContest); [ | discriminate].
    apply validateCvr_invalid_contest, H.
  - intros H1 H2. apply (E InvalidOption); [ | discriminate].
    apply validateCvr_invalid_option; assumption.
Qed.

Lemma corrupt_cvr_refused_locally_witness :
  constructBallotCryptograms (Demo.env true) [("1", "option1"); ("3", "optiona")]
      Demo.registered [] =
    (Fail (CorruptCvrError "Corrupt CVR: Contains invalid contest"), Demo.registered, []) /\
  constructBallotCryptograms (Demo.env true) [("1", "option1"); ("2", "wrong_option")]
      Demo.registered [] =
    (Fail (CorruptCvrError "Corrupt CVR: Contains invalid option"), Demo.registered, []).
Proof.
  pose (config := ElectionConfig.with_affidavit
                    {| AffidavitConfig.curve := "k256";
                       AffidavitConfig.encryptionKey :=
                         "03e9858b6e48eb93d8f27aa76b60806298c4c7dd94077ad6c3ff97c44937888647" |}
                    Demo.config).
  split.
  - apply (proj1 (corrupt_cvr_refused_locally (Demo.env true)
                    [("1", "option1"); ("3", "optiona")] Demo.registered [] config
                    eq_refl eq_refl)).
    exists "3". split.
    + simpl. right. left. reflexivity.
    + intros b [<- | [<- | []]]; vm_compute; discriminate.
  - apply (proj2 (corrupt_cvr_refused_locally (Demo.env true)
                    [("1", "option1"); ("2", "wrong_option")] Demo.registered [] config
                    eq_refl eq_refl)).
    + intros k [<- | [<- | []]].
      * exists (Demo.ballot 1 ["option1"; "option2"]). split; [left | ]; reflexivity.
      * exists (Demo.ballot 2 ["optiona"; "optionb"]).
        split; [right; left | ]; reflexivity.
    + exists "2", "wrong_option", (Demo.ballot 2 ["optiona"; "optionb"]).
      split; [right; left; reflexivity | split; [reflexivity | ]].
      intros o [<- | [<- | []]]; vm_compute; discriminate.
Defined.

(** ** The tracking code *)

(** C8. When [constructBallotCryptograms] returns a tracking code, that
    code is the fingerprint of the contest-to-cryptogram map extracted
    from the envelopes it stored: proofs and randomizers do not enter it,
    and any envelope set with the same cryptograms under the same contest
    ids has the same code. *)
Theorem tracking_code_over_cryptograms (env : Env) (cvr : CastVoteRecord)
    (s s' : Session) (tr tr' : history) (code : string) :
  constructBallotCryptograms env cvr s tr = (Ok code, s', tr') ->
  exists envelopes,
    voteEncryptions s' = Some envelopes /\
    code = fingerprint env
             (fromEntries
                (map (fun kv => (fst kv, Envelope.cryptogram (snd kv))) envelopes)) /\
    forall envelopes',
      map fst envelopes' = map fst envelopes ->
      map (fun kv => Envelope.cryptogram (snd kv)) envelopes' =
        map (fun kv => Envelope.cryptogram (snd kv)) envelopes ->
      fingerprint env (extractCryptograms envelopes') = code.
Proof.
  unfold constructBallotCryptograms, bind at 1, read. cbv beta iota.
  destruct (negb _); [discriminate | ].
  intro H.
  apply bind_ok_inv in H as (config & s1 & tr1 & _ & H).
  destruct (validateCvr cvr (ElectionConfig.ballots config)); try discriminate H.
  apply bind_ok_inv in H as (ecs & s2 & tr2 & _ & H).
  apply bind_ok_inv in H as (types & s3 & tr3 & _ & H).
  apply bind_ok_inv in H as (key & s4 & tr4 & _ & H).
  apply bind_ok_inv in H as (envelopes & s5 & tr5 & _ & H).
  apply bind_ok_inv in H as (u & s6 & tr6 & Hupd & H).
  unfold update in Hupd. injection Hupd as _ <- _.
  unfold ret in H. injection H as <- <- _.
  exists envelopes. split; [reflexivity | split; [reflexivity | ]].
  intros envelopes' Hkeys Hcs. f_equal. unfold extractCryptograms. f_equal.
  clear - Hkeys Hcs. revert envelopes Hkeys Hcs.
  induction envelopes' as [| [k e] l IH]; intros [| [k' e'] l'] Hkeys Hcs;
    try discriminate; [reflexivity | ].
  simpl in *. injection Hkeys as -> Hkeys. injection Hcs as -> Hcs.
  f_equal. apply IH; assumption.
Qed.

Lemma tracking_code_over_cryptograms_witness :
  exists code s' tr',
    constructBallotCryptograms (Demo.env true) Demo.cvr Demo.registered [] =
      (Ok code, s', tr') /\
    code = Demo.hash "c(option1),c(optiona)" /\
    fingerprint (Demo.env true) (extractCryptograms Demo.reencrypted) = code.
Proof.
  pose (r := constructBallotCryptograms (Demo.env true) Demo.cvr Demo.registered []).
  exists (Demo.hash "c(option1),c(optiona)"), (final r), (trace r).
  assert (E : r = (Ok (Demo.hash "c(option1),c(optiona)"), final r, trace r))
    by (vm_compute; reflexivity).
  split; [exact E | split; [reflexivity | ]].
  destruct (tracking_code_over_cryptograms (Demo.env true) Demo.cvr
              Demo.registered (final r) [] (trace r) _ E)
    as (envelopes & Henv & _ & Hsame).
  assert (Eenv : envelopes =
                   [ ("1", {| Envelope.cryptogram := "c(option1)";
                              Envelope.randomness := "r(1)"; Envelope.proof := "p(1)" |});
                     ("2", {| Envelope.cryptogram := "c(optiona)";
                              Envelope.randomness := "r(2)";
                              Envelope.proof := "p(2)" |}) ]).
  { vm_compute in Henv. injection Henv as <-. reflexivity. }
  apply Hsame; rewrite Eenv; reflexivity.
Defined.


Lemma no_configuration_loaded_witness :
  requestAccessCode (Demo.env true) "voter123" "voter@foo.bar" fresh [] =
    (Fail (InvalidStateError noConfigMessage), fresh, []) /\
  constructBallotCryptograms (Demo.env true) Demo.cvr
      (set_voterIdentifier (Some "voter-1") fresh) [] =
    (Fail (InvalidStateError noConfigMessage),
     set_voterIdentifier (Some "voter-1") fresh, []).
Proof.
  split.
  - apply (proj1 (no_configuration_loaded (Demo.env true) fresh [] eq_refl)).
  - apply (proj1 (proj2 (proj2 (proj2
      (no_configuration_loaded (Demo.env true)
         (set_voterIdentifier (Some "voter-1") fresh) [] eq_refl))))).
Defined.

End AVClientSpec.

(* ================================================================== *)
(** * Bytes: text, numbers, padding and blocks *)
(* ================================================================== *)

Module BytesFacts.
Import Bytes.
Local Open Scope Z_scope.

Ltac euclid := Z.div_mod_to_equations; lia.

(** Decides the comparisons of a goal with linear arithmetic. *)
Ltac decide_tests :=
  repeat match goal with
    | |- context [?a <=? ?b] =>
        first [ replace (a <=? b) with true by (symmetry; apply Z.leb_le; euclid)
              | replace (a <=? b) with false by (symmetry; apply Z.leb_gt; euclid) ]
    | |- context [?a <? ?b] =>
        first [ replace (a <? b) with true by (symmetry; apply Z.ltb_lt; euclid)
              | replace (a <? b) with false by (symmetry; apply Z.ltb_ge; euclid) ]
    end.

Lemma utf8Decode_char (c : Z) (rest : list Z) :
  isScalarValue c ->
  utf8Decode (utf8EncodeChar c ++ rest) = option_map (cons c) (utf8Decode rest).
Proof.
  intro Hc. unfold isScalarValue in Hc. unfold utf8EncodeChar.
  destruct (Z.ltb_spec c 128); [ | destruct (Z.ltb_spec c 2048);
                                   [ | destruct (Z.ltb_spec c 65536) ] ];
    cbn [app utf8Decode]; unfold isContinuation; decide_tests; cbn [andb];
    do 2 f_equal; euclid.
Qed.

Lemma utf8_roundtrip (text : list Z) :
  Forall isScalarValue text -> utf8Decode (utf8Encode text) = Some text.
Proof.
  induction 1 as [| c text Hc _ IH]; [reflexivity | ].
  unfold utf8Encode in *. cbn [flat_map].
  rewrite utf8Decode_char by exact Hc. rewrite IH. reflexivity.
Qed.

Lemma utf8EncodeChar_bytes (c : Z) :
  isScalarValue c -> c <> 0 ->
  Forall (fun b => 0 < b < 256) (utf8EncodeChar c).
Proof.
  intros Hc Hnz. unfold isScalarValue in Hc. unfold utf8EncodeChar.
  destruct (Z.ltb_spec c 128); [ | destruct (Z.ltb_spec c 2048);
                                   [ | destruct (Z.ltb_spec c 65536) ] ];
    repeat constructor; euclid.
Qed.

Lemma utf8Encode_bytes (text : list Z) :
  Forall (fun c => isScalarValue c /\ c <> 0) text ->
  Forall (fun b => 0 < b < 256) (utf8Encode text).
Proof.
  induction 1 as [| c text [Hc Hnz] _ IH]; [constructor | ].
  unfold utf8Encode in *. cbn [flat_map].
  apply Forall_app. split; [apply utf8EncodeChar_bytes; assumption | exact IH].
Qed.

(** ** Numbers on a fixed number of bytes *)

Lemma lowBytes_length (n : nat) (z : Z) : List.length (lowBytes n z) = n.
Proof. revert z. induction n as [| n IH]; intro z; simpl; [ | rewrite IH]; reflexivity. Qed.

Lemma lowBytes_range (n : nat) (z : Z) : Forall (fun b => 0 <= b < 256) (lowBytes n z).
Proof.
  revert z. induction n as [| n IH]; intro z; simpl; constructor; [euclid | apply IH].
Qed.

Lemma bytesToNumber_rev (bs : list Z) :
  bytesToNumber (rev bs) = fold_right (fun b acc => acc * 256 + b) 0 bs.
Proof.
  unfold bytesToNumber. rewrite <- (rev_involutive bs) at 2.
  rewrite fold_left_rev_right. reflexivity.
Qed.

Lemma number_roundtrip (n : nat) (z : Z) :
  0 <= z < 256 ^ Z.of_nat n -> bytesToNumber (numberToBytes n z) = z.
Proof.
  unfold numberToBytes. rewrite bytesToNumber_rev.
  revert z. induction n as [| n IH]; intros z Hz.
  - simpl in *. lia.
  - cbn [lowBytes fold_right]. rewrite IH.
    + euclid.
    + rewrite Nat2Z.inj_succ, Z.pow_succ_r in Hz by lia. euclid.
Qed.

Lemma numberToBytes_length (n : nat) (z : Z) : List.length (numberToBytes n z) = n.
Proof. unfold numberToBytes. rewrite length_rev. apply lowBytes_length. Qed.

Lemma numberToBytes_range (n : nat) (z : Z) :
  Forall (fun b => 0 <= b < 256) (numberToBytes n z).
Proof. unfold numberToBytes. apply Forall_rev, lowBytes_range. Qed.

(** ** Padding *)

Lemma dropZeros_repeat (k : nat) (bs : list Z) :
  dropZeros (repeat 0 k ++ bs) = dropZeros bs.
Proof. induction k as [| k IH]; [reflexivity | exact IH]. Qed.

Lemma dropZeros_nonzero (bs : list Z) :
  Forall (fun b => b <> 0) bs -> dropZeros bs = bs.
Proof.
  destruct 1 as [| b bs Hb _]; [reflexivity | ].
  simpl. destruct (Z.eqb_spec b 0); [contradiction | reflexivity].
Qed.

Lemma rev_repeat (k : nat) (z : Z) : rev (repeat z k) = repeat z k.
Proof.
  induction k as [| k IH]; [reflexivity | ].
  simpl. rewrite IH. symmetry. apply repeat_cons.
Qed.

Lemma stripTrailingZeros_padded (bs : list Z) (k : nat) :
  Forall (fun b => b <> 0) bs -> stripTrailingZeros (bs ++ repeat 0 k) = bs.
Proof.
  intro H. unfold stripTrailingZeros.
  rewrite rev_app_distr, rev_repeat, dropZeros_repeat.
  rewrite dropZeros_nonzero by (apply Forall_rev; exact H).
  apply rev_involutive.
Qed.

(** ** Blocks *)

Lemma chunks_concat (count size : nat) (bs : list Z) :
  List.length bs = (count * size)%nat -> List.concat (chunks count size bs) = bs.
Proof.
  revert bs. induction count as [| count IH]; intros bs H.
  - destruct bs; [reflexivity | discriminate H].
  - cbn [chunks List.concat]. rewrite IH.
    + apply firstn_skipn.
    + rewrite length_skipn. simpl in H. lia.
Qed.

Lemma chunks_length (count size : nat) (bs : list Z) :
  List.length (chunks count size bs) = count.
Proof.
  revert bs. induction count as [| count IH]; intro bs; simpl; [ | rewrite IH]; reflexivity.
Qed.

Lemma chunks_blocks (count size : nat) (bs : list Z) (P : Z -> Prop) :
  List.length bs = (count * size)%nat -> Forall P bs ->
  Forall (fun block => List.length block = size /\ Forall P block) (chunks count size bs).
Proof.
  revert bs. induction count as [| count IH]; intros bs H HP; [constructor | ].
  cbn [chunks]. constructor.
  - split.
    + rewrite length_firstn. simpl in H. lia.
    + rewrite <- (firstn_skipn size bs) in HP. apply Forall_app in HP. apply HP.
  - apply IH.
    + rewrite length_skipn. simpl in H. lia.
    + rewrite <- (firstn_skipn size bs) in HP. apply Forall_app in HP. apply HP.
Qed.

End BytesFacts.

(* ================================================================== *)
(** * A selection survives encoding and decoding *)
(* ================================================================== *)

Module ContestCodecFacts.
Import Js Bytes BytesFacts ContestCodec.
Local Open Scope string_scope.

Lemma firstn_exact {A : Type} (a b : list A) : firstn (List.length a) (a ++ b) = a.
Proof.
  rewrite firstn_app, Nat.sub_diag, firstn_all. simpl. apply app_nil_r.
Qed.

Lemma skipn_exact {A : Type} (a b : list A) : skipn (List.length a) (a ++ b) = b.
Proof.
  rewrite skipn_app, Nat.sub_diag, skipn_all. reflexivity.
Qed.

Lemma firstn_zeros (j k : nat) : (j <= k)%nat -> firstn j (repeat 0%Z k) = repeat 0%Z j.
Proof.
  revert k. induction j as [| j IH]; intros k H; [reflexivity | ].
  destruct k as [| k]; [lia | ]. simpl. rewrite IH by lia. reflexivity.
Qed.

Lemma firstn_padded (content : list Z) (m k : nat) :
  (List.length content <= m)%nat -> (m <= List.length content + k)%nat ->
  firstn m (content ++ repeat 0%Z k) = (content ++ repeat 0%Z (m - List.length content))%list.
Proof.
  intros H1 H2. rewrite firstn_app, firstn_all2 by exact H1.
  rewrite firstn_zeros by lia. reflexivity.
Qed.

Lemma findByReference_reference (options : list ContestOption.t) (reference : string)
    (chosen : ContestOption.t) :
  findByReference options reference = Some chosen ->
  ContestOption.reference chosen = reference.
Proof.
  intro H. apply find_some in H as [_ H]. apply String.eqb_eq in H. exact H.
Qed.

(** The padded content of a valid selection decodes to the selection. *)
Lemma decodeSelection_padded (config : ContestConfig.t) (selection : OptionSelection.t)
    (chosen : ContestOption.t) (textBytes : list Z) (k : nat) :
  let encoding := ContestConfig.encoding config in
  let content :=
    (numberToBytes (VoteEncoding.codeSize encoding) (ContestOption.code chosen)
     ++ textBytes)%list in
  findByReference (ContestConfig.options config)
                  (OptionSelection.reference selection) = Some chosen ->
  findByCode (ContestConfig.options config) (ContestOption.code chosen) = Some chosen ->
  (0 <= ContestOption.code chosen < 256 ^ Z.of_nat (VoteEncoding.codeSize encoding))%Z ->
  (List.length content <= VoteEncoding.maxSize encoding)%nat ->
  (VoteEncoding.maxSize encoding <= List.length content + k)%nat ->
  match ContestOption.writeIn chosen, OptionSelection.text selection with
  | None, None => textBytes = []
  | Some rule, Some text =>
      WriteIn.encoding rule = "utf8" /\
      Forall (fun c => isScalarValue c /\ c <> 0%Z) text /\
      textBytes = utf8Encode text
  | _, _ => False
  end ->
  decodeSelection config (content ++ repeat 0%Z k) = Ok selection.
Proof.
  intros encoding content Href Hcode Hrange Hfit Hroom Htext.
  unfold decodeSelection. fold encoding.
  rewrite firstn_padded by assumption.
  set (pad := repeat 0%Z (VoteEncoding.maxSize encoding - List.length content)).
  unfold content. rewrite <- app_assoc.
  pose proof (numberToBytes_length (VoteEncoding.codeSize encoding)
                (ContestOption.code chosen)) as Hlen.
  rewrite <- Hlen at 1. rewrite firstn_exact.
  rewrite number_roundtrip by exact Hrange.
  rewrite Hcode. cbn [orThrow andThen].
  pose proof (findByReference_reference _ _ _ Href) as Eref.
  destruct selection as [reference text]. cbn [OptionSelection.reference
    OptionSelection.text] in *. subst reference.
  destruct (ContestOption.writeIn chosen) as [rule | ]; destruct text as [text | ];
    try contradiction.
  - destruct Htext as (Henc & Hscalar & ->).
    rewrite <- Hlen at 1. rewrite skipn_exact. unfold pad.
    rewrite stripTrailingZeros_padded.
    + unfold decodeText. rewrite Henc. cbn [String.eqb Ascii.eqb Bool.eqb].
      rewrite utf8_roundtrip.
      * reflexivity.
      * eapply Forall_impl; [ | exact Hscalar]. intros c [H _]. exact H.
    + eapply Forall_impl; [ | apply utf8Encode_bytes; exact Hscalar].
      intros b Hb. cbv beta in Hb. lia.
  - reflexivity.
Qed.

(** Encoding a valid selection succeeds with [cryptogramCount] blocks of
    [blockSize] bytes each, and the blocks decode to the selection. *)
Lemma encodeSelection_roundtrip (blockSize : nat) (config : ContestConfig.t)
    (selection : OptionSelection.t) :
  validSelection blockSize config selection ->
  exists blocks,
    encodeSelection blockSize config selection = Ok blocks /\
    List.length blocks = VoteEncoding.cryptogramCount (ContestConfig.encoding config) /\
    Forall (fun block => List.length block = blockSize /\
                         Forall (fun b => 0 <= b < 256)%Z block) blocks /\
    decodeSelection config (List.concat blocks) = Ok selection.
Proof.
  unfold validSelection. intros (chosen & Href & Hcode & Hrange & Htext & Hroom).
  set (encoding := ContestConfig.encoding config) in *.
  assert (Hbytes : exists textBytes,
             writeInBytes chosen (OptionSelection.text selection) = Ok textBytes /\
             (VoteEncoding.codeSize encoding + List.length textBytes
              <= VoteEncoding.maxSize encoding)%nat /\
             Forall (fun b => 0 <= b < 256)%Z textBytes /\
             match ContestOption.writeIn chosen, OptionSelection.text selection with
             | None, None => textBytes = []
             | Some rule, Some text =>
                 WriteIn.encoding rule = "utf8" /\
                 Forall (fun c => isScalarValue c /\ c <> 0%Z) text /\
                 textBytes = utf8Encode text
             | _, _ => False
             end).
  { unfold writeInBytes.
    destruct (ContestOption.writeIn chosen) as [rule | ];
      destruct (OptionSelection.text selection) as [text | ]; try contradiction.
    - destruct Htext as (Henc & Hscalar & Hsize & Hfit).
      exists (utf8Encode text). unfold encodeText. rewrite Henc.
      cbn [String.eqb Ascii.eqb Bool.eqb andThen].
      apply Nat.leb_le in Hsize. rewrite Hsize.
      repeat split; try assumption.
      eapply Forall_impl; [ | apply utf8Encode_bytes; exact Hscalar].
      intros b Hb. cbv beta in Hb. lia.
    - exists []. repeat split; [simpl; lia | constructor]. }
  destruct Hbytes as (textBytes & Hwrite & Hfit & Hrange' & Hshape).
  set (content := (numberToBytes (VoteEncoding.codeSize encoding)
                                 (ContestOption.code chosen) ++ textBytes)%list).
  assert (Hlen : List.length content =
                 (VoteEncoding.codeSize encoding + List.length textBytes)%nat).
  { unfold content. rewrite length_app, numberToBytes_length. reflexivity. }
  set (total := (VoteEncoding.cryptogramCount encoding * blockSize)%nat) in *.
  set (padded := (content ++ repeat 0%Z (total - List.length content))%list).
  assert (Hpadded : List.length padded = total).
  { unfold padded. rewrite length_app, repeat_length. lia. }
  exists (chunks (VoteEncoding.cryptogramCount encoding) blockSize padded).
  split; [ | split; [ | split ] ].
  - unfold encodeSelection. fold encoding. rewrite Href. cbn [orThrow andThen].
    rewrite Hwrite. cbn [andThen]. fold content. fold total.
    replace (Nat.leb (List.length content) (VoteEncoding.maxSize encoding)) with true
      by (symmetry; apply Nat.leb_le; lia).
    replace (Nat.leb (VoteEncoding.maxSize encoding) total) with true
      by (symmetry; apply Nat.leb_le; lia).
    reflexivity.
  - apply chunks_length.
  - apply chunks_blocks; [exact Hpadded | ].
    unfold padded, content. repeat (apply Forall_app; split).
    + apply numberToBytes_range.
    + exact Hrange'.
    + apply Forall_forall. intros b Hb. apply repeat_spec in Hb. subst b. lia.
  - rewrite chunks_concat by exact Hpadded.
    unfold padded, content.
    apply (decodeSelection_padded config selection chosen textBytes); try assumption.
    + fold encoding. fold content. lia.
    + fold encoding. fold content. lia.
Qed.

End ContestCodecFacts.

(* ================================================================== *)
(** * Cryptograms: wire form, sum and opening *)
(* ================================================================== *)

Module CryptogramFacts.
Import Js Regex Util Curve ElGamalPointCryptogram DecryptHelpers VoteCryptography.
Local Open Scope string_scope.

Lemma hex_has_no_comma (s : string) :
  Forall HexDigit (units s) ->
  forall rest, splitAtComma (s ++ "," ++ rest) = Some (s, rest).
Proof.
  induction s as [| c s IH]; intros H rest.
  - reflexivity.
  - inversion H as [| n ns Hc Hs]; subst.
    cbn [append splitAtComma].
    destruct (Ascii.eqb_spec c ","%char) as [-> | _].
    + exfalso. unfold HexDigit in Hc. cbn in Hc. lia.
    + pose proof (IH Hs rest) as E. cbn [append] in E. rewrite E. reflexivity.
Qed.

Lemma valid_hex_digits (s : string) :
  isValidHexString (units s) = true -> Forall HexDigit (units s).
Proof.
  unfold isValidHexString.
  destruct (negb _); [discriminate | ].
  intro H. apply UtilSpec.hexPattern_spec in H. apply H.
Qed.

Section WithCurve.
Context {curve : Curve.t}.

Lemma fromString_toString (c : cryptogram) : fromString (toString c) = Ok c.
Proof.
  unfold fromString, toString.
  rewrite hex_has_no_comma by (apply valid_hex_digits, pointHex_valid).
  rewrite !pointHex_roundtrip. destruct c. reflexivity.
Qed.

Lemma homomorphicallyAddCryptograms_wire (c1 c2 : cryptogram) :
  homomorphicallyAddCryptograms (toString c1) (Some (toString c2)) =
    Ok (toString (homomorphicallyAddCryptogram c1 c2)).
Proof.
  unfold homomorphicallyAddCryptograms. cbn [orThrow andThen].
  rewrite !fromString_toString. reflexivity.
Qed.

Lemma padd_zero_l (a : point) : padd pzero a = a.
Proof. rewrite padd_comm. apply padd_zero. Qed.

Lemma padd_cancel (a b : point) : padd (padd a b) (pneg b) = a.
Proof. rewrite <- padd_assoc, padd_neg. apply padd_zero. Qed.

(** The sum of an encryption of [m] and an empty cryptogram opens to [m]
    under the sum of the two randomizers. *)
Lemma open_sum (pk m : point) (rv rb : Z) :
  openWithRandomizer pk
    (homomorphicallyAddCryptogram (encryptPoint pk m rv) (emptyCryptogram pk rb))
    ((rv + rb) mod order) = m.
Proof.
  unfold openWithRandomizer, homomorphicallyAddCryptogram, emptyCryptogram, encryptPoint.
  cbn [ciphertext_point]. rewrite pmul_add, padd_zero_l.
  rewrite <- (padd_assoc m). apply padd_cancel.
Qed.

(** Slot by slot: the voter encrypts the blocks, the board adds its empty
    cryptograms, and opening the sums with the two randomizers gives the
    blocks back. *)
Lemma slots_roundtrip (pk : point) (blocks : list (list Z)) :
  forall voter board : list Z,
    List.length voter = List.length blocks ->
    List.length board = List.length blocks ->
    Forall (fun block => List.length block = blockSize /\
                         Forall (fun b => 0 <= b < 256)%Z block) blocks ->
    Forall (fun r => 0 <= r < order)%Z voter ->
    Forall (fun r => 0 <= r < order)%Z board ->
    exists voterCryptograms combined,
      encryptBlocks pk blocks voter = Ok voterCryptograms /\
      combineSlots voterCryptograms
        (Some (map (fun r => toString (emptyCryptogram pk r)) board)) = Ok combined /\
      decryptBlocks pk combined (map bignumToHex board) (map bignumToHex voter) =
        Ok blocks.
Proof.
  induction blocks as [| block blocks IH]; intros voter board Hv Hb Hblocks Hrv Hrb.
  - exists [], []. repeat split.
  - destruct voter as [| rv voter]; [discriminate Hv | ].
    destruct board as [| rb board]; [discriminate Hb | ].
    inversion Hblocks as [| ? ? [Hlen Hbytes] Hblocks']; subst.
    inversion Hrv as [| ? ? Hrv0 Hrv']; subst.
    inversion Hrb as [| ? ? Hrb0 Hrb']; subst.
    destruct (IH voter board) as (vcs & combined & Henc & Hcomb & Hdec);
      try assumption; [simpl in Hv; lia | simpl in Hb; lia | ].
    exists (toString (encryptPoint pk (bytesToPoint block) rv) :: vcs).
    exists (toString (homomorphicallyAddCryptogram
                        (encryptPoint pk (bytesToPoint block) rv)
                        (emptyCryptogram pk rb)) :: combined).
    split; [ | split ].
    + cbn [encryptBlocks hd_error tl orThrow andThen]. rewrite Henc. reflexivity.
    + cbn [combineSlots map hd_error tl orThrow andThen].
      rewrite homomorphicallyAddCryptograms_wire. cbn [andThen].
      rewrite Hcomb. reflexivity.
    + cbn [decryptBlocks map hd_error tl]. unfold decryptBlock.
      rewrite fromString_toString. cbn [andThen option_map orThrow].
      rewrite !bignumHex_roundtrip by assumption. cbn [andThen orThrow].
      rewrite open_sum, block_roundtrip by assumption.
      rewrite Hdec. reflexivity.
Qed.

End WithCurve.

End CryptogramFacts.

(* ================================================================== *)
(** * Objects as maps, and mapping with failure *)
(* ================================================================== *)

Module JsFacts.
Import Js.

Lemma setProp_new {V : Type} (o : obj V) (k : string) (v : V) :
  ~ In k (keys o) -> setProp o k v = (o ++ [(k, v)])%list.
Proof.
  induction o as [| [k' v'] o IH]; intro H; [reflexivity | ].
  simpl in *. destruct (String.eqb_spec k' k) as [-> | _].
  - exfalso. apply H. left. reflexivity.
  - rewrite IH; [reflexivity | ]. intro Hin. apply H. right. exact Hin.
Qed.

Lemma fromEntries_from {V : Type} (entries acc : obj V) :
  NoDup (keys (acc ++ entries)) ->
  fold_left (fun o kv => setProp o (fst kv) (snd kv)) entries acc = (acc ++ entries)%list.
Proof.
  revert acc. induction entries as [| [k v] entries IH]; intros acc H.
  - symmetry. apply app_nil_r.
  - cbn [fold_left fst snd]. rewrite setProp_new.
    + rewrite IH; rewrite <- app_assoc; [reflexivity | exact H].
    + unfold keys in *. rewrite map_app in H. apply NoDup_remove_2 in H.
      intro Hin. apply H. apply in_or_app. left. exact Hin.
Qed.

(** An entry list without repeated keys is the object it builds. *)
Lemma fromEntries_nodup {V : Type} (entries : obj V) :
  NoDup (keys entries) -> fromEntries entries = entries.
Proof. intro H. unfold fromEntries. apply (fromEntries_from entries []). exact H. Qed.

Lemma get_map_key {A V : Type} (key : A -> string) (val : A -> V) (l : list A) (a : A) :
  NoDup (map key l) -> In a l ->
  get (map (fun x => (key x, val x)) l) (key a) = Some (val a).
Proof.
  induction l as [| x l IH]; intros Hnd Hin; [contradiction | ].
  inversion Hnd as [| ? ? Hx Hnd']; subst. cbn [map get].
  destruct Hin as [-> | Hin].
  - rewrite String.eqb_refl. reflexivity.
  - destruct (String.eqb_spec (key x) (key a)) as [E | _].
    + exfalso. apply Hx. rewrite E. apply in_map. exact Hin.
    + apply IH; assumption.
Qed.

Lemma traverse_map {A B C : Type} (f : B -> result C) (h : A -> B) (l : list A) :
  traverse f (map h l) = traverse (fun a => f (h a)) l.
Proof.
  induction l as [| a l IH]; [reflexivity | ]. cbn [map traverse]. rewrite IH. reflexivity.
Qed.

Lemma traverse_ok_map {A B : Type} (f : A -> result B) (g : A -> B) (l : list A) :
  (forall a, In a l -> f a = Ok (g a)) -> traverse f l = Ok (map g l).
Proof.
  induction l as [| a l IH]; intro H; [reflexivity | ].
  cbn [traverse map]. rewrite (H a (or_introl eq_refl)). cbn [andThen].
  rewrite IH; [reflexivity | ]. intros x Hx. apply H. right. exact Hx.
Qed.

Lemma valueOr_ok {A : Type} (d : A) (r : result A) :
  (exists a, r = Ok a) -> r = Ok (valueOr d r).
Proof. intros [a ->]. reflexivity. Qed.

End JsFacts.

(* ================================================================== *)
(** * Decrypting the sum of the two shares *)
(* ================================================================== *)

Module DecryptionSpec.
Import Js JsFacts Bytes Curve ElGamalPointCryptogram DecryptHelpers ContestCodec
  ContestCodecFacts VoteCryptography CryptogramFacts.
Local Open Scope string_scope.

Lemma fromEntries_of_map {A E V : Type} (key : A -> string) (h : A -> E)
    (ref : E -> string) (val : E -> V) (l : list A) :
  (forall a, In a l -> ref (h a) = key a) ->
  NoDup (map key l) ->
  fromEntries (map (fun e => (ref e, val e)) (map h l)) =
    map (fun a => (key a, val (h a))) l.
Proof.
  intros Href Hnd. rewrite map_map.
  rewrite (map_ext_in (fun a => (ref (h a), val (h a))) (fun a => (key a, val (h a)))).
  - apply fromEntries_nodup. unfold keys. rewrite map_map. exact Hnd.
  - intros a Ha. rewrite (Href a Ha). reflexivity.
Qed.

Section WithCurve.
Context {curve : Curve.t}.

(** One contest: the voter's envelope exists, the board's empty share can
    be added slot by slot, and the sum decrypts and decodes to the
    selection. *)
Lemma contest_roundtrip (contestConfigs : obj ContestConfig.t) (pk : point)
    (contestReference : string) (selection : OptionSelection.t)
    (config : ContestConfig.t) (voter board : list Z) :
  get contestConfigs contestReference = Some config ->
  validSelection blockSize config selection ->
  validRandomizers config voter ->
  validRandomizers config board ->
  exists envelope combined blocks,
    encryptContestSelection contestConfigs pk contestReference selection voter =
      Ok envelope /\
    ContestEnvelope.reference envelope = contestReference /\
    ContestEnvelope.randomizers envelope = map bignumToHex voter /\
    combineSlots (ContestEnvelope.cryptograms envelope)
      (Some (ContestEnvelope.cryptograms (emptyEnvelope pk contestReference board))) =
      Ok combined /\
    decryptBlocks pk combined (map bignumToHex board) (map bignumToHex voter) = Ok blocks /\
    decodeSelection config (List.concat blocks) = Ok selection.
Proof.
  intros Hconfig Hsel [Hvlen Hvrange] [Hblen Hbrange].
  destruct (encodeSelection_roundtrip blockSize config selection Hsel)
    as (blocks & Henc & Hcount & Hblocks & Hdec).
  destruct (slots_roundtrip pk blocks voter board) as (vcs & combined & H1 & H2 & H3);
    try assumption; try congruence.
  exists {| ContestEnvelope.reference := contestReference;
            ContestEnvelope.cryptograms := vcs;
            ContestEnvelope.randomizers := map bignumToHex voter |}, combined, blocks.
  repeat split; try assumption.
  unfold encryptContestSelection. rewrite Hconfig. cbn [orThrow andThen].
  rewrite Henc. cbn [andThen]. rewrite H1. reflexivity.
Qed.

(** C1. For a cast-vote-record that is valid for the contest
    configurations, with randomizers of the voter and of the board for
    every slot: the voter's encryption succeeds, the board's empty share
    can be added to it slot by slot, and decrypting the sums with the two
    commitment openings and the election encryption key gives, contest by
    contest, exactly the selection of the record, write-in text
    included. *)
Theorem decrypt_sum_reproduces_record (contestConfigs : obj ContestConfig.t)
    (encryptionKey : string) (pk : point) (cvr : obj OptionSelection.t)
    (voterRandomizers boardRandomizers : obj (list Z)) :
  pointFromHex encryptionKey = Some pk ->
  validRecord contestConfigs cvr voterRandomizers boardRandomizers ->
  exists voterEnvelopes boardEnvelopes cryptograms,
    encryptContestSelections contestConfigs pk cvr voterRandomizers = Ok voterEnvelopes /\
    emptyEnvelopes pk (keys cvr) boardRandomizers = Ok boardEnvelopes /\
    prepareCombinedCryptograms voterEnvelopes boardEnvelopes = Ok cryptograms /\
    decryptContestSelections contestConfigs encryptionKey cryptograms
      (dummyCommitmentOpening boardEnvelopes) (dummyCommitmentOpening voterEnvelopes) =
      Ok (map (fun entry =>
                 {| ContestSelection.reference := fst entry;
                    ContestSelection.optionSelections := [snd entry] |}) cvr).
Proof.
  intros Hkey [Hnd Hall]. unfold keys in Hnd.
  set (dE := emptyEnvelope pk "" []).
  set (fenc := fun entry : string * OptionSelection.t =>
                 andThen (orThrow (get voterRandomizers (fst entry))
                                  (PlainError "Missing randomizer"))
                         (fun rs => encryptContestSelection contestConfigs pk
                                      (fst entry) (snd entry) rs)).
  set (fempty := fun contestReference : string =>
                   andThen (orThrow (get boardRandomizers contestReference)
                                    (PlainError "Missing randomizer"))
                           (fun rs => Ok (emptyEnvelope pk contestReference rs))).
  set (venv := fun entry => valueOr dE (fenc entry)).
  set (benv := fun entry : string * OptionSelection.t => valueOr dE (fempty (fst entry))).
  set (comb := fun entry =>
                 valueOr [] (combineSlots (ContestEnvelope.cryptograms (venv entry))
                               (Some (ContestEnvelope.cryptograms (benv entry))))).
  assert (P : forall entry, In entry cvr ->
            exists config voter board blocks,
              get contestConfigs (fst entry) = Some config /\
              fenc entry = Ok (venv entry) /\
              fempty (fst entry) = Ok (benv entry) /\
              ContestEnvelope.reference (venv entry) = fst entry /\
              ContestEnvelope.reference (benv entry) = fst entry /\
              ContestEnvelope.randomizers (venv entry) = map bignumToHex voter /\
              ContestEnvelope.randomizers (benv entry) = map bignumToHex board /\
              combineSlots (ContestEnvelope.cryptograms (venv entry))
                (Some (ContestEnvelope.cryptograms (benv entry))) = Ok (comb entry) /\
              decryptBlocks pk (comb entry) (map bignumToHex board)
                            (map bignumToHex voter) = Ok blocks /\
              decodeSelection config (List.concat blocks) = Ok (snd entry)).
  { intros [c sel] Hin.
    destruct (Hall c sel Hin) as (config & voter & board & Hc & Hs & Hv & Hb & Hvr & Hbr).
    destruct (contest_roundtrip contestConfigs pk c sel config voter board Hc Hs Hvr Hbr)
      as (envelope & combined & blocks & E1 & E2 & E3 & E4 & E5 & E6).
    exists config, voter, board, blocks. cbn [fst snd].
    assert (Fenc : fenc (c, sel) = Ok envelope).
    { unfold fenc. cbn [fst snd]. rewrite Hv. exact E1. }
    assert (Fempty : fempty c = Ok (emptyEnvelope pk c board)).
    { unfold fempty. rewrite Hb. reflexivity. }
    assert (Venv : venv (c, sel) = envelope).
    { unfold venv. rewrite Fenc. reflexivity. }
    assert (Benv : benv (c, sel) = emptyEnvelope pk c board).
    { unfold benv. cbn [fst]. rewrite Fempty. reflexivity. }
    assert (Comb : comb (c, sel) = combined).
    { unfold comb. rewrite Venv, Benv, E4. reflexivity. }
    rewrite Venv, Benv, Comb. repeat split; assumption. }
  assert (Rv : forall entry, In entry cvr ->
                 ContestEnvelope.reference (venv entry) = fst entry).
  { intros entry Hin. destruct (P entry Hin) as (? & ? & ? & ? & H). apply H. }
  assert (Rb : forall entry, In entry cvr ->
                 ContestEnvelope.reference (benv entry) = fst entry).
  { intros entry Hin. destruct (P entry Hin) as (? & ? & ? & ? & H). apply H. }
  exists (map venv cvr), (map benv cvr), (map (fun entry => (fst entry, comb entry)) cvr).
  split; [ | split; [ | split ] ].
  - unfold encryptContestSelections. apply traverse_ok_map.
    intros entry Hin. destruct (P entry Hin) as (? & ? & ? & ? & H). apply H.
  - unfold emptyEnvelopes, keys. rewrite traverse_map. apply traverse_ok_map.
    intros entry Hin. destruct (P entry Hin) as (? & ? & ? & ? & H). apply H.
  - unfold prepareCombinedCryptograms.
    rewrite (fromEntries_of_map fst venv ContestEnvelope.reference
               ContestEnvelope.cryptograms cvr Rv Hnd).
    rewrite (fromEntries_of_map fst benv ContestEnvelope.reference
               ContestEnvelope.cryptograms cvr Rb Hnd).
    unfold keys. rewrite map_map. cbn [fst]. rewrite traverse_map.
    rewrite (traverse_ok_map _ (fun entry => (fst entry, comb entry))).
    + cbn [andThen]. f_equal. apply fromEntries_nodup.
      unfold keys. rewrite map_map. exact Hnd.
    + intros entry Hin.
      rewrite (get_map_key fst (fun a => ContestEnvelope.cryptograms (venv a)) cvr entry Hnd Hin).
      rewrite (get_map_key fst (fun a => ContestEnvelope.cryptograms (benv a)) cvr entry Hnd Hin).
      cbn [orThrow andThen].
      destruct (P entry Hin) as (? & ? & ? & ? & H). 
      destruct H as (_ & _ & _ & _ & _ & _ & _ & H & _). rewrite H. reflexivity.
  - unfold decryptContestSelections. rewrite Hkey. cbn [orThrow andThen].
    rewrite traverse_map. apply traverse_ok_map.
    intros entry Hin. cbn [fst snd].
    destruct (P entry Hin) as (config & voter & board & blocks & Hc & _ & _ & _ & _
                               & Hrv & Hrb & _ & Hdec & Hsel).
    rewrite Hc. cbn [orThrow andThen].
    unfold dummyCommitmentOpening. cbn [CommitmentOpening.randomizers].
    rewrite (fromEntries_of_map fst venv ContestEnvelope.reference
               ContestEnvelope.randomizers cvr Rv Hnd).
    rewrite (fromEntries_of_map fst benv ContestEnvelope.reference
               ContestEnvelope.randomizers cvr Rb Hnd).
    rewrite (get_map_key fst (fun a => ContestEnvelope.randomizers (venv a)) cvr entry Hnd Hin).
    rewrite (get_map_key fst (fun a => ContestEnvelope.randomizers (benv a)) cvr entry Hnd Hin).
    cbn [orThrow andThen]. rewrite Hrv, Hrb, Hdec. cbn [andThen].
    rewrite Hsel. reflexivity.
Qed.

End WithCurve.

End DecryptionSpec.

(* ================================================================== *)
(** * The small group satisfies the laws *)
(* ================================================================== *)

Module ToyCurveFacts.
Import Js ToyCurve VoteCryptography DecryptHelpers.
Local Open Scope string_scope.

Lemma xor_assoc (a b c : ascii) : xor a (xor b c) = xor (xor a b) c.
Proof.
  destruct a, b, c. simpl. f_equal; symmetry; apply xorb_assoc.
Qed.

Lemma xor_comm (a b : ascii) : xor a b = xor b a.
Proof. destruct a, b. simpl. f_equal; apply xorb_comm. Qed.

Lemma xor_zero (a : ascii) : xor a zero = a.
Proof. destruct a. simpl. f_equal; apply xorb_false_r. Qed.

Lemma xor_self (a : ascii) : xor a a = zero.
Proof. destruct a. simpl. unfold zero. f_equal; apply xorb_nilpotent. Qed.

Lemma scale_add (a b : Z) (p : ascii) :
  scale ((a + b) mod 2) p = xor (scale a p) (scale b p).
Proof.
  unfold scale. rewrite Zmod_odd, Z.odd_add.
  destruct (Z.odd a), (Z.odd b); cbn [xorb];
    [rewrite xor_self | rewrite xor_zero | rewrite xor_comm, xor_zero | rewrite xor_zero];
    reflexivity.
Qed.

Lemma toHex_valid (p : ascii) : Util.isValidHexString (Util.units (toHex p)) = true.
Proof. destruct p as [[] [] [] [] [] [] [] []]; reflexivity. Qed.

Lemma toHex_roundtrip (p : ascii) : fromHex (toHex p) = Some p.
Proof. destruct p as [[] [] [] [] [] [] [] []]; reflexivity. Qed.

Lemma scalarHex_roundtrip (z : Z) :
  (0 <= z < 2)%Z -> scalarFromHex (scalarToHex z) = Some z.
Proof.
  intro H. assert (E : z = 0%Z \/ z = 1%Z) by lia. destruct E as [-> | ->]; reflexivity.
Qed.

Lemma block_roundtrip (bs : list Z) :
  List.length bs = 1 -> Forall (fun b => 0 <= b < 256)%Z bs ->
  pointToBlock (blockToPoint bs) = bs.
Proof.
  destruct bs as [| b [| b' bs]]; try discriminate. intros _ H.
  inversion H as [| ? ? Hb _]; subst.
  unfold pointToBlock, blockToPoint.
  rewrite N_ascii_embedding by lia. rewrite Z2N.id by lia. reflexivity.
Qed.

(** The bytes under exclusive or as a curve for the protocol. *)
Definition curve : Curve.t :=
  {| Curve.point := ascii;
     Curve.padd := xor;
     Curve.pneg := fun p => p;
     Curve.pzero := zero;
     Curve.pmul := scale;
     Curve.generator := "g"%char;
     Curve.order := 2;
     Curve.pointToHex := toHex;
     Curve.pointFromHex := fromHex;
     Curve.bignumToHex := scalarToHex;
     Curve.bignumFromHex := scalarFromHex;
     Curve.blockSize := 1;
     Curve.bytesToPoint := blockToPoint;
     Curve.pointToBytes := pointToBlock;
     Curve.padd_assoc := xor_assoc;
     Curve.padd_comm := xor_comm;
     Curve.padd_zero := xor_zero;
     Curve.padd_neg := xor_self;
     Curve.pmul_add := scale_add;
     Curve.pointHex_valid := toHex_valid;
     Curve.pointHex_roundtrip := toHex_roundtrip;
     Curve.bignumHex_roundtrip := scalarHex_roundtrip;
     Curve.block_roundtrip := block_roundtrip |}.

Lemma decrypt_sum_reproduces_record_witness :
  exists voterEnvelopes boardEnvelopes cryptograms,
    encryptContestSelections (curve := curve) contestConfigs "k"%char cvr voterRandomizers
      = Ok voterEnvelopes /\
    emptyEnvelopes (curve := curve) "k"%char (keys cvr) boardRandomizers
      = Ok boardEnvelopes /\
    prepareCombinedCryptograms (curve := curve) voterEnvelopes boardEnvelopes
      = Ok cryptograms /\
    decryptContestSelections (curve := curve) contestConfigs encryptionKey cryptograms
      (dummyCommitmentOpening boardEnvelopes) (dummyCommitmentOpening voterEnvelopes)
      = Ok expectedSelections.
Proof.
  apply (DecryptionSpec.decrypt_sum_reproduces_record (curve := curve)
           contestConfigs encryptionKey "k"%char cvr voterRandomizers boardRandomizers).
  - reflexivity.
  - split.
    + repeat constructor. simpl. tauto.
    + intros c sel [E | []]. injection E as <- <-.
      exists contest, [1; 0; 1; 1]%Z, [0; 1; 1; 0]%Z.
      split; [reflexivity | split; [ | split; [reflexivity | split; [reflexivity | ] ] ] ].
      * exists {| ContestOption.reference := "option-1"; ContestOption.code := 1;
                  ContestOption.writeIn :=
                    Some {| WriteIn.maxSize := 3; WriteIn.encoding := "utf8" |} |}.
        split; [reflexivity | split; [reflexivity | split; [simpl; lia | ] ] ].
        split; [ | simpl; lia].
        split; [reflexivity | split; [ | simpl; lia] ].
        repeat constructor; unfold Bytes.isScalarValue; lia.
      * split; split; try reflexivity; repeat constructor; simpl; lia.
Defined.

(** The same run, computed: the envelopes on the wire and the
    selections read back. *)
Example toy_decryption :
  andThen (encryptContestSelections (curve := curve) contestConfigs "k"%char cvr
                                     voterRandomizers)
    (fun voterEnvelopes =>
       andThen (emptyEnvelopes (curve := curve) "k"%char (keys cvr) boardRandomizers)
         (fun boardEnvelopes =>
            andThen (prepareCombinedCryptograms (curve := curve)
                       voterEnvelopes boardEnvelopes)
              (fun cryptograms =>
                 andThen (decryptContestSelections (curve := curve) contestConfigs
                            encryptionKey cryptograms
                            (dummyCommitmentOpening boardEnvelopes)
                            (dummyCommitmentOpening voterEnvelopes))
                   (fun selections => Ok (cryptograms, selections)))))
  = Ok ([("big-contest", ["67,6a"; "67,03"; "00,69"; "67,6b"])], expectedSelections).
Proof. vm_compute. reflexivity. Qed.

End ToyCurveFacts.

(* ================================================================== *)
(** * Objects: reading after writing *)
(* ================================================================== *)

Module ObjectFacts.
Import Js.

(** Case analysis on the innermost scrutinee of the goal, as long as
    there is one. *)
Ltac cases :=
  repeat first
    [ progress cbv beta iota
    | match goal with
      | |- context [match ?x with _ => _ end] =>
          lazymatch x with
          | context [match _ with _ => _ end] => fail
          | _ => destruct x eqn:?
          end
      end ].

Lemma get_setProp_same {V : Type} (o : obj V) (k : string) (v : V) :
  get (setProp o k v) k = Some v.
Proof.
  induction o as [| [k' v'] o IH]; cbn [setProp get].
  - rewrite String.eqb_refl. reflexivity.
  - destruct (String.eqb k' k) eqn:E; cbn [get].
    + rewrite String.eqb_refl. reflexivity.
    + rewrite E. exact IH.
Qed.

Lemma get_setProp_other {V : Type} (o : obj V) (k k' : string) (v : V) :
  k' <> k -> get (setProp o k v) k' = get o k'.
Proof.
  intro N. induction o as [| [k0 v0] o IH]; cbn [setProp get].
  - destruct (String.eqb_spec k k'); [congruence | reflexivity].
  - destruct (String.eqb_spec k0 k) as [-> | N0]; cbn [get].
    + destruct (String.eqb_spec k k'); [congruence | reflexivity].
    + destruct (String.eqb k0 k'); [reflexivity | exact IH].
Qed.

Lemma get_app {V : Type} (o1 o2 : obj V) (k : string) :
  get (o1 ++ o2) k = match get o1 k with Some v => Some v | None => get o2 k end.
Proof.
  induction o1 as [| [k' v'] o1 IH]; [reflexivity | ].
  cbn [app get]. destruct (String.eqb k' k); [reflexivity | exact IH].
Qed.

Lemma get_fold_setProp {V : Type} (entries acc : obj V) (k : string) :
  get (fold_left (fun o kv => setProp o (fst kv) (snd kv)) entries acc) k =
    match get (rev entries) k with
    | Some v => Some v
    | None => get acc k
    end.
Proof.
  revert acc. induction entries as [| [k' v'] entries IH]; intro acc; [reflexivity | ].
  cbn [fold_left fst snd rev]. rewrite IH, get_app. cbn [get].
  destruct (get (rev entries) k); [reflexivity | ].
  destruct (String.eqb_spec k' k) as [-> | N].
  - apply get_setProp_same.
  - apply get_setProp_other. congruence.
Qed.

(** In the object built from a list of entries a key has the value of
    its last entry. *)
Lemma get_fromEntries {V : Type} (entries : obj V) (k : string) :
  get (fromEntries entries) k = get (rev entries) k.
Proof.
  unfold fromEntries. rewrite get_fold_setProp.
  destruct (get (rev entries) k); reflexivity.
Qed.

Lemma get_map_self_in {V : Type} (f : string -> V) (l : list string) (k : string) :
  In k l -> get (map (fun x => (x, f x)) l) k = Some (f k).
Proof.
  induction l as [| x l IH]; intro H; [contradiction | ].
  cbn [map get]. destruct (String.eqb_spec x k) as [-> | N]; [reflexivity | ].
  apply IH. destruct H as [E | H]; [contradiction | exact H].
Qed.

Lemma get_map_self_out {V : Type} (f : string -> V) (l : list string) (k : string) :
  ~ In k l -> get (map (fun x => (x, f x)) l) k = None.
Proof.
  induction l as [| x l IH]; intro H; [reflexivity | ].
  cbn [map get]. destruct (String.eqb_spec x k) as [-> | N].
  - exfalso. apply H. left. reflexivity.
  - apply IH. intro K. apply H. right. exact K.
Qed.

Lemma get_fromEntries_self_in {V : Type} (f : string -> V) (l : list string) (k : string) :
  In k l -> get (fromEntries (map (fun x => (x, f x)) l)) k = Some (f k).
Proof.
  intro H. rewrite get_fromEntries, <- map_rev. apply get_map_self_in.
  apply in_rev in H. exact H.
Qed.

Lemma get_fromEntries_self_out {V : Type} (f : string -> V) (l : list string) (k : string) :
  ~ In k l -> get (fromEntries (map (fun x => (x, f x)) l)) k = None.
Proof.
  intro H. rewrite get_fromEntries, <- map_rev. apply get_map_self_out.
  intro K. apply H. apply in_rev. exact K.
Qed.

Lemma traverse_fails {A B : Type} (g : A -> result B) (l : list A) (x : exn) :
  (forall a e, g a = Fail e -> e = x) ->
  (exists a e, In a l /\ g a = Fail e) ->
  traverse g l = Fail x.
Proof.
  intros Hx. induction l as [| a l IH]; intros (b & e & Hin & Hb); [contradiction | ].
  cbn [traverse]. destruct (g a) as [v | e'] eqn:Ha.
  - cbn [andThen]. rewrite IH; [reflexivity | ].
    destruct Hin as [-> | Hin]; [congruence | ]. exists b, e. split; assumption.
  - cbn [andThen]. rewrite (Hx a e' Ha). reflexivity.
Qed.

End ObjectFacts.

(* ================================================================== *)
(** * Validation of the election configuration *)
(* ================================================================== *)

Module ElectionConfigSpec.
Import Js Effects EffectsFacts ElectionConfigOps Lifecycle.
Local Open Scope string_scope.

Lemma lengthPositive_present (o : option string) :
  lengthPositive o = true <-> present o.
Proof.
  unfold lengthPositive, present. destruct o as [x | ].
  - destruct x as [| a x]; simpl; split.
    + discriminate.
    + intros (y & E & N). injection E as <-. contradiction.
    + intros _. eexists. split; [reflexivity | discriminate].
    + reflexivity.
  - split; [discriminate | intros (y & E & _); discriminate].
Qed.

Lemma service_field_true sel field config :
  service_field sel field config = true <->
  exists svcs svc, ElectionConfig.services config = Some svcs /\ sel svcs = Some svc /\
                   present (field svc).
Proof.
  unfold service_field. split.
  - destruct (ElectionConfig.services config) as [svcs | ]; [ | discriminate].
    destruct (sel svcs) as [svc | ] eqn:F; [ | discriminate].
    intro H. exists svcs, svc. rewrite <- lengthPositive_present. auto.
  - intros (svcs & svc & -> & -> & H). apply lengthPositive_present, H.
Qed.

Lemma configErrors_nil (config : ElectionConfig.t) :
  configErrors config = [] <->
  containsOTPProviderURL config && containsOTPProviderContextId config
  && containsOTPProviderPublicKey config && containsVoterAuthorizerURL config
  && containsVoterAuthorizerContextId config
  && containsVoterAuthorizerPublicKey config = true.
Proof.
  unfold configErrors.
  destruct (containsOTPProviderURL config), (containsOTPProviderContextId config),
    (containsOTPProviderPublicKey config), (containsVoterAuthorizerURL config),
    (containsVoterAuthorizerContextId config), (containsVoterAuthorizerPublicKey config);
    simpl; split; intro H; try reflexivity; discriminate H.
Qed.

Lemma validate_run {St : Type} (config : ElectionConfig.t) (s : St) (tr : history) :
  validateElectionConfig config s tr =
    match configErrors config with
    | [] => (Ok tt, s, tr)
    | errors =>
        (Fail (InvalidConfigError
                 ("Received invalid election configuration. Errors: "
                  ++ join ("," ++ newline) errors)), s, tr)
    end.
Proof.
  unfold validateElectionConfig. destruct (configErrors config); reflexivity.
Qed.

(** X1. [validateElectionConfig] accepts a configuration exactly when it
    names both services and each of them has an address, an election
    context and a public key that are there and not empty. It leaves the
    state and the trace as they are. *)
Theorem validateElectionConfig_accepts_iff {St : Type} (config : ElectionConfig.t)
    (s : St) (tr : history) :
  validateElectionConfig config s tr = (Ok tt, s, tr) <->
  exists services voter_authorizer otp_provider,
    ElectionConfig.services config = Some services /\
    Services.voter_authorizer services = Some voter_authorizer /\
    Services.otp_provider services = Some otp_provider /\
    present (Service.url otp_provider) /\
    present (Service.election_context_uuid otp_provider) /\
    present (Service.public_key otp_provider) /\
    present (Service.url voter_authorizer) /\
    present (Service.election_context_uuid voter_authorizer) /\
    present (Service.public_key voter_authorizer).
Proof.
  rewrite validate_run.
  assert (E : configErrors config = [] <->
              validateElectionConfig config s tr = (Ok tt, s, tr)).
  { rewrite validate_run. destruct (configErrors config); split; intro H;
      try reflexivity; discriminate H. }
  rewrite validate_run in E. rewrite <- E, configErrors_nil. clear E.
  rewrite !andb_true_iff.
  unfold containsOTPProviderURL, containsOTPProviderContextId,
    containsOTPProviderPublicKey, containsVoterAuthorizerURL,
    containsVoterAuthorizerContextId, containsVoterAuthorizerPublicKey.
  rewrite !service_field_true. split.
  - intros [[[[[(s1 & o1 & E1 & F1 & P1) (s2 & o2 & E2 & F2 & P2)]
               (s3 & o3 & E3 & F3 & P3)] (s4 & v4 & E4 & F4 & P4)]
             (s5 & v5 & E5 & F5 & P5)] (s6 & v6 & E6 & F6 & P6)].
    assert (s2 = s1) by congruence. assert (s3 = s1) by congruence.
    assert (s4 = s1) by congruence. assert (s5 = s1) by congruence.
    assert (s6 = s1) by congruence. subst.
    assert (o2 = o1) by congruence. assert (o3 = o1) by congruence.
    assert (v5 = v4) by congruence. assert (v6 = v4) by congruence. subst.
    exists s1, v4, o1. repeat split; assumption.
  - intros (sv & va & otp & E & F1 & F2 & P1 & P2 & P3 & P4 & P5 & P6).
    repeat split; exists sv; first [exists otp; now auto | exists va; now auto].
Qed.

(** X2. What [validateElectionConfig] reports: the message of each
    field that is missing, in the order provider address, provider
    context, provider key, authorizer address, authorizer context,
    authorizer key, joined by a comma and a line break after the fixed
    opening; it throws an [InvalidConfigError] with that text when at
    least one field is missing and returns otherwise. *)
Theorem validateElectionConfig_reports_missing {St : Type} (config : ElectionConfig.t)
    (s : St) (tr : history) :
  let missing :=
    map snd
      (filter (fun check => negb (fst check config))
         [ (containsOTPProviderURL, "Configuration is missing OTP Provider URL");
           (containsOTPProviderContextId,
            "Configuration is missing OTP Provider election context uuid");
           (containsOTPProviderPublicKey,
            "Configuration is missing OTP Provider public key");
           (containsVoterAuthorizerURL, "Configuration is missing Voter Authorizer URL");
           (containsVoterAuthorizerContextId,
            "Configuration is missing Voter Authorizer election context uuid");
           (containsVoterAuthorizerPublicKey,
            "Configuration is missing Voter Authorizer public key") ]) in
  validateElectionConfig config s tr =
    match missing with
    | [] => (Ok tt, s, tr)
    | _ :: _ =>
        (Fail (InvalidConfigError
                 ("Received invalid election configuration. Errors: "
                  ++ join ("," ++ newline) missing)), s, tr)
    end.
Proof.
  intro missing. rewrite validate_run.
  assert (E : configErrors config = missing).
  { unfold missing, configErrors. cbn [filter fst snd map].
    destruct (containsOTPProviderURL config), (containsOTPProviderContextId config),
      (containsOTPProviderPublicKey config), (containsVoterAuthorizerURL config),
      (containsVoterAuthorizerContextId config),
      (containsVoterAuthorizerPublicKey config); reflexivity. }
  rewrite E. destruct missing; reflexivity.
Qed.

End ElectionConfigSpec.

(* ================================================================== *)
(** * The operations of the session, step by step *)
(* ================================================================== *)

Module SessionRuns.
Import Js Json Effects EffectsFacts CvrValidation AVClient AVClientSpec.
Local Open Scope string_scope.

Lemma bind_ret {St A B : Type} (a : A) (f : A -> Comp St B) (s : St) (tr : history) :
  bind (ret a) f s tr = f a s tr.
Proof. reflexivity. Qed.

Lemma bind_throw {St A B : Type} (e : exn) (f : A -> Comp St B) (s : St) (tr : history) :
  bind (throw e) f s tr = (Fail e, s, tr).
Proof. reflexivity. Qed.

Lemma bind_perform {St A B : Type} (ev : event) (answer : history -> result A)
    (f : A -> Comp St B) (s : St) (tr : history) :
  bind (perform ev answer) f s tr =
    match answer tr with
    | Ok a => f a s (tr ++ [ev])%list
    | Fail e => (Fail e, s, (tr ++ [ev])%list)
    end.
Proof. unfold bind, perform. destruct (answer tr); reflexivity. Qed.

Lemma bind_assoc {St A B C : Type} (m : Comp St A) (f : A -> Comp St B)
    (g : B -> Comp St C) (s : St) (tr : history) :
  bind (bind m f) g s tr = bind m (fun a => bind (f a) g) s tr.
Proof.
  unfold bind. destruct (m s tr) as [[[a | e] s1] tr1]; reflexivity.
Qed.

Lemma serviceUrl_run (which : Services.t -> option Service.t) (s : Session) (tr : history) :
  serviceUrl which s tr =
    match electionConfig s with
    | None => (Fail (InvalidStateError noConfigMessage), s, tr)
    | Some config =>
        match ElectionConfig.services config with
        | None => (Fail TypeError, s, tr)
        | Some services =>
            match which services with
            | None => (Fail TypeError, s, tr)
            | Some service => (Ok (Service.url service), s, tr)
            end
        end
    end.
Proof.
  unfold serviceUrl, getElectionConfig. rewrite bind_assoc, bind_read.
  destruct (electionConfig s) as [config | ]; [ | reflexivity].
  rewrite bind_ret.
  destruct (ElectionConfig.services config) as [services | ]; [ | reflexivity].
  simpl. rewrite bind_ret.
  destruct (which services); reflexivity.
Qed.

Section Runs.
Variable env : Env.

Lemma initialize_run (c : option ElectionConfig.t) (s : Session) (tr : history) :
  initialize env c s tr =
    let check (config : ElectionConfig.t) (tr' : history) :=
      match ElectionConfigOps.configErrors config with
      | [] => (Ok tt, set_electionConfig (Some config) s, tr')
      | errors =>
          (Fail (InvalidConfigError
                   ("Received invalid election configuration. Errors: "
                    ++ join ("," ++ newline) errors)), s, tr')
      end in
    match c with
    | Some config => check config tr
    | None =>
        match bb_getElectionConfig env tr with
        | Ok served =>
            check (ElectionConfig.with_affidavit
                     {| AffidavitConfig.curve := "k256";
                        AffidavitConfig.encryptionKey :=
                          "03e9858b6e48eb93d8f27aa76b60806298c4c7dd94077ad6c3ff97c44937888647" |}
                     served) (tr ++ [GetElectionConfig])%list
        | Fail e => (Fail e, s, (tr ++ [GetElectionConfig])%list)
        end
    end.
Proof.
  unfold initialize. cbv zeta. destruct c as [config | ].
  - rewrite bind_ret. unfold bind at 1. rewrite ElectionConfigSpec.validate_run.
    destruct (ElectionConfigOps.configErrors config); reflexivity.
  - unfold ElectionConfigOps.fetchElectionConfig. rewrite bind_assoc, bind_perform.
    destruct (bb_getElectionConfig env tr) as [served | e]; [ | reflexivity].
    rewrite bind_ret. unfold bind at 1. rewrite ElectionConfigSpec.validate_run.
    destruct (ElectionConfigOps.configErrors _); reflexivity.
Qed.

Lemma requestAccessCode_run (v e : string) (s : Session) (tr : history) :
  requestAccessCode env v e s tr =
    match serviceUrl Services.voter_authorizer s tr with
    | (Ok url, _, _) =>
        match vac_createSession env tr url v e with
        | Ok sessionId =>
            (Ok tt, set_email (Some e) (set_authorizationSessionId sessionId s),
             (tr ++ [CreateSession url v e])%list)
        | Fail x => (Fail x, s, (tr ++ [CreateSession url v e])%list)
        end
    | (Fail x, _, _) => (Fail x, s, tr)
    end.
Proof.
  unfold requestAccessCode. unfold bind at 1. rewrite serviceUrl_run.
  destruct (electionConfig s) as [config | ]; [ | reflexivity].
  destruct (ElectionConfig.services config) as [services | ]; [ | reflexivity].
  destruct (Services.voter_authorizer services) as [service | ]; [ | reflexivity].
  rewrite bind_perform. destruct (vac_createSession _ _ _ _ _); reflexivity.
Qed.

Lemma validateAccessCode_run (code : string) (s : Session) (tr : history) :
  validateAccessCode env code s tr =
    match email s with
    | Some (String a e) =>
        match serviceUrl Services.otp_provider s tr with
        | (Ok url, _, _) =>
            match otp_requestOTPAuthorization env tr url code (String a e) with
            | Ok token =>
                (Ok tt, set_identityConfirmationToken (Some token) s,
                 (tr ++ [RequestOTPAuthorization url code (String a e)])%list)
            | Fail x =>
                (Fail x, s, (tr ++ [RequestOTPAuthorization url code (String a e)])%list)
            end
        | (Fail x, _, _) => (Fail x, s, tr)
        end
    | _ =>
        (Fail (InvalidStateError
                 "Cannot validate access code. Access code was not requested."), s, tr)
    end.
Proof.
  unfold validateAccessCode. rewrite bind_read.
  destruct (email s) as [[| a e] | ]; try reflexivity.
  cbn [truthy_string negb String.eqb]. unfold bind at 1. rewrite serviceUrl_run.
  destruct (electionConfig s) as [config | ]; [ | reflexivity].
  destruct (ElectionConfig.services config) as [services | ]; [ | reflexivity].
  destruct (Services.otp_provider services) as [service | ]; [ | reflexivity].
  rewrite bind_perform. destruct (otp_requestOTPAuthorization _ _ _ _ _); reflexivity.
Qed.


Lemma authenticateWithCodes_run (codes : list string) (s : Session) (tr : history) :
  authenticateWithCodes env codes s tr =
    match electionConfig s with
    | None => (Fail (InvalidStateError noConfigMessage), s, tr)
    | Some config =>
        let id := Election.id (ElectionConfig.election config) in
        let key := ElectionConfig.encryptionKey config in
        match bb_authenticate env tr codes id key with
        | Ok r =>
            (Ok tt,
             set_emptyCryptograms (Some (AuthenticationResponse.emptyCryptograms r))
               (set_keyPair (Some (AuthenticationResponse.keyPair r))
                  (set_voterIdentifier (Some (AuthenticationResponse.voterIdentifier r)) s)),
             (tr ++ [Authenticate codes id key])%list)
        | Fail x => (Fail x, s, (tr ++ [Authenticate codes id key])%list)
        end
    end.
Proof.
  unfold authenticateWithCodes, AVClient.electionId, electionEncryptionKey,
    getElectionConfig.
  rewrite !bind_assoc, bind_read.
  destruct (electionConfig s) as [config | ] eqn:E; [ | reflexivity].
  rewrite !bind_ret, !bind_assoc, bind_read, E, !bind_ret, bind_perform.
  destruct (bb_authenticate _ _ _ _ _); reflexivity.
Qed.

Lemma generateTestCode_run (s : Session) (tr : history) :
  generateTestCode env s tr =
    (Ok tt, set_testCode (Some (Effects.generateTestCode env tr)) s,
     (tr ++ [GenerateTestCode])%list).
Proof. reflexivity. Qed.

Lemma registerVoter_run (s : Session) (tr : history) :
  registerVoter env s tr =
    match identityConfirmationToken s with
    | Some (String a t) =>
        let token := String a t in
        let kp := randomKeyPair env tr in
        let s1 := set_keyPair (Some kp) s in
        let tr1 := (tr ++ [RandomKeyPair])%list in
        match electionConfig s with
        | None => (Fail (InvalidStateError noConfigMessage), s1, tr1)
        | Some config =>
            match option_map Services.voter_authorizer (ElectionConfig.services config) with
            | Some (Some service) =>
                let url := Service.url service in
                let tr2 :=
                  (tr1 ++ [RequestPublicKeyAuthorization url (authorizationSessionId s)
                             token (KeyPair.publicKey kp)])%list in
                match vac_requestPublicKeyAuthorization env tr1 url
                        (authorizationSessionId s) token (KeyPair.publicKey kp) with
                | Fail x => (Fail x, s1, tr2)
                | Ok authorization =>
                    let registrationToken :=
                      AuthorizationData.registrationToken authorization in
                    let publicKeyToken := AuthorizationData.publicKeyToken authorization in
                    let key := ElectionConfig.encryptionKey config in
                    let tr3 :=
                      (tr2 ++ [RegisterVoter kp key registrationToken publicKeyToken])%list in
                    match bb_registerVoter env tr2 kp key registrationToken publicKeyToken with
                    | Fail x => (Fail x, s1, tr3)
                    | Ok r =>
                        (Ok tt,
                         set_contestIds (Some (RegisterVoterResponse.contestIds r))
                           (set_emptyCryptograms
                              (Some (RegisterVoterResponse.emptyCryptograms r))
                              (set_voterIdentifier
                                 (Some (RegisterVoterResponse.voterIdentifier r)) s1)),
                         tr3)
                    end
                end
            | _ => (Fail TypeError, s1, tr1)
            end
        end
    | _ =>
        (Fail (InvalidStateError
           "Cannot register voter without identity confirmation. User has not validated access code."),
         s, tr)
    end.
Proof.
  unfold registerVoter. rewrite bind_read.
  destruct (identityConfirmationToken s) as [[| a t] | ]; try reflexivity.
  cbn [truthy_string negb String.eqb]. cbv zeta.
  rewrite bind_perform_ok, bind_update. unfold bind at 1. rewrite serviceUrl_run.
  cbn [electionConfig set_keyPair].
  destruct (electionConfig s) as [config | ] eqn:E; [ | reflexivity].
  destruct (ElectionConfig.services config) as [services | ]; [ | reflexivity].
  cbn [option_map].
  destruct (Services.voter_authorizer services) as [service | ]; [ | reflexivity].
  rewrite bind_perform.
  destruct (vac_requestPublicKeyAuthorization _ _ _ _ _ _) as [authorization | x];
    [ | reflexivity].
  unfold getElectionConfig. rewrite bind_assoc, bind_read.
  cbn [electionConfig set_keyPair]. rewrite E, bind_ret, bind_perform.
  destruct (bb_registerVoter _ _ _ _ _ _); reflexivity.
Qed.

End Runs.
End SessionRuns.

(* ================================================================== *)
(** * The steps of a submission *)
(* ================================================================== *)

Module SubmissionRuns.
Import Js Json Effects EffectsFacts SubmitVotes SessionRuns.
Local Open Scope string_scope.

Section Runs.
Variable env : Env.
Context {St : Type}.

Lemma acknowledge_run (s : St) (tr : history) :
  acknowledge env s tr =
    match bb_getBoardHash env tr with
    | Fail x => (Fail x, s, (tr ++ [GetBoardHash])%list)
    | Ok data =>
        match BoardHashData.currentBoardHash data, BoardHashData.currentTime data with
        | Some (String a h), Some (String b t) =>
            (Ok {| AcknowledgedBoard.currentBoardHash := String a h;
                   AcknowledgedBoard.currentTime := String b t |},
             s, (tr ++ [GetBoardHash])%list)
        | _, _ =>
            (Fail (Rejection "Could not get latest board hash"), s,
             (tr ++ [GetBoardHash])%list)
        end
    end.
Proof.
  unfold acknowledge. rewrite bind_perform.
  destruct (bb_getBoardHash env tr) as [data | x]; [ | reflexivity].
  destruct (BoardHashData.currentBoardHash data) as [[| a h] | ];
    destruct (BoardHashData.currentTime data) as [[| b t] | ]; reflexivity.
Qed.

Lemma verifyReceipt_run (contentHash voterSignature : string) (receipt : Receipt.t)
    (signatureKey : string) (s : St) (tr : history) :
  verifyReceipt env contentHash voterSignature receipt signatureKey s tr =
    if String.eqb (computedBoardHash env contentHash receipt) (Receipt.boardHash receipt)
    then
      if verifySchnorrSignature env (Receipt.serverSignature receipt)
           (receiptHash env receipt voterSignature) signatureKey
      then (Ok tt, s, tr)
      else (Fail (Rejection "Invalid vote receipt: corrupt server signature"), s, tr)
    else (Fail (Rejection "Invalid vote receipt: corrupt board hash"), s, tr).
Proof.
  unfold verifyReceipt.
  destruct (String.eqb _ _); [ | reflexivity].
  destruct (verifySchnorrSignature _ _ _ _); reflexivity.
Qed.

(** The run of [signAndSubmitVotes] once the board has acknowledged. *)
Lemma signAndSubmitVotes_run (a : SignAndSubmitArguments) (s s1 : St)
    (tr tr1 : history) (ack : AcknowledgedBoard.t) :
  acknowledge env s tr = (Ok ack, s1, tr1) ->
  let contentHash :=
    hashString env (stringify (contentOf ack (electionId a) (voterIdentifier a)
                                         (votesOf (voteEncryptions a)))) in
  let cryptogramsWithProofs := cryptogramsWithProofsOf (voteEncryptions a) in
  let tr2 := (tr1 ++ [GenerateSchnorrSignature contentHash (privateKey a)])%list in
  signAndSubmitVotes env a s tr =
    match generateSchnorrSignature env tr1 contentHash (privateKey a) with
    | Fail x => (Fail x, s1, tr2)
    | Ok voterSignature =>
        let tr3 :=
          (tr2 ++ [SubmitVotes contentHash voterSignature cryptogramsWithProofs])%list in
        match bb_submitVotes env tr2 contentHash voterSignature cryptogramsWithProofs with
        | Fail x => (Fail x, s1, tr3)
        | Ok data =>
            match SubmitData.error data with
            | Some description => (Fail (Rejection description), s1, tr3)
            | None =>
                match verifyReceipt env contentHash voterSignature (receiptOf data)
                        (signatureKey a) s1 tr3 with
                | (Ok _, _, _) => (Ok (receiptOf data), s1, tr3)
                | (Fail x, _, _) => (Fail x, s1, tr3)
                end
            end
        end
    end.
Proof.
  intros Hack contentHash cryptogramsWithProofs tr2.
  unfold signAndSubmitVotes. rewrite (bind_ok _ _ _ _ _ _ _ Hack). cbv zeta.
  fold contentHash. fold cryptogramsWithProofs.
  clearbody contentHash cryptogramsWithProofs.
  unfold sign. rewrite bind_perform. fold tr2.
  destruct (generateSchnorrSignature env tr1 contentHash (privateKey a))
    as [voterSignature | x]; [ | reflexivity].
  unfold submit. rewrite bind_assoc, bind_perform.
  destruct (bb_submitVotes env tr2 contentHash voterSignature cryptogramsWithProofs)
    as [data | x]; [ | reflexivity].
  destruct (SubmitData.error data) as [description | ]; [reflexivity | ].
  rewrite bind_ret. unfold bind at 1. rewrite verifyReceipt_run.
  destruct (String.eqb _ _); [ | reflexivity].
  destruct (verifySchnorrSignature _ _ _ _); reflexivity.
Qed.

End Runs.
End SubmissionRuns.

Module SubmissionSpec.
Import Js Json Effects EffectsFacts SubmitVotes SessionRuns SubmissionRuns.
Local Open Scope string_scope.

Section Facts.
Variable env : Env.
Context {St : Type}.


(** X3. When the board answers the request for its hash without a hash
    or without a time, or with an empty one, [signAndSubmitVotes] rejects
    with 'Could not get latest board hash': nothing is signed and nothing
    is submitted. *)
Theorem unacknowledged_board_stops_submission (a : SignAndSubmitArguments)
    (s : St) (tr : history) (data : BoardHashData.t) :
  bb_getBoardHash env tr = Ok data ->
  truthy_string (BoardHashData.currentBoardHash data)
    && truthy_string (BoardHashData.currentTime data) = false ->
  signAndSubmitVotes env a s tr =
    (Fail (Rejection "Could not get latest board hash"), s, (tr ++ [GetBoardHash])%list).
Proof.
  intros Hdata Hfalsy. unfold signAndSubmitVotes.
  apply bind_fail. rewrite acknowledge_run, Hdata.
  destruct (BoardHashData.currentBoardHash data) as [[| x h] | ];
    destruct (BoardHashData.currentTime data) as [[| y t] | ];
    try reflexivity. discriminate Hfalsy.
Qed.

(** X4. When the board answers the submission with an error, the call
    rejects with the description of that error as its reason. The
    description is all that is passed on: no receipt is built and none is
    verified. *)
Theorem board_refusal_is_rejection_reason (a : SignAndSubmitArguments)
    (s s1 : St) (tr tr1 : history) (ack : AcknowledgedBoard.t)
    (voterSignature description : string) (data : SubmitData.t) :
  let contentHash :=
    hashString env (stringify (contentOf ack (electionId a) (voterIdentifier a)
                                         (votesOf (voteEncryptions a)))) in
  let signed := GenerateSchnorrSignature contentHash (privateKey a) in
  acknowledge env s tr = (Ok ack, s1, tr1) ->
  generateSchnorrSignature env tr1 contentHash (privateKey a) = Ok voterSignature ->
  bb_submitVotes env (tr1 ++ [signed])%list contentHash voterSignature
    (cryptogramsWithProofsOf (voteEncryptions a)) = Ok data ->
  SubmitData.error data = Some description ->
  signAndSubmitVotes env a s tr =
    (Fail (Rejection description), s1,
     ((tr1 ++ [signed]) ++
      [SubmitVotes contentHash voterSignature
         (cryptogramsWithProofsOf (voteEncryptions a))])%list).
Proof.
  intros contentHash signed Hack Hsign Hsubmit Herror.
  rewrite (signAndSubmitVotes_run env a s s1 tr tr1 ack Hack). cbv zeta.
  fold contentHash. fold signed. rewrite Hsign, Hsubmit, Herror. reflexivity.
Qed.


End Facts.

Lemma unacknowledged_board_stops_submission_witness :
  signAndSubmitVotes (Scenarios.withBoardHash Scenarios.boardWithoutHash (Demo.env true))
      Demo.submission tt [] =
    (Fail (Rejection "Could not get latest board hash"), tt, [GetBoardHash]).
Proof.
  apply (unacknowledged_board_stops_submission
           (Scenarios.withBoardHash Scenarios.boardWithoutHash (Demo.env true))
           Demo.submission tt []
           {| BoardHashData.currentBoardHash := Some "";
              BoardHashData.currentTime := Some Demo.boardTime |});
    reflexivity.
Defined.

Lemma board_refusal_is_rejection_reason_witness :
  outcome (signAndSubmitVotes (Scenarios.withSubmitAnswer Scenarios.refusal (Demo.env true))
             Demo.submission tt []) =
    Fail (Rejection "Ballot ids do not correspond.").
Proof.
  pose (ack := {| AcknowledgedBoard.currentBoardHash := "b0";
                  AcknowledgedBoard.currentTime := Demo.boardTime |}).
  pose (contentHash :=
          Demo.hash (stringify (contentOf ack 1 (Some "voter-1")
                                          (votesOf (Some Demo.envelopes))))).
  pose proof
    (board_refusal_is_rejection_reason
       (Scenarios.withSubmitAnswer Scenarios.refusal (Demo.env true))
       Demo.submission tt tt [] [GetBoardHash]
       ack (Demo.signature contentHash "k1") "Ballot ids do not correspond."
       {| SubmitData.error := Some "Ballot ids do not correspond.";
          SubmitData.previousBoardHash := "";
          SubmitData.boardHash := "";
          SubmitData.registeredAt := "";
          SubmitData.serverSignature := "";
          SubmitData.voteSubmissionId := 0 |}
       eq_refl eq_refl eq_refl eq_refl) as H.
  cbv zeta in H. rewrite H. reflexivity.
Defined.

End SubmissionSpec.

(* ================================================================== *)
(** * The session: what a call can change *)
(* ================================================================== *)

Module LifecycleFacts.
Import Js Json Effects EffectsFacts CvrValidation AVClient AVClientSpec Lifecycle.
Import SessionRuns SubmissionRuns.
Local Open Scope string_scope.

Lemma mapM_pure {St A B : Type} (f : A -> Comp St B) (g : A -> result B) (l : list A)
    (s : St) (tr : history) :
  (forall a s' tr', f a s' tr' = (g a, s', tr')) ->
  mapM f l s tr = (traverse g l, s, tr).
Proof.
  intro H. induction l as [| a l IH]; [reflexivity | ].
  simpl. unfold bind at 1. rewrite H.
  destruct (g a) as [b | e]; [ | reflexivity]. simpl.
  unfold bind at 1. rewrite IH.
  destruct (traverse g l); reflexivity.
Qed.

Lemma emptyCryptogramOf_pure (s0 : Session) (contestId : string) (s : Session)
    (tr : history) :
  emptyCryptogramOf s0 contestId s tr = (emptyCryptogramEntry s0 contestId, s, tr).
Proof.
  unfold emptyCryptogramOf, emptyCryptogramEntry.
  destruct (emptyCryptograms s0) as [all | ]; [ | reflexivity].
  simpl. rewrite bind_ret. destruct (get all contestId); reflexivity.
Qed.

Lemma encodingTypeOf_pure (contests : list Ballot.t) (contestId : string) (s : Session)
    (tr : history) :
  encodingTypeOf contests contestId s tr = (encodingTypeEntry contests contestId, s, tr).
Proof.
  unfold encodingTypeOf, encodingTypeEntry.
  destruct (findContest contests contestId); reflexivity.
Qed.

Section Runs.
Variable env : Env.

Lemma constructBallotCryptograms_run (cvr : CastVoteRecord) (s : Session) (tr : history) :
  constructBallotCryptograms env cvr s tr =
    if mayConstruct s then
      match electionConfig s with
      | None => (Fail (InvalidStateError noConfigMessage), s, tr)
      | Some config =>
          let contests := ElectionConfig.ballots config in
          match validateCvr cvr contests with
          | InvalidContest =>
              (Fail (CorruptCvrError "Corrupt CVR: Contains invalid contest"), s, tr)
          | InvalidOption =>
              (Fail (CorruptCvrError "Corrupt CVR: Contains invalid option"), s, tr)
          | Okay =>
              match traverse (emptyCryptogramEntry s) (keys cvr) with
              | Fail x => (Fail x, s, tr)
              | Ok emptyCryptograms =>
                  match traverse (encodingTypeEntry contests) (keys cvr) with
                  | Fail x => (Fail x, s, tr)
                  | Ok contestEncodingTypes =>
                      let key := ElectionConfig.encryptionKey config in
                      let ev :=
                        Encrypt cvr (fromEntries emptyCryptograms)
                          (fromEntries contestEncodingTypes) key in
                      match encrypt env tr cvr (fromEntries emptyCryptograms)
                              (fromEntries contestEncodingTypes) key with
                      | Fail x => (Fail x, s, (tr ++ [ev])%list)
                      | Ok envelopes =>
                          (Ok (fingerprint env (extractCryptograms envelopes)),
                           set_voteEncryptions (Some envelopes) s, (tr ++ [ev])%list)
                      end
                  end
              end
          end
      end
    else
      (Fail (InvalidStateError
         "Cannot construct ballot cryptograms. Voter registration not completed successfully"),
       s, tr).
Proof.
  unfold constructBallotCryptograms. rewrite bind_read. fold (mayConstruct s).
  destruct (mayConstruct s); [ | reflexivity]. cbn [negb].
  unfold getElectionConfig at 1. rewrite bind_assoc, bind_read.
  destruct (electionConfig s) as [config | ] eqn:E; [ | reflexivity].
  rewrite bind_ret. cbv zeta.
  destruct (validateCvr cvr (ElectionConfig.ballots config)); try reflexivity.
  unfold bind at 1. rewrite (mapM_pure _ _ _ _ _ (emptyCryptogramOf_pure s)).
  destruct (traverse (emptyCryptogramEntry s) (keys cvr)) as [ecs | x]; [ | reflexivity].
  unfold bind at 1.
  rewrite (mapM_pure _ _ _ _ _ (encodingTypeOf_pure (ElectionConfig.ballots config))).
  destruct (traverse _ (keys cvr)) as [types | x]; [ | reflexivity].
  unfold electionEncryptionKey, getElectionConfig. rewrite !bind_assoc, bind_read, E.
  rewrite !bind_ret, bind_perform.
  destruct (encrypt _ _ _ _ _ _); reflexivity.
Qed.

Lemma submitBallotCryptograms_run (affidavit : string) (s : Session) (tr : history) :
  submitBallotCryptograms env affidavit s tr =
    if maySubmit s then
      match electionConfig s with
      | None => (Fail (InvalidStateError noConfigMessage), s, tr)
      | Some _ => (Fail TypeError, s, tr)
      end
    else
      (Fail (InvalidStateError
         "Cannot submit cryptograms. Voter identity unknown or no open envelopes"),
       s, tr).
Proof.
  unfold submitBallotCryptograms. rewrite bind_read. fold (maySubmit s).
  destruct (maySubmit s); [ | reflexivity]. cbn [negb].
  unfold AVClient.electionId, getElectionConfig. rewrite !bind_assoc, bind_read.
  destruct (electionConfig s) as [config | ] eqn:E; [ | reflexivity].
  rewrite !bind_ret. unfold privateKey. rewrite !bind_assoc, bind_read.
  destruct (keyPair s) as [kp | ]; [ | reflexivity].
  cbn [prop]. rewrite !bind_assoc, !bind_ret.
  unfold electionSigningPublicKey, affidavitConfig, getElectionConfig.
  rewrite !bind_assoc, bind_read, E, !bind_ret, !bind_assoc, bind_read, E, !bind_ret.
  reflexivity.
Qed.

End Runs.
End LifecycleFacts.

Module LifecycleSpec.
Import Js Json Effects EffectsFacts CvrValidation AVClient AVClientSpec Lifecycle.
Import SessionRuns SubmissionRuns LifecycleFacts ObjectFacts.
Local Open Scope string_scope.

Lemma then_ret_run {A B : Type} (m : M A) (b : A -> B) (s : Session) (tr : history) :
  final (bind m (fun a => ret (b a)) s tr) = final (m s tr) /\
  trace (bind m (fun a => ret (b a)) s tr) = trace (m s tr).
Proof.
  unfold bind. destruct (m s tr) as [[[a | e] s1] tr1]; split; reflexivity.
Qed.

Lemma some_recorded {A : Type} (o : option A) (a : A) : o = Some a -> o <> None.
Proof. intros -> H. discriminate H. Qed.

Lemma truthy_string_cons (o : option string) (a : ascii) (x : string) :
  o = Some (String a x) -> truthy_string o = true.
Proof. intros ->. reflexivity. Qed.

Lemma truthy_string_recorded (o : option string) : truthy_string o = true -> o <> None.
Proof. destruct o; [discriminate | intro H; discriminate H]. Qed.

Lemma truthy_object_recorded {A : Type} (o : option A) :
  truthy_object o = true <-> o <> None.
Proof. destruct o; simpl; split; congruence. Qed.

Lemma call_final_cases (env : Env) (op : operation) (s : Session) (tr : history) :
  final (call env op s tr) = s \/ transition s (final (call env op s tr)).
Proof.
  destruct op; unfold call; rewrite (proj1 (then_ret_run _ _ _ _)).
  - rewrite initialize_run. cbv zeta. cases; unfold final; cbn [fst snd];
      try (left; reflexivity); right; apply Configured; assumption.
  - rewrite authenticateWithCodes_run. cbv zeta. cases; unfold final; cbn [fst snd];
      try (left; reflexivity); right; apply Authenticated; eapply some_recorded; eassumption.
  - rewrite requestAccessCode_run, serviceUrl_run. cases; unfold final; cbn [fst snd];
      try (left; reflexivity); right; apply AccessCodeRequested;
      eapply some_recorded; eassumption.
  - rewrite validateAccessCode_run, serviceUrl_run. cases; unfold final; cbn [fst snd];
      try (left; reflexivity); right; apply AccessCodeValidated;
      [eapply truthy_string_cons; eassumption | eapply some_recorded; eassumption].
  - rewrite registerVoter_run. cbv zeta. cases; unfold final; cbn [fst snd];
      try (left; reflexivity); right;
      first [ apply VoterRegistered;
              [eapply truthy_string_cons; eassumption | eapply some_recorded; eassumption]
            | apply KeyPairGenerated; eapply truthy_string_cons; eassumption ].
  - rewrite constructBallotCryptograms_run. cbv zeta. cases; unfold final; cbn [fst snd];
      try (left; reflexivity); right; apply BallotEncrypted;
      [assumption | eapply some_recorded; eassumption].
  - right. apply TestCodeGenerated.
  - left. reflexivity.
  - left. apply submitBallotCryptograms_stateless.
  - left. reflexivity.
Qed.

Ltac field_facts :=
  repeat match goal with
    | |- _ /\ _ => split
    | |- _ <-> _ => split
    | |- _ -> _ => intro
    end.

Lemma transition_ordered (s s' : Session) : transition s s' -> ordered s -> ordered s'.
Proof.
  intros T (H1 & H2 & H3 & H4 & H5 & [H6 H6'] & H7 & H8).
  pose proof (fun h => proj1 (H7 h)) as H7a. pose proof (fun h => proj2 (H7 h)) as H7b.
  clear H7.
  destruct T as [config Hc | r Hc | sid e Hc | token He Hc | kp Ht | kp r Ht Hc
                 | envelopes Hg Hc | code];
    unfold ordered;
    cbn [authorizationSessionId email identityConfirmationToken electionConfig
         emptyCryptograms keyPair testCode voteEncryptions voterIdentifier contestIds
         set_authorizationSessionId set_email set_identityConfirmationToken
         set_electionConfig set_emptyCryptograms set_keyPair set_testCode
         set_voteEncryptions set_voterIdentifier set_contestIds];
    field_facts;
    try discriminate; try assumption;
    try (solve [auto]);
    try (apply truthy_string_recorded; assumption);
    try (apply H2, H3, truthy_string_recorded; assumption).
  unfold mayConstruct in Hg.
  apply orb_true_iff in Hg as [Hg | Hg]; [apply orb_true_iff in Hg as [Hg | Hg] | ].
  - apply truthy_string_recorded, Hg.
  - apply H6. apply truthy_object_recorded, Hg.
  - apply H7b. apply truthy_object_recorded, Hg.
Qed.

Lemma fresh_ordered : ordered fresh.
Proof. unfold ordered; cbn. repeat split; intros; congruence. Qed.

Lemma calls_ordered (env : Env) (ops : list operation) (s : Session) (tr : history) :
  ordered s -> ordered (snd (fst (calls env ops s tr))).
Proof.
  revert s tr. induction ops as [| op ops IH]; intros s tr H; [exact H | ].
  simpl. pose proof (call_final_cases env op s tr) as C.
  destruct (call env op s tr) as [[r s1] tr1]. unfold final in C. cbn [fst snd] in C.
  specialize (IH s1 tr1).
  destruct (calls env ops s1 tr1) as [[rs s2] tr2]. cbn [fst snd] in *.
  apply IH. destruct C as [-> | T]; [exact H | exact (transition_ordered _ _ T H)].
Qed.

End LifecycleSpec.

Module LifecycleTheorems.
Import Js Json Effects EffectsFacts CvrValidation AVClient AVClientSpec Lifecycle.
Import SessionRuns SubmissionRuns LifecycleFacts LifecycleSpec.
Local Open Scope string_scope.

(** X6. Whatever the collaborators answer, a call either leaves the
    session as it was or makes exactly one of the eight assignments of
    [transition], each only after the checks listed there. *)
Theorem call_makes_transition (env : Env) (op : operation) (s : Session) (tr : history) :
  final (call env op s tr) = s \/ transition s (final (call env op s tr)).
Proof. apply call_final_cases. Qed.

(** X7. After any sequence of calls on a new client, whatever failed in
    between, the fields of the session were recorded in order. *)
Theorem reachable_session_ordered (env : Env) (ops : list operation) :
  ordered (sessionAfter env ops).
Proof. unfold sessionAfter. apply calls_ordered, fresh_ordered. Qed.

Lemma not_recorded {A : Type} (o : option A) : ~ o <> None -> o = None.
Proof. destruct o; [intro H; exfalso; apply H; discriminate | reflexivity]. Qed.

Lemma unconfigured_fields (s : Session) :
  ordered s -> electionConfig s = None ->
  authorizationSessionId s = None /\ email s = None /\
  identityConfirmationToken s = None /\ emptyCryptograms s = None /\
  keyPair s = None /\ voteEncryptions s = None /\ voterIdentifier s = None /\
  contestIds s = None.
Proof.
  intros (H1 & H2 & H3 & H4 & H5 & [H6 H6'] & H7 & H8) Hc.
  assert (E1 : authorizationSessionId s = None) by (apply not_recorded; intro H; exact (H1 H Hc)).
  assert (E2 : email s = None) by (apply not_recorded; intro H; exact (H2 H Hc)).
  assert (E3 : identityConfirmationToken s = None)
    by (apply not_recorded; intro H; exact (H3 H E2)).
  assert (E4 : keyPair s = None) by (apply not_recorded; intro H; exact (H4 H Hc)).
  assert (E5 : voterIdentifier s = None) by (apply not_recorded; intro H; exact (H5 H E4)).
  assert (E6 : emptyCryptograms s = None) by (apply not_recorded; intro H; exact (H6 H E5)).
  assert (E7 : contestIds s = None)
    by (apply not_recorded; intro H; exact (proj2 (H7 H) E5)).
  assert (E8 : voteEncryptions s = None) by (apply not_recorded; intro H; exact (H8 H E5)).
  repeat split; assumption.
Qed.

(** X8. A client on which no [initialize] has succeeded holds no data of
    the voter, whatever was called on it: every field but the test code
    is still undefined. So the four guarded operations fail with their
    own invalid-state error and send nothing. *)
Theorem uninitialised_client_records_nothing (env : Env) (ops : list operation) :
  electionConfig (sessionAfter env ops) = None ->
  let s := sessionAfter env ops in
  s = set_testCode (testCode s) fresh /\
  (forall code tr,
     validateAccessCode env code s tr =
       (Fail (InvalidStateError
                "Cannot validate access code. Access code was not requested."), s, tr)) /\
  (forall tr,
     registerVoter env s tr =
       (Fail (InvalidStateError
                "Cannot register voter without identity confirmation. User has not validated access code."),
        s, tr)) /\
  (forall cvr tr,
     constructBallotCryptograms env cvr s tr =
       (Fail (InvalidStateError
                "Cannot construct ballot cryptograms. Voter registration not completed successfully"),
        s, tr)) /\
  (forall affidavit tr,
     submitBallotCryptograms env affidavit s tr =
       (Fail (InvalidStateError
                "Cannot submit cryptograms. Voter identity unknown or no open envelopes"),
        s, tr)).
Proof.
  intros Hc s.
  destruct (unconfigured_fields s (calls_ordered env ops fresh [] fresh_ordered) Hc)
    as (E1 & E2 & E3 & E4 & E5 & E6 & E7 & E8).
  split; [ | split; [ | split; [ | split ] ] ].
  - fold s in Hc. clearbody s. destruct s. cbn in *. subst. reflexivity.
  - intros code tr. rewrite validateAccessCode_run, E2. reflexivity.
  - intro tr. rewrite registerVoter_run, E3. reflexivity.
  - intros cvr tr. rewrite constructBallotCryptograms_run. unfold mayConstruct.
    rewrite E4, E7, E8. reflexivity.
  - intros a tr. rewrite submitBallotCryptograms_run. unfold maySubmit.
    rewrite E6, E7. reflexivity.
Qed.


Lemma call_trace (env : Env) (op : operation) (s : Session) (tr : history) :
  trace (call env op s tr) =
    match op with
    | OpInitialize c => trace (initialize env c s tr)
    | OpAuthenticateWithCodes codes => trace (authenticateWithCodes env codes s tr)
    | OpRequestAccessCode v e => trace (requestAccessCode env v e s tr)
    | OpValidateAccessCode c => trace (validateAccessCode env c s tr)
    | OpRegisterVoter => trace (registerVoter env s tr)
    | OpConstructBallotCryptograms cvr => trace (constructBallotCryptograms env cvr s tr)
    | OpGenerateTestCode => trace (generateTestCode env s tr)
    | OpSpoilBallotCryptograms => tr
    | OpSubmitBallotCryptograms a => trace (submitBallotCryptograms env a s tr)
    | OpPurgeData => tr
    end.
Proof.
  destruct op; unfold call; try apply (proj2 (then_ret_run _ _ _ _)); reflexivity.
Qed.

(** X9. Without a configuration the only request a call can send is the
    one for the configuration itself, sent by [initialize()]; no other
    operation reaches a server. *)
Theorem no_request_without_configuration (env : Env) (op : operation)
    (s : Session) (tr : history) :
  electionConfig s = None ->
  exists sent,
    trace (call env op s tr) = (tr ++ sent)%list /\
    forall e, In e sent -> is_network e = true ->
              op = OpInitialize None /\ e = GetElectionConfig.
Proof.
  intro Hc. rewrite call_trace.
  assert (Nothing : forall t, t = tr -> exists sent,
             t = (tr ++ sent)%list /\
             forall e, In e sent -> is_network e = true ->
                       op = OpInitialize None /\ e = GetElectionConfig).
  { intros t ->. exists []. split; [symmetry; apply app_nil_r | intros e []]. }
  destruct op.
  - rewrite initialize_run. cbv beta zeta. destruct electionConfig0 as [config | ].
    + apply Nothing. destruct (ElectionConfigOps.configErrors config); reflexivity.
    + exists [GetElectionConfig]. split.
      * destruct (bb_getElectionConfig env tr) as [served | x]; [ | reflexivity].
        destruct (ElectionConfigOps.configErrors _); reflexivity.
      * intros e [<- | []] _. split; reflexivity.
  - apply Nothing. rewrite authenticateWithCodes_run, Hc. reflexivity.
  - apply Nothing. rewrite requestAccessCode_run, serviceUrl_run, Hc. reflexivity.
  - apply Nothing. rewrite validateAccessCode_run, serviceUrl_run, Hc.
    destruct (email s) as [[| a x] | ]; reflexivity.
  - rewrite registerVoter_run, Hc. cbv zeta.
    destruct (identityConfirmationToken s) as [[| a x] | ];
      try (apply Nothing; reflexivity).
    exists [RandomKeyPair]. split; [reflexivity | ].
    intros e [<- | []] N. discriminate N.
  - apply Nothing. rewrite constructBallotCryptograms_run, Hc.
    destruct (mayConstruct s); reflexivity.
  - exists [GenerateTestCode]. split; [reflexivity | ].
    intros e [<- | []] N. discriminate N.
  - apply Nothing. reflexivity.
  - apply Nothing. rewrite submitBallotCryptograms_run, Hc.
    destruct (maySubmit s); reflexivity.
  - apply Nothing. reflexivity.
Qed.

(** X10. [submitBallotCryptograms] never returns a receipt and never
    calls a collaborator: past its guard and the read of the
    configuration it fails with a [TypeError], either on the key pair or
    on the method [encryptAffidavit] that [SubmitVotes] does not have. The
    session is as before. *)
Theorem submitBallotCryptograms_stops_before_submission (env : Env) (affidavit : string)
    (s : Session) (tr : history) :
  submitBallotCryptograms env affidavit s tr =
    (Fail (if truthy_string (voterIdentifier s) || truthy_object (voteEncryptions s)
           then match electionConfig s with
                | None => InvalidStateError "No configuration loaded. Did you call initialize()?"
                | Some _ => TypeError
                end
           else InvalidStateError
                  "Cannot submit cryptograms. Voter identity unknown or no open envelopes"),
     s, tr).
Proof.
  rewrite submitBallotCryptograms_run. unfold maySubmit.
  destruct (truthy_string (voterIdentifier s) || truthy_object (voteEncryptions s));
    [ | reflexivity].
  destruct (electionConfig s); reflexivity.
Qed.


(** X12. An access code requested for the empty address cannot be
    validated: [requestAccessCode] records the address as it is, and the
    guard of [validateAccessCode] takes the empty string for no address at
    all. *)
Theorem empty_email_blocks_validation (env : Env) (opaqueVoterId : string)
    (s s1 : Session) (tr tr1 : history) :
  requestAccessCode env opaqueVoterId "" s tr = (Ok tt, s1, tr1) ->
  email s1 = Some "" /\
  forall code tr2,
    validateAccessCode env code s1 tr2 =
      (Fail (InvalidStateError
               "Cannot validate access code. Access code was not requested."), s1, tr2).
Proof.
  rewrite requestAccessCode_run, serviceUrl_run.
  destruct (electionConfig s) as [config | ]; [ | discriminate].
  destruct (ElectionConfig.services config) as [services | ]; [ | discriminate].
  destruct (Services.voter_authorizer services) as [service | ]; [ | discriminate].
  destruct (vac_createSession _ _ _ _ _) as [sessionId | x]; [ | discriminate].
  intro H. injection H as <- _. split; [reflexivity | ].
  intros code tr2. rewrite validateAccessCode_run. reflexivity.
Qed.



(** X14. [initialize()] asks the board once and stores what it served,
    with the affidavit settings replaced by the built-in curve and key,
    whatever the board sent for them; [initialize(config)] sends
    nothing. *)
Theorem fetched_configuration_gets_builtin_affidavit (env : Env) (s : Session)
    (tr : history) (served : ElectionConfig.t) :
  bb_getElectionConfig env tr = Ok served ->
  ElectionConfigOps.configErrors served = [] ->
  initialize env None s tr =
    (Ok tt,
     set_electionConfig
       (Some {| ElectionConfig.app_url := ElectionConfig.app_url served;
                ElectionConfig.encryptionKey := ElectionConfig.encryptionKey served;
                ElectionConfig.signingPublicKey := ElectionConfig.signingPublicKey served;
                ElectionConfig.election := ElectionConfig.election served;
                ElectionConfig.ballots := ElectionConfig.ballots served;
                ElectionConfig.availableLocales := ElectionConfig.availableLocales served;
                ElectionConfig.currentLocale := ElectionConfig.currentLocale served;
                ElectionConfig.affidavit :=
                  Some {| AffidavitConfig.curve := "k256";
                          AffidavitConfig.encryptionKey :=
                            "03e9858b6e48eb93d8f27aa76b60806298c4c7dd94077ad6c3ff97c44937888647" |};
                ElectionConfig.services := ElectionConfig.services served |}) s,
     (tr ++ [GetElectionConfig])%list) /\
  forall config, trace (initialize env (Some config) s tr) = tr.
Proof.
  intros Hserved Hvalid. split.
  - rewrite initialize_run. cbv beta zeta. rewrite Hserved.
    change (ElectionConfigOps.configErrors (ElectionConfig.with_affidavit _ served))
      with (ElectionConfigOps.configErrors served).
    rewrite Hvalid. reflexivity.
  - intro config. rewrite initialize_run. cbv beta zeta.
    destruct (ElectionConfigOps.configErrors config); reflexivity.
Qed.


Lemma uninitialised_client_records_nothing_witness :
  testCode (sessionAfter (Demo.env true)
              [ OpGenerateTestCode;
                OpRequestAccessCode "voter123" "voter@foo.bar";
                OpRegisterVoter ]) = Some "test-code" /\
  forall code tr,
    validateAccessCode (Demo.env true) code
        (sessionAfter (Demo.env true)
           [ OpGenerateTestCode;
             OpRequestAccessCode "voter123" "voter@foo.bar";
             OpRegisterVoter ]) tr =
      (Fail (InvalidStateError
               "Cannot validate access code. Access code was not requested."),
       sessionAfter (Demo.env true)
         [ OpGenerateTestCode;
           OpRequestAccessCode "voter123" "voter@foo.bar";
           OpRegisterVoter ], tr).
Proof.
  split; [reflexivity | ].
  exact (proj1 (proj2 (uninitialised_client_records_nothing (Demo.env true)
                         [ OpGenerateTestCode;
                           OpRequestAccessCode "voter123" "voter@foo.bar";
                           OpRegisterVoter ] eq_refl))).
Defined.

Lemma no_request_without_configuration_witness :
  exists sent,
    trace (call (Demo.env true) (OpInitialize None) fresh []) = ([] ++ sent)%list /\
    forall e, In e sent -> is_network e = true ->
              OpInitialize None = OpInitialize None /\ e = GetElectionConfig.
Proof.
  exact (no_request_without_configuration (Demo.env true) (OpInitialize None) fresh []
           eq_refl).
Defined.


Lemma empty_email_blocks_validation_witness :
  exists s1,
    outcome (requestAccessCode (Demo.env true) "voter123" ""
               (sessionAfter (Demo.env true) [OpInitialize None]) []) = Ok tt /\
    validateAccessCode (Demo.env true) "1234" s1 [] =
      (Fail (InvalidStateError
               "Cannot validate access code. Access code was not requested."), s1, []).
Proof.
  pose (r := requestAccessCode (Demo.env true) "voter123" ""
               (sessionAfter (Demo.env true) [OpInitialize None]) []).
  assert (E : r = (Ok tt, final r, trace r)) by (vm_compute; reflexivity).
  exists (final r). split; [reflexivity | ].
  apply (proj2 (empty_email_blocks_validation (Demo.env true) "voter123"
                  (sessionAfter (Demo.env true) [OpInitialize None]) (final r)
                  [] (trace r) E)).
Defined.


Lemma fetched_configuration_gets_builtin_affidavit_witness :
  electionConfig (final (initialize (Demo.env true) None fresh [])) =
    Some (ElectionConfig.with_affidavit
            {| AffidavitConfig.curve := "k256";
               AffidavitConfig.encryptionKey :=
                 "03e9858b6e48eb93d8f27aa76b60806298c4c7dd94077ad6c3ff97c44937888647" |}
            Demo.config).
Proof.
  rewrite (proj1 (fetched_configuration_gets_builtin_affidavit (Demo.env true) fresh []
                    Demo.config eq_refl eq_refl)).
  reflexivity.
Defined.

End LifecycleTheorems.

(* ================================================================== *)
(** * Encrypting the contests of a record *)
(* ================================================================== *)

Module ConstructSpec.
Import Js Json Effects EffectsFacts CvrValidation AVClient AVClientSpec Lifecycle.
Import SessionRuns LifecycleFacts ObjectFacts JsFacts.
Local Open Scope string_scope.

Lemma validated_contests (cvr : CastVoteRecord) (contests : list Ballot.t) (k : string) :
  validateCvr cvr contests = Okay -> In k (keys cvr) ->
  exists contest, findContest contests k = Some contest.
Proof.
  unfold validateCvr. destruct (forallb (isConfiguredContest contests) (keys cvr)) eqn:F;
    [ | discriminate].
  intros _ Hin. rewrite forallb_forall in F. specialize (F k Hin).
  unfold isConfiguredContest in F.
  destruct (findContest contests k) as [contest | ]; [ | discriminate].
  exists contest. reflexivity.
Qed.

(** X15. On a record that passed validation [constructBallotCryptograms]
    reads, for every contest of the record, the empty cryptogram the
    session holds for it. If one is missing the call fails with a
    [TypeError] before anything is encrypted; if all are there it makes
    exactly one call of [encrypt], with the record, the empty cryptogram
    and the encoding type of each contest of the record and of no other,
    and the election's encryption key. *)
Theorem construct_encrypts_contests_of_record (env : Env) (cvr : CastVoteRecord)
    (s : Session) (tr : history) (config : ElectionConfig.t) :
  truthy_string (voterIdentifier s) || truthy_object (emptyCryptograms s)
    || truthy_object (contestIds s) = true ->
  electionConfig s = Some config ->
  validateCvr cvr (ElectionConfig.ballots config) = Okay ->
  ((exists contestId,
      In contestId (keys cvr) /\
      (emptyCryptograms s = None \/
       exists all, emptyCryptograms s = Some all /\ get all contestId = None)) ->
   constructBallotCryptograms env cvr s tr = (Fail TypeError, s, tr)) /\
  (forall all,
     emptyCryptograms s = Some all ->
     (forall contestId, In contestId (keys cvr) -> get all contestId <> None) ->
     exists emptyCryptograms contestEncodingTypes,
       trace (constructBallotCryptograms env cvr s tr) =
         (tr ++ [Encrypt cvr emptyCryptograms contestEncodingTypes
                   (ElectionConfig.encryptionKey config)])%list /\
       forall contestId,
         get emptyCryptograms contestId =
           (if existsb (String.eqb contestId) (keys cvr)
            then option_map EmptyCryptogram.empty_cryptogram (get all contestId)
            else None) /\
         get contestEncodingTypes contestId =
           (if existsb (String.eqb contestId) (keys cvr)
            then option_map Ballot.vote_encoding_type
                   (findContest (ElectionConfig.ballots config) contestId)
            else None)).
Proof.
  intros Hguard Hconfig Hvalid. split.
  - intros (k & Hin & Hmissing).
    rewrite constructBallotCryptograms_run. unfold mayConstruct.
    rewrite Hguard, Hconfig. cbv zeta. rewrite Hvalid.
    rewrite (traverse_fails (emptyCryptogramEntry s) (keys cvr) TypeError);
      [reflexivity | | ].
    + intros a e. unfold emptyCryptogramEntry.
      destruct (emptyCryptograms s) as [all | ]; cbn [orThrow andThen];
        [ | congruence].
      destruct (get all a); cbn [orThrow andThen]; congruence.
    + exists k, TypeError. split; [exact Hin | ]. unfold emptyCryptogramEntry.
      destruct Hmissing as [E | (all & E & G)]; rewrite E; cbn [orThrow andThen];
        [reflexivity | rewrite G; reflexivity].
  - intros all Hall Hthere.
    pose (ec := fun k => match get all k with
                         | Some entry => EmptyCryptogram.empty_cryptogram entry
                         | None => ""
                         end).
    pose (ty := fun k => match findContest (ElectionConfig.ballots config) k with
                         | Some contest => Ballot.vote_encoding_type contest
                         | None => 0%Z
                         end).
    assert (E1 : traverse (emptyCryptogramEntry s) (keys cvr) =
                 Ok (map (fun k => (k, ec k)) (keys cvr))).
    { apply traverse_ok_map. intros k Hin. unfold emptyCryptogramEntry, ec.
      rewrite Hall. cbn [orThrow andThen]. specialize (Hthere k Hin).
      destruct (get all k); [reflexivity | contradiction]. }
    assert (E2 : traverse (encodingTypeEntry (ElectionConfig.ballots config)) (keys cvr) =
                 Ok (map (fun k => (k, ty k)) (keys cvr))).
    { apply traverse_ok_map. intros k Hin. unfold encodingTypeEntry, ty.
      destruct (validated_contests cvr _ k Hvalid Hin) as [contest ->]. reflexivity. }
    exists (fromEntries (map (fun k => (k, ec k)) (keys cvr))),
           (fromEntries (map (fun k => (k, ty k)) (keys cvr))).
    split.
    + rewrite constructBallotCryptograms_run. unfold mayConstruct.
      rewrite Hguard, Hconfig. cbv zeta. rewrite Hvalid, E1, E2.
      destruct (encrypt env tr cvr _ _ _); reflexivity.
    + intro k. destruct (existsb (String.eqb k) (keys cvr)) eqn:Ex.
      * apply existsb_exists in Ex as (k' & Hin & Ek). apply String.eqb_eq in Ek.
        subst k'. rewrite !get_fromEntries_self_in by exact Hin. unfold ec, ty.
        specialize (Hthere k Hin).
        destruct (validated_contests cvr _ k Hvalid Hin) as [contest ->].
        destruct (get all k); [split; reflexivity | contradiction].
      * assert (Hout : ~ In k (keys cvr)).
        { intro Hin. assert (existsb (String.eqb k) (keys cvr) = true).
          { apply existsb_exists. exists k. split; [exact Hin | apply String.eqb_refl]. }
          congruence. }
        rewrite !get_fromEntries_self_out by exact Hout. split; reflexivity.
Qed.

Lemma construct_encrypts_contests_of_record_witness :
  constructBallotCryptograms (Demo.env true) Demo.cvr
      (set_emptyCryptograms
         (Some [("1", {| EmptyCryptogram.empty_cryptogram := "e1" |})]) Demo.registered)
      [] =
    (Fail TypeError,
     set_emptyCryptograms
       (Some [("1", {| EmptyCryptogram.empty_cryptogram := "e1" |})]) Demo.registered,
     []).
Proof.
  apply (proj1 (construct_encrypts_contests_of_record (Demo.env true) Demo.cvr
                  (set_emptyCryptograms
                     (Some [("1", {| EmptyCryptogram.empty_cryptogram := "e1" |})])
                     Demo.registered)
                  []
                  (ElectionConfig.with_affidavit
                     {| AffidavitConfig.curve := "k256";
                        AffidavitConfig.encryptionKey :=
                          "03e9858b6e48eb93d8f27aa76b60806298c4c7dd94077ad6c3ff97c44937888647" |}
                     Demo.config)
                  eq_refl eq_refl eq_refl)).
  exists "2". split; [right; left; reflexivity | ].
  right. eexists. split; reflexivity.
Defined.

End ConstructSpec.

(* ================================================================== *)
(** * The helpers of the tests *)
(* ================================================================== *)

Module TestHelpersSpec.
Import TestHelpers FileNameChars.

Local Open Scope Z_scope.







Local Close Scope Z_scope.
Local Open Scope string_scope.

Ltac each_char c :=
  destruct c as [[] [] [] [] [] [] [] []]; vm_compute;
  try reflexivity; try discriminate; try (intro; reflexivity); try (intro; discriminate).

Lemma toLowerChar_safe (c : ascii) :
  isWordOrDash c = true -> safeChar (toLowerChar c) = true.
Proof. each_char c. Qed.

Lemma replaceEquals_nop_char (c : ascii) :
  safeChar c = true -> (if Ascii.eqb c "=" then "-"%char else c) = c.
Proof. each_char c. Qed.

Lemma safe_is_word (c : ascii) : safeChar c = true -> isWordOrDash c = true.
Proof. each_char c. Qed.

Lemma safe_is_lower (c : ascii) : safeChar c = true -> toLowerChar c = c.
Proof. each_char c. Qed.

Lemma safe_not_slash (c : ascii) : safeChar c = true -> Ascii.eqb c "/" = false.
Proof. each_char c. Qed.

Lemma replaceRuns_word (inRun : bool) (s : string) :
  allChars isWordOrDash (replaceRuns inRun s) = true.
Proof.
  revert inRun. induction s as [| c s IH]; intro inRun; [reflexivity | ].
  cbn [replaceRuns]. destruct (isWordOrDash c) eqn:W.
  - cbn [allChars]. rewrite W, IH. reflexivity.
  - destruct inRun; [apply IH | ]. cbn [allChars]. rewrite IH. reflexivity.
Qed.

Lemma toLowerCase_safe (s : string) :
  allChars isWordOrDash s = true -> allChars safeChar (toLowerCase s) = true.
Proof.
  induction s as [| c s IH]; [reflexivity | ].
  cbn [allChars toLowerCase]. intro H. apply andb_true_iff in H as [Hc Hs].
  rewrite (toLowerChar_safe c Hc), (IH Hs). reflexivity.
Qed.

(** X17. Whatever the path of the request, the part of the file name
    made from it holds only lower-case letters, digits, underscores and
    dashes. *)
Theorem urlPathForFilename_safe (url : string) :
  allChars safeChar (urlPathForFilename url) = true.
Proof. unfold urlPathForFilename. apply toLowerCase_safe, replaceRuns_word. Qed.

Lemma safe_fixed (s : string) :
  allChars safeChar s = true ->
  removeLeadingSlash s = s /\ replaceEquals s = s /\
  (forall inRun, replaceRuns inRun s = s) /\ toLowerCase s = s.
Proof.
  induction s as [| c s IH]; [repeat split | ].
  cbn [allChars]. intro H. apply andb_true_iff in H as [Hc Hs].
  destruct (IH Hs) as (_ & E2 & E3 & E4). repeat split.
  - cbn [removeLeadingSlash]. rewrite (safe_not_slash c Hc). reflexivity.
  - cbn [replaceEquals]. rewrite (replaceEquals_nop_char c Hc), E2. reflexivity.
  - intro inRun. cbn [replaceRuns]. rewrite (safe_is_word c Hc), E3. reflexivity.
  - cbn [toLowerCase]. rewrite (safe_is_lower c Hc), E4. reflexivity.
Qed.

(** X18. Making a file name part from a file name part changes nothing. *)
Theorem urlPathForFilename_idempotent (url : string) :
  urlPathForFilename (urlPathForFilename url) = urlPathForFilename url.
Proof.
  destruct (safe_fixed _ (urlPathForFilename_safe url)) as (E1 & E2 & E3 & E4).
  unfold urlPathForFilename at 1. rewrite E1, E2, E3, E4. reflexivity.
Qed.

End TestHelpersSpec.

(* ================================================================== *)
(** * The first client *)
(* ================================================================== *)

Module LegacyClientSpec.
Import Js LegacyClient ObjectFacts.
Local Open Scope string_scope.

Section Facts.
Variable backend : Backend.


Lemma store_config (key : string) (authenticationResponse : any) (c c' : Client) :
  store key authenticationResponse c = Ok c' -> electionConfig c' = electionConfig c.
Proof.
  unfold store. destruct (member authenticationResponse key); cbn [andThen];
    [ | discriminate].
  intro H. injection H as <-. reflexivity.
Qed.

(** X19. The configuration is fetched when the client holds none, and
    only then: a client whose configuration is the empty object starts
    [authenticateWithCodes] with the request for the configuration and
    makes it once; a client that holds a configuration with at least one
    entry keeps it and sends nothing but the authentication. *)
Theorem configuration_is_fetched_once (codes : list string) (c : Client)
    (tr : list request) :
  (electionConfig c = Object [] ->
   snd (authenticateWithCodes backend codes c tr) = (tr ++ [GetConfig])%list \/
   exists id key,
     snd (authenticateWithCodes backend codes c tr) =
       (tr ++ [GetConfig; AuthenticateCodes codes id key])%list) /\
  (forall field fields,
     electionConfig c = Object (field :: fields) ->
     electionConfig (snd (fst (authenticateWithCodes backend codes c tr))) =
       electionConfig c /\
     (snd (authenticateWithCodes backend codes c tr) = tr \/
      exists id key,
        snd (authenticateWithCodes backend codes c tr) =
          (tr ++ [AuthenticateCodes codes id key])%list)).
Proof.
  split.
  - intro E. unfold authenticateWithCodes, updateElectionConfig. rewrite E.
    cbn [entriesLength List.length Nat.eqb]. cbv zeta.
    cases; cbn [snd]; rewrite <- ?app_assoc;
      first [left; reflexivity | right; eexists; eexists; reflexivity].
  - intros field fields E. unfold authenticateWithCodes, updateElectionConfig. rewrite E.
    cbn [entriesLength List.length Nat.eqb]. cbv zeta.
    destruct (electionId c); [ | split; [exact E | left; reflexivity] ].
    destruct (electionEncryptionKey c); [ | split; [exact E | left; reflexivity] ].
    destruct (backend_authenticate backend tr codes a a0) as [response | e];
      [ | split; [exact E | right; eexists; eexists; reflexivity] ].
    destruct (store "precinctId" response c) as [c2 | e] eqn:S1;
      [ | split; [exact E | right; eexists; eexists; reflexivity] ].
    apply store_config in S1.
    destruct (store "keyPair" response c2) as [c3 | e] eqn:S2;
      [ | split; [cbn [fst snd]; congruence | right; eexists; eexists; reflexivity] ].
    apply store_config in S2.
    destruct (store "emptyCryptograms" response c3) as [c4 | e] eqn:S3;
      [ | split; [cbn [fst snd]; congruence | right; eexists; eexists; reflexivity] ].
    apply store_config in S3.
    split; [cbn [fst snd]; congruence | right; eexists; eexists; reflexivity].
Qed.


(** X21. A configuration without an [election] entry stops the
    authentication: when the backend serves such an object to a client
    that holds none, [authenticateWithCodes] keeps the object and fails
    with a [TypeError] on [election.id]; the codes are not sent and the
    storage is as it was. *)
Theorem configuration_without_election_fails (codes : list string) (c : Client)
    (tr : list request) (fields : list (string * any)) :
  electionConfig c = Object [] ->
  backend_get backend tr = Ok (Object fields) ->
  Js.get fields "election" = None ->
  authenticateWithCodes backend codes c tr =
    (Fail TypeError, {| storage := storage c; electionConfig := Object fields |},
     (tr ++ [GetConfig])%list).
Proof.
  intros E Hget Hnone. unfold authenticateWithCodes, updateElectionConfig.
  rewrite E. cbn [entriesLength List.length Nat.eqb]. rewrite Hget.
  unfold electionId. cbn [electionConfig member]. rewrite Hnone. reflexivity.
Qed.

End Facts.

Lemma configuration_without_election_fails_witness :
  authenticateWithCodes
      {| backend_get := fun _ => Ok (Object []);
         backend_authenticate := fun _ _ _ _ => Ok Undefined |}
      ["aAjEuD64Fo2143"] (constructor StorageAdapter.create) [] =
    (Fail TypeError, constructor StorageAdapter.create, [GetConfig]).
Proof.
  apply (configuration_without_election_fails
           {| backend_get := fun _ => Ok (Object []);
              backend_authenticate := fun _ _ _ _ => Ok Undefined |}
           ["aAjEuD64Fo2143"] (constructor StorageAdapter.create) [] []);
    reflexivity.
Defined.

End LegacyClientSpec.

(* ================================================================== *)
(** * The helpers of the decryption test *)
(* ================================================================== *)

Module DecryptHelpersSpec.
Import Js Curve ElGamalPointCryptogram DecryptHelpers ObjectFacts JsFacts.
Local Open Scope string_scope.

Lemma get_map_find {A V : Type} (key : A -> string) (val : A -> V) (l : list A)
    (k : string) :
  get (map (fun a => (key a, val a)) l) k =
    option_map val (find (fun a => String.eqb (key a) k) l).
Proof.
  induction l as [| a l IH]; [reflexivity | ].
  cbn [map get find]. destruct (String.eqb (key a) k); [reflexivity | exact IH].
Qed.

(** X22. The opening made from a list of envelopes has the empty
    commitment randomness, and under each contest reference the
    randomizers of the last envelope of that reference; a reference no
    envelope has is not in it. *)
Theorem dummyCommitmentOpening_last_envelope (contestEnvelopes : list ContestEnvelope.t)
    (reference : string) :
  CommitmentOpening.commitmentRandomness (dummyCommitmentOpening contestEnvelopes) = "" /\
  get (CommitmentOpening.randomizers (dummyCommitmentOpening contestEnvelopes)) reference =
    option_map ContestEnvelope.randomizers
      (find (fun ce => String.eqb (ContestEnvelope.reference ce) reference)
            (rev contestEnvelopes)).
Proof.
  split; [reflexivity | ].
  unfold dummyCommitmentOpening. cbn [CommitmentOpening.randomizers].
  rewrite get_fromEntries, <- map_rev. apply get_map_find.
Qed.

Section WithCurve.
Context {curve : Curve.t}.

Lemma combineSlots_ok (voter : list string) (board : option (list string))
    (combined : list string) :
  combineSlots voter board = Ok combined ->
  List.length combined = List.length voter /\
  (voter = [] \/
   exists slots, board = Some slots /\ List.length voter <= List.length slots) /\
  forall slots i voterCryptogram,
    board = Some slots ->
    nth_error voter i = Some voterCryptogram ->
    exists sum,
      nth_error combined i = Some sum /\
      homomorphicallyAddCryptograms voterCryptogram (nth_error slots i) = Ok sum.
Proof.
  revert board combined. induction voter as [| v voter IH]; intros board combined H.
  - cbn in H. injection H as <-. split; [reflexivity | split; [left; reflexivity | ] ].
    intros slots [| i] vc _ Hn; discriminate Hn.
  - cbn [combineSlots] in H.
    destruct board as [slots | ]; cbn [orThrow andThen] in H; [ | discriminate H].
    destruct (homomorphicallyAddCryptograms v (hd_error slots)) as [sum | e] eqn:Hsum;
      cbn [andThen] in H; [ | discriminate H].
    destruct (combineSlots voter (Some (tl slots))) as [rest | e] eqn:Hrest;
      cbn [andThen] in H; [ | discriminate H].
    injection H as <-.
    destruct (IH _ _ Hrest) as (Hlen & Hcover & Hnth).
    assert (Hslots : slots <> []).
    { intros ->. unfold homomorphicallyAddCryptograms in Hsum. cbn [hd_error] in Hsum.
      destruct (fromString v); cbn [andThen orThrow] in Hsum; discriminate Hsum. }
    split; [cbn [List.length]; rewrite Hlen; reflexivity | split ].
    + right. exists slots. split; [reflexivity | ].
      destruct slots as [| b slots]; [contradiction | ]. cbn [List.length tl] in *.
      destruct Hcover as [-> | (slots' & E & L)]; [cbn; lia | ].
      injection E as <-. lia.
    + intros slots' i vc E Hi. injection E as <-.
      destruct slots as [| b slots]; [contradiction | ].
      destruct i as [| i].
      * cbn [nth_error] in *. injection Hi as <-. exists sum. split; [reflexivity | ].
        exact Hsum.
      * cbn [nth_error] in *. exact (Hnth slots i vc eq_refl Hi).
Qed.

Lemma traverse_ok_values {A B : Type} (d : B) (g : A -> result B) (l : list A)
    (r : list B) :
  traverse g l = Ok r ->
  r = map (fun a => valueOr d (g a)) l /\ forall a, In a l -> exists b, g a = Ok b.
Proof.
  revert r. induction l as [| a l IH]; intros r H.
  - cbn in H. injection H as <-. split; [reflexivity | intros a []].
  - cbn [traverse] in H. destruct (g a) as [b | e] eqn:Ha; cbn [andThen] in H;
      [ | discriminate H].
    destruct (traverse g l) as [bs | e]; cbn [andThen] in H; [ | discriminate H].
    injection H as <-. destruct (IH bs eq_refl) as [E Hall]. split.
    + cbn [map]. rewrite Ha. cbn [valueOr]. f_equal. exact E.
    + intros x [<- | Hx]; [exists b; exact Ha | apply Hall, Hx].
Qed.

Lemma get_none_keys {V : Type} (o : obj V) (k : string) :
  get o k = None <-> ~ In k (keys o).
Proof.
  induction o as [| [k' v] o IH]; cbn [get keys map fst In].
  - split; [intros _ [] | reflexivity].
  - destruct (String.eqb_spec k' k) as [-> | N]; split.
    + discriminate.
    + intro H. exfalso. apply H. left. reflexivity.
    + intros H [E | Hin]; [contradiction | ]. apply IH in H. contradiction.
    + intro H. apply IH. intro Hin. apply H. right. exact Hin.
Qed.

(** X23. When [prepareCombinedCryptograms] returns, its result has an
    entry for each contest of the voter's envelopes and for no other.
    The entry has as many cryptograms as the voter's entry; unless that
    one is empty, the board has an entry for the contest with at least as
    many cryptograms, and each cryptogram of the result is what
    [homomorphicallyAddCryptograms] makes of the voter's and the board's
    cryptogram at the same place. *)
Theorem combined_cryptograms_cover_voter (voterEnvelopes boardEnvelopes : list ContestEnvelope.t)
    (combined : obj (list string)) (reference : string) :
  prepareCombinedCryptograms voterEnvelopes boardEnvelopes = Ok combined ->
  let voterCryptograms :=
    fromEntries (map (fun ce => (ContestEnvelope.reference ce,
                                 ContestEnvelope.cryptograms ce)) voterEnvelopes) in
  let boardCryptograms :=
    fromEntries (map (fun ce => (ContestEnvelope.reference ce,
                                 ContestEnvelope.cryptograms ce)) boardEnvelopes) in
  match get voterCryptograms reference with
  | None => get combined reference = None
  | Some voter =>
      exists sums,
        get combined reference = Some sums /\
        List.length sums = List.length voter /\
        (voter = [] \/
         exists board,
           get boardCryptograms reference = Some board /\
           List.length voter <= List.length board) /\
        forall board i voterCryptogram,
          get boardCryptograms reference = Some board ->
          nth_error voter i = Some voterCryptogram ->
          exists sum,
            nth_error sums i = Some sum /\
            homomorphicallyAddCryptograms voterCryptogram (nth_error board i) = Ok sum
  end.
Proof.
  intros H voterCryptograms boardCryptograms.
  unfold prepareCombinedCryptograms in H. cbv zeta in H.
  fold voterCryptograms boardCryptograms in H.
  destruct (traverse _ (keys voterCryptograms)) as [entries | e] eqn:T;
    cbn [andThen] in H; [ | discriminate H].
  injection H as <-.
  apply (traverse_ok_values ("", [])) in T as [E Hall].
  pose (f := fun k =>
               match get voterCryptograms k with
               | Some voter => valueOr [] (combineSlots voter (get boardCryptograms k))
               | None => []
               end).
  assert (Hf : forall k, In k (keys voterCryptograms) ->
               exists voter, get voterCryptograms k = Some voter /\
                             combineSlots voter (get boardCryptograms k) = Ok (f k)).
  { intros k Hk. destruct (Hall k Hk) as [b Hb]. unfold f.
    destruct (get voterCryptograms k) as [voter | ]; cbn [orThrow andThen] in Hb;
      [ | discriminate Hb].
    exists voter. split; [reflexivity | ].
    destruct (combineSlots voter (get boardCryptograms k)); cbn [andThen] in Hb;
      [reflexivity | discriminate Hb]. }
  assert (E' : entries = map (fun k => (k, f k)) (keys voterCryptograms)).
  { rewrite E. apply map_ext_in. intros k Hk. destruct (Hf k Hk) as (voter & Hv & Hc).
    rewrite Hv. cbn [orThrow andThen]. rewrite Hc. reflexivity. }
  rewrite E'. destruct (get voterCryptograms reference) as [voter | ] eqn:G.
  - assert (Hin : In reference (keys voterCryptograms)).
    { destruct (in_dec string_dec reference (keys voterCryptograms)) as [Hin | Hout];
        [exact Hin | ].
      apply get_none_keys in Hout. congruence. }
    destruct (Hf reference Hin) as (voter' & Hv & Hc).
    assert (voter' = voter) by congruence. subst voter'.
    destruct (combineSlots_ok _ _ _ Hc) as (Hlen & Hcover & Hnth).
    exists (f reference).
    split; [apply get_fromEntries_self_in, Hin | split; [exact Hlen | split ] ].
    + exact Hcover.
    + exact Hnth.
  - apply get_fromEntries_self_out. apply get_none_keys. exact G.
Qed.

End WithCurve.

Lemma combined_cryptograms_cover_voter_witness :
  prepareCombinedCryptograms (curve := ToyCurveFacts.curve)
      [ {| ContestEnvelope.reference := "contest";
           ContestEnvelope.cryptograms := ["67,6a"];
           ContestEnvelope.randomizers := [] |} ]
      [ {| ContestEnvelope.reference := "contest";
           ContestEnvelope.cryptograms := ["00,69"; "6b,6b"];
           ContestEnvelope.randomizers := [] |} ] =
    Ok [("contest", ["67,03"])] /\
  exists sums, get [("contest", ["67,03"])] "contest" = Some sums /\ List.length sums = 1.
Proof.
  split; [vm_compute; reflexivity | ].
  pose proof
    (combined_cryptograms_cover_voter (curve := ToyCurveFacts.curve)
       [ {| ContestEnvelope.reference := "contest";
            ContestEnvelope.cryptograms := ["67,6a"];
            ContestEnvelope.randomizers := [] |} ]
       [ {| ContestEnvelope.reference := "contest";
            ContestEnvelope.cryptograms := ["00,69"; "6b,6b"];
            ContestEnvelope.randomizers := [] |} ]
       [("contest", ["67,03"])] "contest" eq_refl) as H.
  cbv zeta in H. cbn [map fromEntries fold_left setProp fst snd get String.eqb Ascii.eqb
                      Bool.eqb ContestEnvelope.reference ContestEnvelope.cryptograms] in H.
  destruct H as (sums & G & L & _). exists sums. split; [exact G | exact L].
Defined.

End DecryptHelpersSpec.
